(** * hlf-grants-network: the bulk-filings pipeline of
      scripts/build-complete-grants-dataset.ts

    A shallow embedding of the pipeline script: the filing parsers, the
    archive extractor's outcome handling, the curated-sheet row filter, the
    dataset builder with its placeholder consolidation, the streaming
    serializer and the two network builders, and of main the per-file task,
    the batches, the search for the directory of the documents and the merge
    of the Form 990 organizations, followed by the properties established
    for them.

    Conventions of the embedding.
    - A JavaScript string is a [string]; a character stands for a code unit
      in the range U+0000..U+00FF.
    - A JavaScript number is a [number]: NaN, the two infinities, or an exact
      rational.  Rounding to binary64 is not modelled: a decimal literal
      denotes its exact value.
    - A plain object used as a dictionary is a [dict]: the list of its own
      entries in the order [Object.keys] enumerates them (array-index keys in
      ascending order first, then the other keys in insertion order).
      Inherited properties of [Object.prototype] are not modelled: a [dict]
      stands for the object on keys other than the [inheritedNames], and a
      statement that depends on this says so.
    - A [Map] is an association list in insertion order, a [Set] a list.
    - A thrown exception or a rejected promise is [Throw]; console output is
      not modelled.  The room that a call has for the arguments of a spread
      [f(...xs)] depends on the engine; it is a parameter, [argLimit].
    - The file system is what the code asks of it: the parsers read through
      an [Env], the directory search through a [Disk] whose listings and
      directory tests are total (a listed entry can be listed and tested).
      Downloads, the monthly cache files and the pretty-printed network file
      are not modelled. *)

From Stdlib Require Import List String Ascii Bool Arith NArith ZArith QArith.
From Stdlib Require Import Lia Permutation DecimalString.
Import ListNotations.

Close Scope Q_scope.
Local Open Scope string_scope.
Local Open Scope list_scope.

(* ===================================================================== *)
(** ** Exceptions *)
(* ===================================================================== *)

Record Error := mkError { message : string }.

Inductive result (A : Type) : Type :=
| Ok (a : A)
| Throw (e : Error).
Arguments Ok {A} a.
Arguments Throw {A} e.

Definition bind {A B : Type} (m : result A) (k : A -> result B) : result B :=
  match m with
  | Ok a => k a
  | Throw e => Throw e
  end.

Notation "x <- m ;; k" := (bind m (fun x => k))
  (at level 61, m at next level, right associativity).

(** [try { body } catch (error) { handler }] *)
Definition try_catch {A : Type} (body : result A) (handler : Error -> result A)
  : result A :=
  match body with
  | Ok a => Ok a
  | Throw e => handler e
  end.

(** A loop body run over a list, left to right, stopping at the first throw. *)
Fixpoint foldM {A S : Type} (step : S -> A -> result S) (l : list A) (s : S)
  : result S :=
  match l with
  | [] => Ok s
  | x :: r => s' <- step s x ;; foldM step r s'
  end.

Definition TypeError (what : string) : Error := mkError ("TypeError: " ++ what).
Definition RangeError (what : string) : Error := mkError ("RangeError: " ++ what).

(* ===================================================================== *)
(** ** Strings *)
(* ===================================================================== *)

Definition code (c : ascii) : N := N_of_ascii c.

Definition between (lo hi n : N) : bool := (lo <=? n)%N && (n <=? hi)%N.

(** WhiteSpace and LineTerminator code units below U+0100: TAB, LF, VT, FF,
    CR, SP and NBSP.  This is the class of [\s] and of [trim]. *)
Definition is_space (c : ascii) : bool :=
  let n := code c in between 9 13 n || (n =? 32)%N || (n =? 160)%N.

Definition is_digit (c : ascii) : bool := between 48 57 (code c).
Definition is_lower (c : ascii) : bool := between 97 122 (code c).
Definition is_upper (c : ascii) : bool := between 65 90 (code c).

(** [\w] without the unicode and ignoreCase flags: [A-Za-z0-9_]. *)
Definition is_word (c : ascii) : bool :=
  is_lower c || is_upper c || is_digit c || (code c =? 95)%N.

(** One code unit of [String.prototype.toLowerCase]: A-Z, and the capital
    letters U+00C0..U+00DE except the multiplication sign U+00D7. *)
Definition lower_char (c : ascii) : ascii :=
  let n := code c in
  if is_upper c || (between 192 222 n && negb (n =? 215)%N)
  then ascii_of_N (n + 32) else c.

Fixpoint toLowerCase (s : string) : string :=
  match s with
  | EmptyString => EmptyString
  | String c r => String (lower_char c) (toLowerCase r)
  end.

(** [String.prototype.toUpperCase], as a sequence of code points: below
    U+0100 three characters leave the range (sharp s becomes SS, the micro
    sign U+039C, y with diaeresis U+0178). *)
Definition upper_char (c : ascii) : list N :=
  let n := code c in
  if is_lower c || (between 224 254 n && negb (n =? 247)%N) then [(n - 32)%N]
  else if (n =? 223)%N then [83%N; 83%N]
  else if (n =? 181)%N then [924%N]
  else if (n =? 255)%N then [376%N]
  else [n].

Fixpoint toUpperCase (s : string) : list N :=
  match s with
  | EmptyString => []
  | String c r => upper_char c ++ toUpperCase r
  end.

Fixpoint trimStart (s : string) : string :=
  match s with
  | EmptyString => EmptyString
  | String c r => if is_space c then trimStart r else s
  end.

Fixpoint trimEnd (s : string) : string :=
  match s with
  | EmptyString => EmptyString
  | String c r =>
      match trimEnd r with
      | EmptyString => if is_space c then EmptyString else String c EmptyString
      | r' => String c r'
      end
  end.

Definition trim (s : string) : string := trimEnd (trimStart s).

(** [s.startsWith(p)] *)
Definition startsWith (s p : string) : bool := prefix p s.

(** [s.includes(sub)] *)
Fixpoint includes (s sub : string) : bool :=
  prefix sub s ||
  match s with
  | EmptyString => false
  | String _ r => includes r sub
  end.

(** [s.replace(/[cs]/g, '')] for a character class given as a predicate, and
    [s.replace(/[^cs]+/g, '')] with the complemented predicate. *)
Fixpoint remove_chars (p : ascii -> bool) (s : string) : string :=
  match s with
  | EmptyString => EmptyString
  | String c r => if p c then remove_chars p r else String c (remove_chars p r)
  end.

(** [s.replace(/\s+/g, rep)]: every maximal run of white space becomes one
    [rep]. *)
Fixpoint replace_space_runs (rep : string) (in_run : bool) (s : string) : string :=
  match s with
  | EmptyString => EmptyString
  | String c r =>
      if is_space c
      then (if in_run then replace_space_runs rep true r
            else rep ++ replace_space_runs rep true r)
      else String c (replace_space_runs rep false r)
  end.

(** [s.split(/\s+/)]: the pieces between maximal runs of white space; a run
    at either end leaves an empty piece there, and the empty string splits
    into one empty piece. *)
Fixpoint split_space_from (cur : string) (in_run : bool) (s : string) : list string :=
  match s with
  | EmptyString => [cur]
  | String c r =>
      if is_space c
      then (if in_run then split_space_from cur true r
            else cur :: split_space_from EmptyString true r)
      else split_space_from (cur ++ String c EmptyString) false r
  end.

Definition split_space (s : string) : list string :=
  split_space_from EmptyString false s.

Definition string_of_N (n : N) : string := NilZero.string_of_uint (N.to_uint n).

Definition string_of_Z (z : Z) : string :=
  match z with
  | Zneg p => "-" ++ string_of_N (Npos p)
  | _ => string_of_N (Z.to_N z)
  end.

(* ===================================================================== *)
(** ** Numbers *)
(* ===================================================================== *)

Inductive number : Type :=
| NaN
| Infinity (negative : bool)
| Finite (q : Q).

Definition num (z : Z) : number := Finite (inject_Z z).

Definition Qltb (p q : Q) : bool :=
  (Qnum p * QDen q <? Qnum q * QDen p)%Z.

(** [a < b] *)
Definition num_ltb (a b : number) : bool :=
  match a, b with
  | NaN, _ | _, NaN => false
  | Finite p, Finite q => Qltb p q
  | Finite _, Infinity neg => negb neg
  | Infinity neg, Finite _ => neg
  | Infinity n1, Infinity n2 => n1 && negb n2
  end.

(** [a > b] and [a <= b]; every comparison with NaN is false. *)
Definition num_gtb (a b : number) : bool := num_ltb b a.

Definition num_leb (a b : number) : bool :=
  match a, b with
  | NaN, _ | _, NaN => false
  | _, _ => negb (num_ltb b a)
  end.

(** ToBoolean of a number: NaN and zero are falsy. *)
Definition num_truthy (a : number) : bool :=
  match a with
  | NaN => false
  | Infinity _ => true
  | Finite q => negb (Qnum q =? 0)%Z
  end.

(** [a + b] *)
Definition num_add (a b : number) : number :=
  match a, b with
  | NaN, _ | _, NaN => NaN
  | Infinity n1, Infinity n2 => if Bool.eqb n1 n2 then Infinity n1 else NaN
  | Infinity n, Finite _ | Finite _, Infinity n => Infinity n
  | Finite p, Finite q => Finite (Qred (p + q)%Q)
  end.

Definition digit_of (c : ascii) : option N :=
  if is_digit c then Some (code c - 48)%N else None.

(** A maximal run of decimal digits read onto an accumulator: the value, the
    number of digits read, and what follows. *)
Fixpoint read_digits (s : string) (acc : N) (cnt : nat) : N * nat * string :=
  match s with
  | EmptyString => (acc, cnt, s)
  | String c r =>
      match digit_of c with
      | Some d => read_digits r (10 * acc + d)%N (S cnt)
      | None => (acc, cnt, s)
      end
  end.

Definition read_sign (s : string) : bool * string :=
  match s with
  | String "-" r => (true, r)
  | String "+" r => (false, r)
  | _ => (false, s)
  end.

(** The value [m * 10^e] *)
Definition decimal (neg : bool) (m : N) (e : Z) : Q :=
  let z := if neg then (- Z.of_N m)%Z else Z.of_N m in
  Qred (match e with
        | Zneg p => Qmake z (Pos.pow 10 p)
        | _ => inject_Z (z * 10 ^ e)
        end).

(** [parseFloat(s)]: leading white space is skipped, then the longest prefix
    that is a StrDecimalLiteral is read; NaN when there is none. *)
Definition parseFloat (input : string) : number :=
  let '(neg, s1) := read_sign (trimStart input) in
  if prefix "Infinity" s1 then Infinity neg else
  let '(ip, ic, s2) := read_digits s1 0%N 0%nat in
  let '(m, fc, s3) :=
    match s2 with
    | String "." r => read_digits r ip 0%nat
    | _ => (ip, 0%nat, s2)
    end in
  if (ic + fc =? 0)%nat then NaN else
  let e :=
    match s3 with
    | String c r =>
        if (code c =? 101)%N || (code c =? 69)%N then
          let '(eneg, r1) := read_sign r in
          let '(ev, ec, _) := read_digits r1 0%N 0%nat in
          if (ec =? 0)%nat then 0%Z
          else if eneg then (- Z.of_N ev)%Z else Z.of_N ev
        else 0%Z
    | EmptyString => 0%Z
    end in
  Finite (decimal neg m (e - Z.of_nat fc)).

(** [parseInt(s, 10)] *)
Definition parseInt (input : string) : number :=
  let '(neg, s1) := read_sign (trimStart input) in
  let '(v, cnt, _) := read_digits s1 0%N 0%nat in
  if (cnt =? 0)%nat then NaN else Finite (decimal neg v 0).

(** The digits of the fractional part [r / d] (with [r < d]) by long
    division. *)
Fixpoint fraction_digits (fuel : nat) (r d : N) : string :=
  match fuel with
  | O => EmptyString
  | S f =>
      if (r =? 0)%N then EmptyString
      else string_of_N (10 * r / d) ++ fraction_digits f ((10 * r) mod d)%N d
  end.

(** Number::toString in decimal notation (the exponent forms that
    JavaScript uses from 1e21 on and below 1e-6 are not produced). *)
Definition Number_toString (a : number) : string :=
  match a with
  | NaN => "NaN"
  | Infinity neg => if neg then "-Infinity" else "Infinity"
  | Finite q0 =>
      let q := Qred q0 in
      let n := Z.abs_N (Qnum q) in
      let d := Npos (Qden q) in
      let frac := fraction_digits (S (Pos.size_nat (Qden q))) (n mod d)%N d in
      (if (Qnum q <? 0)%Z then "-" else "") ++
      string_of_N (n / d) ++
      (match frac with EmptyString => "" | _ => "." ++ frac end)
  end.

(* ===================================================================== *)
(** ** Dictionaries, maps and sets *)
(* ===================================================================== *)

(** A plain object used as a dictionary: its own entries in [Object.keys]
    order. *)
Definition dict (V : Type) : Type := list (string * V).

(** An array index is a canonical numeric string below 2^32 - 1; such keys
    are enumerated first, in ascending order. *)
Definition array_index (k : string) : option N :=
  match k with
  | EmptyString => None
  | String c r =>
      let '(v, cnt, rest) := read_digits k 0%N 0%nat in
      match rest with
      | EmptyString =>
          if ((code c =? 48)%N && negb (cnt =? 1)%nat) then None
          else if (v <=? 4294967294)%N then Some v else None
      | _ => None
      end
  end.

Section Dict.
Context {V : Type}.

(** [d[k]] *)
Fixpoint dget (d : dict V) (k : string) : option V :=
  match d with
  | [] => None
  | (k', v) :: r => if String.eqb k' k then Some v else dget r k
  end.

Definition dhas (d : dict V) (k : string) : bool :=
  match dget d k with Some _ => true | None => false end.

(** Assignment to an existing key keeps its place. *)
Fixpoint dreplace (d : dict V) (k : string) (v : V) : dict V :=
  match d with
  | [] => []
  | (k', v') :: r =>
      if String.eqb k' k then (k', v) :: r else (k', v') :: dreplace r k v
  end.

(** A new array-index key goes before the first entry that is not a
    smaller array index. *)
Fixpoint dinsert_index (d : dict V) (n : N) (k : string) (v : V) : dict V :=
  match d with
  | [] => [(k, v)]
  | (k', v') :: r =>
      match array_index k' with
      | Some n' =>
          if (n' <? n)%N then (k', v') :: dinsert_index r n k v
          else (k, v) :: d
      | None => (k, v) :: d
      end
  end.

(** [d[k] = v] *)
Definition dset (d : dict V) (k : string) (v : V) : dict V :=
  if dhas d k then dreplace d k v
  else match array_index k with
       | Some n => dinsert_index d n k v
       | None => d ++ [(k, v)]
       end.

(** [delete d[k]] *)
Definition ddelete (d : dict V) (k : string) : dict V :=
  filter (fun e => negb (String.eqb (fst e) k)) d.

(** [Object.keys(d)], [Object.values(d)]; [Object.entries(d)] is [d]. *)
Definition keys (d : dict V) : list string := map fst d.
Definition values (d : dict V) : list V := map snd d.

(** A [Map] with string keys: entries in insertion order. *)
Definition Map : Type := list (string * V).

Definition map_get (m : Map) (k : string) : option V := dget m k.

(** [m.set(k, v)] *)
Definition map_set (m : Map) (k : string) (v : V) : Map :=
  if dhas m k then dreplace m k v else m ++ [(k, v)].
End Dict.

Arguments Map V : clear implicits.

(** The sum of a measure over the entries of a dictionary. *)
Definition dsum {V : Type} (m : V -> nat) (d : dict V) : nat :=
  list_sum (map (fun e => m (snd e)) d).

(** The lists held by the entries of a dictionary, one after the other. *)
Definition dflat {V A : Type} (f : V -> list A) (d : dict V) : list A :=
  flat_map (fun e => f (snd e)) d.

(** A [Set] of strings; only [add] and [has] are used on the sets that
    decide what is emitted. *)
Definition StrSet : Type := list string.

Definition set_has (s : StrSet) (k : string) : bool :=
  existsb (String.eqb k) s.

Definition set_add (s : StrSet) (k : string) : StrSet :=
  if set_has s k then s else s ++ [k].

(** [if (!m.has(k)) m.set(k, []); m.get(k).push(x)] *)
Definition map_push {A : Type} (m : Map (list A)) (k : string) (x : A)
  : Map (list A) :=
  match map_get m k with
  | Some l => map_set m k (l ++ [x])
  | None => map_set m k [x]
  end.

(* ===================================================================== *)
(** ** The data model (interfaces Grant, Foundation, Organization,
       CompleteDataset) *)
(* ===================================================================== *)

Record Grant := mkGrant {
  recipientEIN : string;
  recipientName : string;
  amount : number;
  year : number;
  recipientCity : option string;
  recipientState : option string;
  recipientZip : option string
}.

(** The [metadata] objects: every field may be absent. *)
Record Metadata := mkMetadata {
  address : option string;
  city : option string;
  state : option string;
  assets : option number;
  revenue : option number
}.

Record Foundation := mkFoundation {
  f_ein : string;
  f_name : string;
  grantsGiven : list Grant;
  f_metadata : option Metadata
}.

(** An entry of [Organization.grantsReceived]. *)
Record Received := mkReceived {
  funderEIN : string;
  funderName : string;
  r_amount : number;
  r_year : number
}.

Record Organization := mkOrganization {
  o_ein : string;
  o_name : string;
  grantsReceived : list Received;
  o_metadata : option Metadata
}.

Record DatasetMetadata := mkDatasetMetadata {
  foundationsProcessed : nat;
  totalGrants : nat;
  generatedAt : string
}.

Record CompleteDataset := mkDataset {
  foundations : dict Foundation;
  organizations : dict Organization;
  metadata : DatasetMetadata
}.

(* ===================================================================== *)
(** ** The filing parsers (processXmlFile, parseXML990File) *)
(* ===================================================================== *)

(** What xml2js builds for an element: a string for an element that holds
    text only, otherwise an object whose properties are the child element
    names, each holding the array of the children of that name.  (The
    attribute and text properties [$] and [_] of such an object are read by
    no accessor of the script and are left out.) *)
#[local] Unset Elimination Schemes.
Inductive xmlval : Type :=
| XStr (s : string)
| XObj (children : list (string * list xmlval)).
#[local] Set Elimination Schemes.

(** A value of type [any] read out of the tree: a node or [undefined]. *)
Definition any : Type := option xmlval.

(** [v.k] on a value that is not null or undefined, and [v?.k]: a string has
    none of the properties the script asks for. *)
Definition prop (v : any) (k : string) : option (list xmlval) :=
  match v with
  | Some (XObj kids) => dget kids k
  | _ => None
  end.

(** [a?.[0]] on an array or undefined *)
Definition first (a : option (list xmlval)) : any :=
  match a with
  | Some (x :: _) => Some x
  | _ => None
  end.

(** [v?.k?.[0]] *)
Definition child (v : any) (k : string) : any := first (prop v k).

(** ToBoolean: undefined and the empty string are falsy, every object is
    truthy. *)
Definition truthy (v : any) : bool :=
  match v with
  | None => false
  | Some (XStr EmptyString) => false
  | Some _ => true
  end.

(** [a || b] *)
Definition or_else (a b : any) : any := if truthy a then a else b.

(** ToString, as applied by template literals, [parseFloat] and [parseInt] *)
Definition ToString (v : any) : string :=
  match v with
  | None => "undefined"
  | Some (XStr s) => s
  | Some (XObj _) => "[object Object]"
  end.

(** The environment of one parser call: [fs.readFileSync(path, 'utf-8')] and
    [parseStringPromise(xml)], each of which may throw.  The parsed document
    is null for an empty document, otherwise an object with one property,
    the root element's name. *)
Record Env := mkEnv {
  readFileSync : string -> result string;
  parseStringPromise : string -> result (option (string * xmlval))
}.

(** [data.Return]: a TypeError on null. *)
Definition data_Return (data : option (string * xmlval)) : result any :=
  match data with
  | None => Throw (TypeError "Cannot read properties of null (reading 'Return')")
  | Some (rootName, elem) =>
      Ok (if String.eqb rootName "Return" then Some elem else None)
  end.

(** A grant as the grant-maker path pushes it; the fields read from the
    tree have type [any]. *)
Record ParsedGrant := mkParsedGrant {
  pg_recipientEIN : any;
  pg_recipientName : any;
  pg_amount : number;
  pg_year : number;
  pg_recipientCity : any;
  pg_recipientState : any;
  pg_recipientZip : any
}.

Record ParsedMetadata := mkParsedMetadata {
  pm_address : any;
  pm_city : any;
  pm_state : any;
  pm_assets : number;
  pm_revenue : number
}.

Record PFResult := mkPFResult {
  pf_funderEIN : any;
  pf_funderName : any;
  pf_grants : list ParsedGrant;
  pf_metadata : ParsedMetadata
}.

Record OrgResult := mkOrgResult {
  or_ein : any;
  or_name : any;
  or_metadata : ParsedMetadata
}.

Definition str (s : string) : any := Some (XStr s).

(** The body of the loop over [grantSections]: the grant pushed for one
    recipient entry, if any. *)
Definition parseRecipient (taxYear : number) (recipient : xmlval)
  : option ParsedGrant :=
  let r := Some recipient in
  let recipientName :=
    or_else (child (child r "RecipientBusinessName") "BusinessNameLine1Txt")
      (or_else (child r "RecipientPersonNm")
         (or_else (child r "RecipientOrganizationName") (str ""))) in
  let recipientEIN := or_else (child r "RecipientEIN") (str "") in
  let amount :=
    parseFloat (ToString
      (or_else (child r "Amt")
         (or_else (child r "Amount")
            (or_else (child r "CashGrantAmt") (str "0"))))) in
  let usAddress := child r "RecipientUSAddress" in
  let recipientCity := or_else (child usAddress "CityNm") (str "") in
  let recipientState := or_else (child usAddress "StateAbbreviationCd") (str "") in
  let recipientZip := or_else (child usAddress "ZIPCd") (str "") in
  if truthy recipientName && num_gtb amount (num 0)
  then Some (mkParsedGrant recipientEIN recipientName amount taxYear
               recipientCity recipientState recipientZip)
  else None.

(** [for (const recipient of grantSections) { ... grants.push(...) }] *)
Fixpoint parseGrantSections (taxYear : number) (grantSections : list xmlval)
  : list ParsedGrant :=
  match grantSections with
  | [] => []
  | recipient :: rest =>
      match parseRecipient taxYear recipient with
      | Some g => g :: parseGrantSections taxYear rest
      | None => parseGrantSections taxYear rest
      end
  end.

(** [a || b || c || []] on arrays: an array, even an empty one, is truthy. *)
Definition first_defined (l : list (option (list xmlval))) : list xmlval :=
  match find (fun a => match a with Some _ => true | None => false end) l with
  | Some (Some a) => a
  | _ => []
  end.

(** The [try] block of processXmlFile. *)
Definition processXmlFile_body (env : Env) (filePath : string) (year : Z)
  : result (option PFResult) :=
  xmlContent <- readFileSync env filePath ;;
  if negb (includes xmlContent "<IRS990PF") then Ok None else
  data <- parseStringPromise env xmlContent ;;
  ret <- data_Return data ;;
  let root := child ret "ReturnData" in
  let header := child ret "ReturnHeader" in
  if negb (truthy root) || negb (truthy header) then Ok None else
  match prop root "IRS990PF" with
  | None => Ok None
  | Some _ =>
      let filer := child header "Filer" in
      let funderEIN := child filer "EIN" in
      let funderName :=
        or_else (child (child filer "BusinessName") "BusinessNameLine1Txt")
          (str ("Foundation " ++ ToString funderEIN)) in
      let taxYear :=
        parseInt (ToString (or_else (child header "TaxYr")
                              (str (string_of_Z year)))) in
      let usAddress := child filer "USAddress" in
      let irs990pf := child root "IRS990PF" in
      let balanceSheet := child irs990pf "Form990PFBalanceSheetsGrp" in
      let revenueExpenses := child irs990pf "AnalysisOfRevenueAndExpenses" in
      let metadata :=
        mkParsedMetadata
          (child usAddress "AddressLine1Txt")
          (child usAddress "CityNm")
          (child usAddress "StateAbbreviationCd")
          (parseFloat (ToString
             (or_else (child balanceSheet "TotalAssetsEOYAmt")
                (or_else (child balanceSheet "TotalAssetsBOYAmt") (str "0")))))
          (parseFloat (ToString
             (or_else (child revenueExpenses "TotalRevAndExpnssAmt") (str "0")))) in
      let supplementaryInfo := child irs990pf "SupplementaryInformationGrp" in
      let grantSections :=
        first_defined
          [ prop supplementaryInfo "GrantOrContributionPdDurYrGrp";
            prop irs990pf "GrantOrContributionPdDurYrGrp";
            prop irs990pf "GrantOrContribPaidDuringYear" ] in
      let grants := parseGrantSections taxYear grantSections in
      Ok (Some (mkPFResult funderEIN funderName grants metadata))
  end.

(** processXmlFile: the body inside [try], the [catch] returning null. *)
Definition processXmlFile (env : Env) (filePath : string) (year : Z)
  : result (option PFResult) :=
  try_catch (processXmlFile_body env filePath year) (fun _ => Ok None).

Definition parseXML990File_body (env : Env) (filePath : string) (year : Z)
  : result (option OrgResult) :=
  xmlContent <- readFileSync env filePath ;;
  if negb (includes xmlContent "<IRS990") || includes xmlContent "<IRS990PF"
  then Ok None else
  data <- parseStringPromise env xmlContent ;;
  ret <- data_Return data ;;
  let root := child ret "ReturnData" in
  let header := child ret "ReturnHeader" in
  if negb (truthy root) || negb (truthy header) then Ok None else
  match prop root "IRS990" with
  | None => Ok None
  | Some _ =>
      let filer := child header "Filer" in
      let ein := child filer "EIN" in
      let name :=
        or_else (child (child filer "BusinessName") "BusinessNameLine1Txt")
          (or_else (child (child filer "BusinessName") "BusinessNameLine1")
             (str ("Organization " ++ ToString ein))) in
      let irs990 := child root "IRS990" in
      let usAddress :=
        or_else (child filer "USAddress")
                (child irs990 "PrincipalOfficeUSAddress") in
      let metadata :=
        mkParsedMetadata
          (or_else (child usAddress "AddressLine1Txt") (child usAddress "AddressLine1"))
          (or_else (child usAddress "CityNm") (child usAddress "City"))
          (or_else (child usAddress "StateAbbreviationCd") (child usAddress "State"))
          (parseFloat (ToString
             (or_else (child irs990 "TotalAssetsEOYAmt")
                (or_else (child (child irs990 "Form990PartVIISectionAGrp")
                            "TotalAssetsEOYAmt") (str "0")))))
          (parseFloat (ToString
             (or_else (child irs990 "CYTotalRevenueAmt")
                (or_else (child irs990 "TotalRevenueCurrentYearAmt") (str "0"))))) in
      Ok (Some (mkOrgResult ein name metadata))
  end.

Definition parseXML990File (env : Env) (filePath : string) (year : Z)
  : result (option OrgResult) :=
  try_catch (parseXML990File_body env filePath year) (fun _ => Ok None).

(* ===================================================================== *)
(** ** The archive extractor (extractZip) *)
(* ===================================================================== *)

(** [error.code] of a failed [execFile]: the exit status of the child, the
    name of the system error when it could not be spawned, or nothing. *)
Inductive ErrorCode : Type :=
| ExitStatus (n : Z)
| ErrnoName (s : string)
| NoCode.

Record ExecError := mkExecError {
  exec_code : ErrorCode;
  exec_message : string
}.

(** What the callback of [execFile('unzip', ...)] observes: the error (null
    on exit status 0), the captured stderr, and the destination directory as
    [fs.existsSync(dest)] and [fs.readdirSync(dest)] then see it. *)
Record UnzipRun := mkUnzipRun {
  run_error : option ExecError;
  run_stderr : string;
  dest_exists : bool;
  dest_entries : list string
}.

Definition newline : string := String (ascii_of_N 10) EmptyString.

(** extractZip: [Ok tt] is [resolve()], [Throw] is [reject(new Error(...))]. *)
Definition extractZip (run : UnzipRun) : result unit :=
  match run_error run with
  | Some error =>
      match exec_code error with
      | ExitStatus 1 | ExitStatus 3 =>
          if dest_exists run && (0 <? List.length (dest_entries run))%nat
          then Ok tt
          else Throw (mkError ("Unzip failed - no files extracted: " ++
                               exec_message error ++ newline ++ run_stderr run))
      | _ => Throw (mkError ("Unzip failed: " ++ exec_message error ++
                             newline ++ run_stderr run))
      end
  | None => Ok tt
  end.

(** Files were extracted: the destination exists and is not empty. *)
Definition files_extracted (run : UnzipRun) : Prop :=
  dest_exists run = true /\ dest_entries run <> [].

(* ===================================================================== *)
(** ** The curated grant list (loadHLFGrantsFromExcel) *)
(* ===================================================================== *)

(** A cell of a row object built by [sheet_to_json]: text or a number. *)
Inductive cell : Type :=
| CStr (s : string)
| CNum (n : number).

(** A row: column header to cell; an empty cell has no property. *)
Definition Row : Type := dict cell.

Definition cell_truthy (c : cell) : bool :=
  match c with
  | CStr EmptyString => false
  | CStr _ => true
  | CNum n => num_truthy n
  end.

(** [a || b] on cells that may be undefined, ending in [|| ''] *)
Definition cell_or (a : option cell) (b : cell) : cell :=
  match a with
  | Some c => if cell_truthy c then c else b
  | None => b
  end.

(** [String(c)] *)
Definition cell_String (c : cell) : string :=
  match c with
  | CStr s => s
  | CNum n => Number_toString n
  end.

(** [c === 'literal'] *)
Definition cell_is (c : cell) (lit : string) : bool :=
  match c with
  | CStr s => String.eqb s lit
  | CNum _ => false
  end.

Definition is_dollar_or_comma (c : ascii) : bool :=
  (code c =? 36)%N || (code c =? 44)%N.

(** [x || 0] on numbers *)
Definition num_or_zero (n : number) : number :=
  if num_truthy n then n else num 0.

(** [row[`${year} Amount`] || row['2025 Amount'] || ''] *)
Definition row_amount (year : Z) (row : Row) : cell :=
  cell_or (dget row (string_of_Z year ++ " Amount"))
    (cell_or (dget row "2025 Amount") (CStr "")).

(** [parseFloat((String(amount) || '0').replace(/[$,]/g, '')) || 0] *)
Definition parsedAmount (amount : cell) : number :=
  let text := match cell_String amount with
              | EmptyString => "0"
              | t => t
              end in
  num_or_zero (parseFloat (remove_chars is_dollar_or_comma text)).

(** [org.trim().split(/\s+/).length === 1] *)
Definition isSingleName (org : string) : bool :=
  (List.length (split_space (trim org)) =? 1)%nat.

(** The predicate given to [data.filter]: [Ok true] keeps the row.  A
    numeric Organization cell that reaches [org.trim()] is a TypeError. *)
Definition rowFilter (year : Z) (row : Row) : result bool :=
  let org := cell_or (dget row "Organization") (CStr "") in
  let amount := row_amount year row in
  if negb (cell_truthy org) || negb (cell_truthy amount) then Ok false else
  if cell_is org "Discretionary Grants" || cell_is org "Mini grants for Storytelling"
  then Ok false else
  let parsed := parsedAmount amount in
  match org with
  | CNum _ => Throw (TypeError "org.trim is not a function")
  | CStr name =>
      if isSingleName name && num_leb parsed (num 10000) then Ok false
      else Ok true
  end.

Record CuratedGrant := mkCuratedGrant {
  organization : string;
  c_amount : number;
  c_year : number
}.

(** The function given to [.map] after the filter; a row that passed the
    filter holds text in its Organization cell. *)
Definition rowToGrant (year : Z) (row : Row) : CuratedGrant :=
  mkCuratedGrant
    (match dget row "Organization" with Some (CStr s) => s | _ => "" end)
    (parsedAmount (row_amount year row))
    (num year).

(** [data.filter(...)] with a predicate that may throw *)
Fixpoint filterM {A : Type} (p : A -> result bool) (l : list A) : result (list A) :=
  match l with
  | [] => Ok []
  | x :: r =>
      keep <- p x ;;
      rest <- filterM p r ;;
      Ok (if keep then x :: rest else rest)
  end.

Definition sheetYearMap : list (string * Z) :=
  [ ("2020", 2020%Z); ("2021", 2021%Z); ("2022", 2022%Z);
    ("2023", 2023%Z); ("2024", 2024%Z); ("2025 DRAFT", 2025%Z) ].

(** loadHLFGrantsFromExcel over a workbook given as sheet name to rows. *)
Definition loadHLFGrantsFromExcel (workbook : dict (list Row))
  : result (list CuratedGrant) :=
  foldM (fun allGrants '(sheetName, year) =>
           match dget workbook sheetName with
           | None => Ok allGrants
           | Some data =>
               kept <- filterM (rowFilter year) data ;;
               Ok (allGrants ++ map (rowToGrant year) kept)
           end)
        sheetYearMap [].

(* ===================================================================== *)
(** ** Name normalization (normalizeOrgName) *)
(* ===================================================================== *)

Definition stopWords : list string :=
  [ "inc"; "incorporated"; "llc"; "ltd"; "limited"; "corp"; "corporation";
    "foundation"; "fund"; "trust"; "the"; "a"; "an" ].

Definition keep_word (w : string) : string :=
  if existsb (String.eqb w) stopWords then EmptyString else w.

(** [s.replace(/\b(inc|...|a|an)\b/g, '')]: between two word boundaries the
    alternation can only match a whole maximal run of word characters, so
    the runs that are stop words are removed.  [cur] is the run being read. *)
Fixpoint dropStopWords (cur : string) (s : string) : string :=
  match s with
  | EmptyString => keep_word cur
  | String c r =>
      if is_word c then dropStopWords (cur ++ String c EmptyString) r
      else keep_word cur ++ String c (dropStopWords EmptyString r)
  end.

Definition not_lower_alnum (c : ascii) : bool := negb (is_lower c || is_digit c).

Definition normalizeOrgName (name : string) : string :=
  trim (remove_chars not_lower_alnum (dropStopWords EmptyString (toLowerCase name))).

(* ===================================================================== *)
(** ** The dataset builder (buildBidirectionalDataset) *)
(* ===================================================================== *)

(** One element of [allGrantsData]; the funder EIN may be missing. *)
Record FunderRecord := mkFunderRecord {
  fr_funderEIN : option string;
  fr_funderName : string;
  fr_grants : list Grant;
  fr_metadata : option Metadata
}.

(** [!funderEIN] is false *)
Definition usable_funderEIN (r : FunderRecord) : option string :=
  match fr_funderEIN r with
  | Some EmptyString => None
  | other => other
  end.

Definition push_received (org : Organization) (e : Received) : Organization :=
  mkOrganization (o_ein org) (o_name org) (grantsReceived org ++ [e]) (o_metadata org).

Definition concat_given (f : Foundation) (grants : list Grant) : Foundation :=
  mkFoundation (f_ein f) (f_name f) (grantsGiven f ++ grants) (f_metadata f).

(** The organization key of a grant in the dataset builder. *)
Definition datasetRecipientKey (grant : Grant) : string :=
  let ein := recipientEIN grant in
  if String.eqb ein "" || startsWith ein "unknown_"
  then "no_ein_" ++ normalizeOrgName (recipientName grant)
  else ein.

(** The body of the inner loop: create the organization entry if it is not
    there, then push the received entry onto it. *)
Definition addReceived (funderEIN funderName : string)
    (orgs : dict Organization) (grant : Grant) : dict Organization :=
  let key := datasetRecipientKey grant in
  let org := match dget orgs key with
             | Some o => o
             | None => mkOrganization key (recipientName grant) [] None
             end in
  dset orgs key
    (push_received org (mkReceived funderEIN funderName (amount grant) (year grant))).

(** The loop state: foundations, organizations and the running total. *)
Definition BuilderState : Type := (dict Foundation * dict Organization * nat)%type.

(** The body of the outer loop. *)
Definition addFunderRecord (st : BuilderState) (r : FunderRecord) : BuilderState :=
  let '(fs, orgs, total) := st in
  match usable_funderEIN r with
  | None => st
  | Some funderEIN =>
      let f := match dget fs funderEIN with
               | Some f => f
               | None => mkFoundation funderEIN (fr_funderName r) [] (fr_metadata r)
               end in
      (dset fs funderEIN (concat_given f (fr_grants r)),
       fold_left (addReceived funderEIN (fr_funderName r)) (fr_grants r) orgs,
       (total + List.length (fr_grants r))%nat)
  end.

(** buildBidirectionalDataset; [now] is [new Date().toISOString()]. *)
Definition buildBidirectionalDataset (now : string) (allGrantsData : list FunderRecord)
  : CompleteDataset :=
  let '(fs, orgs, total) := fold_left addFunderRecord allGrantsData ([], [], 0%nat) in
  mkDataset fs orgs (mkDatasetMetadata (List.length (keys fs)) total now).

(** [sum(grantsGiven.length)] over the foundations and
    [sum(grantsReceived.length)] over the organizations. *)
Definition totalGiven (fs : dict Foundation) : nat :=
  dsum (fun f => List.length (grantsGiven f)) fs.

Definition totalReceived (orgs : dict Organization) : nat :=
  dsum (fun o => List.length (grantsReceived o)) orgs.

(** What one record adds to the grant count: its grants, or nothing when its
    funder EIN is missing or empty. *)
Definition contribution (r : FunderRecord) : nat :=
  match usable_funderEIN r with
  | Some _ => List.length (fr_grants r)
  | None => 0
  end.

(** Every received entry held by the organizations, in enumeration order. *)
Definition allReceived (orgs : dict Organization) : list Received :=
  dflat grantsReceived orgs.

(* ===================================================================== *)
(** ** Entity resolution (buildNameToEINIndex and the consolidation pass of
       main) *)
(* ===================================================================== *)

Definition buildNameToEINIndex (dataset : CompleteDataset) : Map (list string) :=
  fold_left (fun nameIndex e =>
               map_push nameIndex (normalizeOrgName (o_name (snd e))) (fst e))
            (organizations dataset) [].

Definition is_placeholder (k : string) : bool := startsWith k "no_ein_".

Definition extend_received (org : Organization) (more : list Received) : Organization :=
  mkOrganization (o_ein org) (o_name org) (grantsReceived org ++ more) (o_metadata org).

(** [target.push(...more)]: every element of [more] is an argument of the
    call, and a call with more arguments than the engine has room for throws
    a RangeError before anything is pushed.  The room is not fixed by the
    language; [argLimit] stands for it, the same for every round of a loop
    that runs at one depth of the call stack. *)
Definition push_spread (argLimit : nat) (org : Organization) (more : list Received)
  : result Organization :=
  if (argLimit <? List.length more)%nat
  then Throw (RangeError "Maximum call stack size exceeded")
  else Ok (extend_received org more).

(** The body of the loop over [placeholderKeys]. *)
Definition consolidateStep (argLimit : nat) (nameIndex : Map (list string))
    (orgs : dict Organization) (placeholderKey : string)
  : result (dict Organization) :=
  match dget orgs placeholderKey with
  | None => Throw (TypeError "Cannot read properties of undefined (reading 'name')")
  | Some org =>
      let normalizedName := normalizeOrgName (o_name org) in
      match map_get nameIndex normalizedName with
      | Some matches =>
          if (0 <? List.length matches)%nat then
            match find (fun ein => negb (startsWith ein "no_ein_")) matches with
            | Some realEIN =>
                if negb (String.eqb realEIN "") && negb (String.eqb realEIN placeholderKey)
                then
                  merged <-
                    match dget orgs realEIN with
                    | Some real =>
                        real' <- push_spread argLimit real (grantsReceived org) ;;
                        Ok (dreplace orgs realEIN real')
                    | None => Ok orgs
                    end ;;
                  Ok (ddelete merged placeholderKey)
                else Ok orgs
            | None => Ok orgs
            end
          else Ok orgs
      | None => Ok orgs
      end
  end.

(** The consolidation pass: lines 1236-1261 of main. *)
Definition consolidatePlaceholders (argLimit : nat) (dataset : CompleteDataset)
  : result CompleteDataset :=
  let nameIndex := buildNameToEINIndex dataset in
  let placeholderKeys := filter is_placeholder (keys (organizations dataset)) in
  orgs <- foldM (consolidateStep argLimit nameIndex) placeholderKeys
                (organizations dataset) ;;
  Ok (mkDataset (foundations dataset) orgs (metadata dataset)).

(** The real EIN that the consolidation loop picks for a placeholder
    organization: the first EIN listed under its normalized name that is not
    a placeholder key, unless that one is the empty string. *)
Definition realMatch (nameIndex : Map (list string)) (org : Organization)
  : option string :=
  match map_get nameIndex (normalizeOrgName (o_name org)) with
  | Some matches =>
      match find (fun ein => negb (startsWith ein "no_ein_")) matches with
      | Some realEIN => if String.eqb realEIN "" then None else Some realEIN
      | None => None
      end
  | None => None
  end.

(** The entries of the placeholder organization [org] go to the key [q]. *)
Definition goesTo (nameIndex : Map (list string)) (org : Organization) (q : string)
  : bool :=
  match realMatch nameIndex org with
  | Some realEIN => String.eqb realEIN q
  | None => false
  end.

(** The received entries that the placeholders [todo] of [orgs] hand over to
    the key [q], in the order of [todo]. *)
Definition movedFrom (nameIndex : Map (list string)) (orgs : dict Organization)
    (todo : list string) (q : string) : list Received :=
  flat_map (fun p => match dget orgs p with
                     | Some org => if goesTo nameIndex org q then grantsReceived org else []
                     | None => []
                     end) todo.

(* ===================================================================== *)
(** ** The network graph *)
(* ===================================================================== *)

Inductive NodeType : Type := funder | grantee.

(** ['hlf-grant'] and ['other-funder'] *)
Inductive LinkType : Type := hlf_grant | other_funder.

(** A node object; a property the literal does not set is [None]. *)
Record Node := mkNode {
  n_id : string;
  n_name : string;
  n_type : NodeType;
  central : option bool;
  n_amount : option number;
  n_metadata : option Metadata;
  n_grantsReceived : option (list Received);
  n_grantsGiven : option (list Grant)
}.

Record Link := mkLink {
  source : string;
  target : string;
  l_amount : number;
  l_type : LinkType;
  l_year : number
}.

Record Network := mkNetwork {
  nodes : list Node;
  links : list Link
}.

(** The three accumulators of a builder: [nodes], [links], [addedNodes]. *)
Record NetState := mkNetState {
  st_nodes : list Node;
  st_links : list Link;
  st_added : StrSet
}.

Definition push_node (st : NetState) (n : Node) : NetState :=
  mkNetState (st_nodes st ++ [n]) (st_links st) (set_add (st_added st) (n_id n)).

Definition push_links (st : NetState) (ls : list Link) : NetState :=
  mkNetState (st_nodes st) (st_links st ++ ls) (st_added st).

(** The body of the loop "add other funders": skip the entries of [skipEIN],
    add the funder node if its id is new, and push the funder link. *)
Definition addOtherFunder (dataset : CompleteDataset) (skipEIN granteeId : string)
    (st : NetState) (grant : Received) : NetState :=
  let funderEIN := funderEIN grant in
  if String.eqb funderEIN skipEIN then st else
  let st1 :=
    if set_has (st_added st) funderEIN then st
    else
      let funderData := dget (foundations dataset) funderEIN in
      push_node st
        (mkNode funderEIN (funderName grant) funder None None
           (match funderData with Some f => f_metadata f | None => None end)
           None
           (Some (match funderData with Some f => grantsGiven f | None => [] end))) in
  push_links st1
    [mkLink funderEIN granteeId (r_amount grant) other_funder (r_year grant)].

(** [grants.reduce((sum, g) => sum + g.amount, 0)] *)
Definition sum_amounts {A : Type} (amt : A -> number) (grants : list A) : number :=
  fold_left (fun sum g => num_add sum (amt g)) grants (num 0).

(* ===================================================================== *)
(** ** buildHLFNetwork *)
(* ===================================================================== *)

Definition HLF_EIN : string := "352338463".
Definition hlfId : string := "hlf".
Definition hlfName : string := "Hidden Leaf Foundation".

(** [{ amount, year }] *)
Record YearAmount := mkYearAmount {
  ya_amount : number;
  ya_year : number
}.

(** [name.toLowerCase().trim()] *)
Definition lowerTrim (s : string) : string := trim (toLowerCase s).

Definition groupByName (grants : list CuratedGrant) : Map (list YearAmount) :=
  fold_left (fun m g =>
               map_push m (lowerTrim (organization g))
                        (mkYearAmount (c_amount g) (c_year g)))
            grants [].

Definition granteeNames (grants : list CuratedGrant) : StrSet :=
  fold_left (fun s g => set_add s (lowerTrim (organization g))) grants [].

Definition foundInDataset (dataset : CompleteDataset) (normalizedName : string) : bool :=
  existsb (fun org => String.eqb (lowerTrim (o_name org)) normalizedName)
          (values (organizations dataset)).

Definition hlfReceived (g : YearAmount) : Received :=
  mkReceived hlfId hlfName (ya_amount g) (ya_year g).

Definition hlfLink (targetId : string) (g : YearAmount) : Link :=
  mkLink hlfId targetId (ya_amount g) hlf_grant (ya_year g).

(** The body of the loop over [unmatchedByOrg.entries()]. *)
Definition addUnmatchedGrantee (unmatchedGrantees : list CuratedGrant)
    (st : NetState) (e : string * list YearAmount) : result NetState :=
  let '(normalizedName, grants) := e in
  let granteeId := ("hlf_grantee_" ++ replace_space_runs "_" false normalizedName)%string in
  match find (fun g => String.eqb (lowerTrim (organization g)) normalizedName)
             unmatchedGrantees with
  | None => Throw (TypeError "Cannot read properties of undefined (reading 'organization')")
  | Some g =>
      let st1 :=
        push_node st
          (mkNode granteeId (organization g) grantee None
             (Some (sum_amounts ya_amount grants)) None
             (Some (map hlfReceived grants)) None) in
      Ok (push_links st1 (map (hlfLink granteeId) grants))
  end.

(** The body of the loop over [Object.entries(dataset.organizations)]. *)
Definition addMatchedGrantee (dataset : CompleteDataset)
    (names : StrSet) (byOrg : Map (list YearAmount))
    (st : NetState) (e : string * Organization) : NetState :=
  let '(orgEIN, org) := e in
  let normalizedName := lowerTrim (o_name org) in
  if set_has names normalizedName then
    let hlfGrants := match map_get byOrg normalizedName with
                     | Some l => l
                     | None => []
                     end in
    let st1 :=
      if set_has (st_added st) orgEIN then st
      else push_node st
             (mkNode orgEIN (o_name org) grantee None
                (Some (sum_amounts ya_amount hlfGrants)) (o_metadata org)
                (Some (map hlfReceived hlfGrants ++ grantsReceived org)) None) in
    let st2 := push_links st1 (map (hlfLink orgEIN) hlfGrants) in
    fold_left (addOtherFunder dataset HLF_EIN orgEIN) (grantsReceived org) st2
  else st.

Definition hlfCentralNode : Node :=
  mkNode hlfId hlfName funder (Some true) None None None None.

(** buildHLFNetwork, given the list that loadHLFGrantsFromExcel returned. *)
Definition buildHLFNetwork (allHLFGrantees : list CuratedGrant)
    (dataset : CompleteDataset) : result Network :=
  let hlfGrantsByOrg := groupByName allHLFGrantees in
  let hlfGranteeNames := granteeNames allHLFGrantees in
  let st0 := push_node (mkNetState [] [] []) hlfCentralNode in
  let unmatchedGrantees :=
    filter (fun g => negb (foundInDataset dataset (lowerTrim (organization g))))
           allHLFGrantees in
  let unmatchedByOrg := groupByName unmatchedGrantees in
  st1 <- foldM (addUnmatchedGrantee unmatchedGrantees) unmatchedByOrg st0 ;;
  let st2 := fold_left (addMatchedGrantee dataset hlfGranteeNames hlfGrantsByOrg)
                       (organizations dataset) st1 in
  Ok (mkNetwork (st_nodes st2) (st_links st2)).

(* ===================================================================== *)
(** ** buildCustomEINNetwork *)
(* ===================================================================== *)

(** [!ein || ein === '' || ein === 'unknown' || ein.startsWith('unknown_')] *)
Definition lacksUsableEIN (ein : string) : bool :=
  String.eqb ein "" || String.eqb ein "unknown" || startsWith ein "unknown_".

Definition str_truthy (s : option string) : bool :=
  match s with
  | Some EmptyString | None => false
  | Some _ => true
  end.

(** [a?.toUpperCase() === b.toUpperCase()] *)
Definition upper_equal (a : option string) (b : string) : bool :=
  match a with
  | Some x => if list_eq_dec N.eq_dec (toUpperCase x) (toUpperCase b) then true else false
  | None => false
  end.

(** The test of the disambiguation loop for one candidate: its organization
    has metadata whose city and state both match the grant's. *)
Definition addressMatch (dataset : CompleteDataset) (grantCity grantState : string)
    (candidateEIN : string) : bool :=
  match dget (organizations dataset) candidateEIN with
  | Some org =>
      match o_metadata org with
      | Some md => upper_equal (city md) grantCity && upper_equal (state md) grantState
      | None => false
      end
  | None => false
  end.

(** The recipient id that the [forEach] over [grantsGiven] computes for one
    grant. *)
Definition resolveRecipient (dataset : CompleteDataset)
    (nameIndex : Map (list string)) (grant : Grant) : string :=
  let ein := recipientEIN grant in
  if lacksUsableEIN ein then
    let normalizedName := normalizeOrgName (recipientName grant) in
    match map_get nameIndex normalizedName with
    | Some [single] => single
    | Some ((firstMatch :: _ :: _) as matches) =>
        match recipientCity grant, recipientState grant with
        | Some gc, Some gs =>
            if str_truthy (Some gc) && str_truthy (Some gs) then
              match find (addressMatch dataset gc gs) matches with
              | Some candidateEIN => candidateEIN
              | None => firstMatch
              end
            else firstMatch
        | _, _ => firstMatch
        end
    | _ => ("no_ein_" ++ normalizedName)%string
    end
  else ein.

(** [grantsByRecipient] after the [forEach]. *)
Definition groupByRecipient (dataset : CompleteDataset)
    (nameIndex : Map (list string)) (grantsGiven : list Grant) : Map (list Grant) :=
  fold_left (fun m grant => map_push m (resolveRecipient dataset nameIndex grant) grant)
            grantsGiven [].

Definition centralLink (centralId recipientEIN : string) (grant : Grant) : Link :=
  mkLink centralId recipientEIN (amount grant) hlf_grant (year grant).

(** The body of the loop over [grantsByRecipient.entries()]. *)
Definition addGrantee (dataset : CompleteDataset) (centralEIN centralName : string)
    (st : NetState) (e : string * list Grant) : result NetState :=
  let '(recipientEIN, grants) := e in
  let recipientOrg := dget (organizations dataset) recipientEIN in
  st1 <-
    (if set_has (st_added st) recipientEIN then Ok st
     else
       name <-
         match recipientOrg with
         | Some org =>
             match o_name org, grants with
             | EmptyString, [] =>
                 Throw (TypeError "Cannot read properties of undefined (reading 'recipientName')")
             | EmptyString, firstGrant :: _ => Ok (recipientName firstGrant)
             | orgName, _ => Ok orgName
             end
         | None =>
             match grants with
             | [] => Throw (TypeError "Cannot read properties of undefined (reading 'recipientName')")
             | firstGrant :: _ => Ok (recipientName firstGrant)
             end
         end ;;
       Ok (push_node st
             (mkNode recipientEIN name grantee None
                (Some (sum_amounts amount grants))
                (match recipientOrg with Some org => o_metadata org | None => None end)
                (Some (match recipientOrg with
                       | Some org => grantsReceived org
                       | None =>
                           map (fun g => mkReceived centralEIN centralName
                                           (amount g) (year g)) grants
                       end))
                None))) ;;
  let st2 := push_links st1 (map (centralLink centralEIN recipientEIN) grants) in
  Ok (match recipientOrg with
      | Some org =>
          fold_left (addOtherFunder dataset centralEIN recipientEIN)
                    (grantsReceived org) st2
      | None => st2
      end).

Definition buildCustomEINNetwork (dataset : CompleteDataset) (centralEIN : string)
  : result Network :=
  match dget (foundations dataset) centralEIN with
  | None => Throw (mkError ("Foundation with EIN " ++ centralEIN ++ " not found in dataset"))
  | Some centralFoundation =>
      let nameIndex := buildNameToEINIndex dataset in
      let st0 :=
        push_node (mkNetState [] [] [])
          (mkNode centralEIN (f_name centralFoundation) funder (Some true) None
             (f_metadata centralFoundation) None None) in
      let grantsByRecipient :=
        groupByRecipient dataset nameIndex (grantsGiven centralFoundation) in
      st <- foldM (addGrantee dataset centralEIN (f_name centralFoundation))
                  grantsByRecipient st0 ;;
      Ok (mkNetwork (st_nodes st) (st_links st))
  end.

(* ===================================================================== *)
(** ** JSON text (JSON.stringify, JSON.parse) and streamDatasetToFile *)
(* ===================================================================== *)

Definition dquote : string := String (ascii_of_N 34) EmptyString.
Definition backslash : string := String (ascii_of_N 92) EmptyString.

Definition hex_digit (n : N) : string :=
  String (ascii_of_N (if (n <? 10)%N then 48 + n else 87 + n)) EmptyString.

(** One code unit inside a JSON string literal, as QuoteJSONString writes
    it. *)
Definition quote_char (c : ascii) : string :=
  let n := code c in
  if (n =? 34)%N then backslash ++ dquote
  else if (n =? 92)%N then backslash ++ backslash
  else if (n =? 8)%N then backslash ++ "b"
  else if (n =? 9)%N then backslash ++ "t"
  else if (n =? 10)%N then backslash ++ "n"
  else if (n =? 12)%N then backslash ++ "f"
  else if (n =? 13)%N then backslash ++ "r"
  else if (n <? 32)%N then backslash ++ "u00" ++ hex_digit (n / 16) ++ hex_digit (n mod 16)
  else String c EmptyString.

Fixpoint quote_chars (s : string) : string :=
  match s with
  | EmptyString => EmptyString
  | String c r => quote_char c ++ quote_chars r
  end.

(** [JSON.stringify(s)] for a string *)
Definition json_string (s : string) : string := dquote ++ quote_chars s ++ dquote.

(** [JSON.stringify(n)] for a number: NaN and the infinities give null. *)
Definition json_number (n : number) : string :=
  match n with
  | Finite _ => Number_toString n
  | _ => "null"
  end.

Fixpoint join (sep : string) (l : list string) : string :=
  match l with
  | [] => EmptyString
  | [x] => x
  | x :: r => x ++ sep ++ join sep r
  end.

Definition json_array (items : list string) : string := "[" ++ join "," items ++ "]".

(** A property: its name and serialized value, or nothing when the value is
    undefined (JSON.stringify leaves such a property out). *)
Definition field {A : Type} (name : string) (show : A -> string) (v : option A)
  : list string :=
  match v with
  | Some x => [(json_string name ++ ":" ++ show x)%string]
  | None => []
  end.

Definition json_object (fields : list (list string)) : string :=
  "{" ++ join "," (List.concat fields) ++ "}".

Definition stringify_Grant (g : Grant) : string :=
  json_object
    [ field "recipientEIN" json_string (Some (recipientEIN g));
      field "recipientName" json_string (Some (recipientName g));
      field "amount" json_number (Some (amount g));
      field "year" json_number (Some (year g));
      field "recipientCity" json_string (recipientCity g);
      field "recipientState" json_string (recipientState g);
      field "recipientZip" json_string (recipientZip g) ].

Definition stringify_Metadata (m : Metadata) : string :=
  json_object
    [ field "address" json_string (address m);
      field "city" json_string (city m);
      field "state" json_string (state m);
      field "assets" json_number (assets m);
      field "revenue" json_number (revenue m) ].

Definition stringify_Foundation (f : Foundation) : string :=
  json_object
    [ field "ein" json_string (Some (f_ein f));
      field "name" json_string (Some (f_name f));
      field "grantsGiven" (fun l => json_array (map stringify_Grant l))
            (Some (grantsGiven f));
      field "metadata" stringify_Metadata (f_metadata f) ].

Definition stringify_Received (r : Received) : string :=
  json_object
    [ field "funderEIN" json_string (Some (funderEIN r));
      field "funderName" json_string (Some (funderName r));
      field "amount" json_number (Some (r_amount r));
      field "year" json_number (Some (r_year r)) ].

Definition stringify_Organization (o : Organization) : string :=
  json_object
    [ field "ein" json_string (Some (o_ein o));
      field "name" json_string (Some (o_name o));
      field "grantsReceived" (fun l => json_array (map stringify_Received l))
            (Some (grantsReceived o));
      field "metadata" stringify_Metadata (o_metadata o) ].

Definition stringify_DatasetMetadata (m : DatasetMetadata) : string :=
  json_object
    [ field "foundationsProcessed" string_of_N (Some (N.of_nat (foundationsProcessed m)));
      field "totalGrants" string_of_N (Some (N.of_nat (totalGrants m)));
      field "generatedAt" json_string (Some (generatedAt m)) ].

(** The chunks written by one [keys.forEach((key, index) => stream.write(...))]:
    the key between two quote characters as the template literal puts it,
    then the serialized entry, a comma except after the last key, and a
    newline. *)
Fixpoint entryChunks {V : Type} (show : V -> string) (d : dict V) : list string :=
  match d with
  | [] => []
  | (key, v) :: rest =>
      (dquote ++ key ++ dquote ++ ": " ++ show v ++
       (match rest with [] => EmptyString | _ => "," end) ++ newline)%string
      :: entryChunks show rest
  end.

(** streamDatasetToFile: the chunks passed to [stream.write], in order. *)
Definition streamDatasetToFile (dataset : CompleteDataset) : list string :=
  [ ("{" ++ newline)%string;
    (dquote ++ "foundations" ++ dquote ++ ": {" ++ newline)%string ]
  ++ entryChunks stringify_Foundation (foundations dataset)
  ++ [ ("}," ++ newline)%string;
       (dquote ++ "organizations" ++ dquote ++ ": {" ++ newline)%string ]
  ++ entryChunks stringify_Organization (organizations dataset)
  ++ [ ("}," ++ newline)%string;
       (dquote ++ "metadata" ++ dquote ++ ": " ++
          stringify_DatasetMetadata (metadata dataset) ++ newline)%string;
       ("}" ++ newline)%string ].

(** The text of the file: the chunks one after the other. *)
Definition written (chunks : list string) : string :=
  fold_right String.append EmptyString chunks.

#[local] Unset Elimination Schemes.
Inductive json : Type :=
| JNull
| JBool (b : bool)
| JNum (n : number)
| JStr (s : string)
| JArr (items : list json)
| JObj (members : list (string * json)).
#[local] Set Elimination Schemes.

(** JSON white space: space, tab, line feed, carriage return. *)
Definition is_json_space (c : ascii) : bool :=
  let n := code c in (n =? 32)%N || (n =? 9)%N || (n =? 10)%N || (n =? 13)%N.

Fixpoint skip_ws (s : string) : string :=
  match s with
  | EmptyString => EmptyString
  | String c r => if is_json_space c then skip_ws r else s
  end.

Definition hex_value (c : ascii) : option N :=
  let n := code c in
  if between 48 57 n then Some (n - 48)%N
  else if between 97 102 n then Some (n - 87)%N
  else if between 65 70 n then Some (n - 55)%N
  else None.

(** The character of a two-character escape. *)
Definition simple_escape (c : ascii) : option ascii :=
  let n := code c in
  if (n =? 34)%N || (n =? 92)%N || (n =? 47)%N then Some c
  else if (n =? 98)%N then Some (ascii_of_N 8)
  else if (n =? 116)%N then Some (ascii_of_N 9)
  else if (n =? 110)%N then Some (ascii_of_N 10)
  else if (n =? 102)%N then Some (ascii_of_N 12)
  else if (n =? 114)%N then Some (ascii_of_N 13)
  else None.

(** The rest of a string literal after its opening quote: the characters up
    to the closing quote, and what follows it.  A raw control character, a
    bad escape or the end of the text is an error; so is a [\u] escape of a
    code unit from U+0100 on, which a [string] cannot hold. *)
Fixpoint parse_chars (s : string) (acc : string) : option (string * string) :=
  match s with
  | EmptyString => None
  | String c r =>
      let n := code c in
      if (n =? 34)%N then Some (acc, r)
      else if (n =? 92)%N then
        match r with
        | EmptyString => None
        | String e r1 =>
            match simple_escape e with
            | Some ch => parse_chars r1 (acc ++ String ch EmptyString)
            | None =>
                if (code e =? 117)%N then
                  match r1 with
                  | String h1 (String h2 (String h3 (String h4 r2))) =>
                      match hex_value h1, hex_value h2, hex_value h3, hex_value h4 with
                      | Some 0%N, Some 0%N, Some a, Some b =>
                          parse_chars r2
                            (acc ++ String (ascii_of_N (16 * a + b)) EmptyString)
                      | _, _, _, _ => None
                      end
                  | _ => None
                  end
                else None
            end
        end
      else if (n <? 32)%N then None
      else parse_chars r (acc ++ String c EmptyString)
  end.

(** A JSON number: an optional minus sign; a zero, or digits that do not
    start with a zero; optionally a point and digits; optionally an exponent
    mark, a sign and digits. *)
Definition parse_number (s : string) : option (number * string) :=
  let '(neg, s1) := match s with
                    | String "-" r => (true, r)
                    | _ => (false, s)
                    end in
  let '(ip, ic, s2) :=
    match s1 with
    | String "0" r => (0%N, 1%nat, r)
    | _ => read_digits s1 0%N 0%nat
    end in
  if (ic =? 0)%nat then None else
  let frac :=
    match s2 with
    | String "." r =>
        let '(m, fc, s3) := read_digits r ip 0%nat in
        if (fc =? 0)%nat then None else Some (m, fc, s3)
    | _ => Some (ip, 0%nat, s2)
    end in
  match frac with
  | None => None
  | Some (m, fc, s3) =>
      let expo :=
        match s3 with
        | String c r =>
            if (code c =? 101)%N || (code c =? 69)%N then
              let '(eneg, r1) := read_sign r in
              let '(ev, ec, s4) := read_digits r1 0%N 0%nat in
              if (ec =? 0)%nat then None
              else Some (if eneg then (- Z.of_N ev)%Z else Z.of_N ev, s4)
            else Some (0%Z, s3)
        | EmptyString => Some (0%Z, s3)
        end in
      match expo with
      | None => None
      | Some (e, rest) => Some (Finite (decimal neg m (e - Z.of_nat fc)), rest)
      end
  end.

Fixpoint strip_prefix (p s : string) : option string :=
  match p, s with
  | EmptyString, _ => Some s
  | String a p', String b s' => if Ascii.eqb a b then strip_prefix p' s' else None
  | _, _ => None
  end.

(** A value at the head of the text and what follows it.  [fuel] bounds the
    nesting; the length of the text is always enough. *)
Fixpoint parse_value (fuel : nat) (s : string) : option (json * string) :=
  match fuel with
  | O => None
  | S f =>
      match skip_ws s with
      | EmptyString => None
      | String c r as s0 =>
          let n := code c in
          if (n =? 123)%N then
            match skip_ws r with
            | String c1 r1 as body =>
                if (code c1 =? 125)%N then Some (JObj [], r1)
                else parse_members f body []
            | EmptyString => None
            end
          else if (n =? 91)%N then
            match skip_ws r with
            | String c1 r1 as body =>
                if (code c1 =? 93)%N then Some (JArr [], r1)
                else parse_elements f body []
            | EmptyString => None
            end
          else if (n =? 34)%N then
            match parse_chars r EmptyString with
            | Some (str, rest) => Some (JStr str, rest)
            | None => None
            end
          else
            match strip_prefix "true" s0, strip_prefix "false" s0, strip_prefix "null" s0 with
            | Some rest, _, _ => Some (JBool true, rest)
            | _, Some rest, _ => Some (JBool false, rest)
            | _, _, Some rest => Some (JNull, rest)
            | _, _, _ =>
                match parse_number s0 with
                | Some (v, rest) => Some (JNum v, rest)
                | None => None
                end
            end
      end
  end
with parse_members (fuel : nat) (s : string) (acc : list (string * json))
  : option (json * string) :=
  match fuel with
  | O => None
  | S f =>
      match skip_ws s with
      | String c r =>
          if (code c =? 34)%N then
            match parse_chars r EmptyString with
            | Some (key, r1) =>
                match skip_ws r1 with
                | String c2 r2 =>
                    if (code c2 =? 58)%N then
                      match parse_value f r2 with
                      | Some (v, r3) =>
                          match skip_ws r3 with
                          | String c3 r4 =>
                              if (code c3 =? 44)%N
                              then parse_members f r4 (acc ++ [(key, v)])
                              else if (code c3 =? 125)%N
                              then Some (JObj (acc ++ [(key, v)]), r4)
                              else None
                          | EmptyString => None
                          end
                      | None => None
                      end
                    else None
                | EmptyString => None
                end
            | None => None
            end
          else None
      | EmptyString => None
      end
  end
with parse_elements (fuel : nat) (s : string) (acc : list json)
  : option (json * string) :=
  match fuel with
  | O => None
  | S f =>
      match parse_value f s with
      | Some (v, r1) =>
          match skip_ws r1 with
          | String c r2 =>
              if (code c =? 44)%N then parse_elements f r2 (acc ++ [v])
              else if (code c =? 93)%N then Some (JArr (acc ++ [v]), r2)
              else None
          | EmptyString => None
          end
      | None => None
      end
  end.

(** [JSON.parse(text)]: one value, with nothing but white space after it;
    [None] is a SyntaxError.  The members of an object are kept in the order
    of the text. *)
Definition JSON_parse (text : string) : option json :=
  match parse_value (S (String.length text)) text with
  | Some (v, rest) =>
      match skip_ws rest with
      | EmptyString => Some v
      | _ => None
      end
  | None => None
  end.

(* ===================================================================== *)
(** ** Shape of a network *)
(* ===================================================================== *)

(** Some link of [ls] goes from [a] to [b]. *)
Definition linked (ls : list Link) (a b : string) : Prop :=
  exists l, In l ls /\ source l = a /\ target l = b.

(** What places a node in the two layers around the central id [c]: a
    grantee node is the target of a link from [c]; a funder node has a link
    to the id [g] of a node that is itself the target of a link from [c]. *)
Definition justified (c : string) (ns : list Node) (ls : list Link) (n : Node) : Prop :=
  match n_type n with
  | grantee => linked ls c (n_id n)
  | funder => exists g, In g (map n_id ns) /\ linked ls (n_id n) g /\ linked ls c g
  end.

(** One hop follows a link in either direction. *)
Definition hop (ls : list Link) (a b : string) : Prop := linked ls a b \/ linked ls b a.

Definition within_two_hops (ls : list Link) (c x : string) : Prop :=
  hop ls c x \/ exists y, hop ls c y /\ hop ls y x.

Definition is_central (n : Node) : bool :=
  match central n with
  | Some true => true
  | _ => false
  end.

(** The id of the node emitted first. *)
Definition centralId (net : Network) : string :=
  match nodes net with
  | c :: _ => n_id c
  | [] => EmptyString
  end.

(** A network produced by one of the two builders. *)
Definition produced (net : Network) : Prop :=
  (exists allHLFGrantees dataset, buildHLFNetwork allHLFGrantees dataset = Ok net) \/
  (exists dataset centralEIN, buildCustomEINNetwork dataset centralEIN = Ok net).

(** [addedNodes] holds exactly the ids of the nodes pushed so far. *)
Definition added_ok (st : NetState) : Prop :=
  forall k, set_has (st_added st) k = true <-> In k (map n_id (st_nodes st)).

(** [st'] comes from [st] by pushing nodes and links, and every node pushed
    is not central and has its place in the two layers of [st']. *)
Definition extends (c : string) (st st' : NetState) : Prop :=
  exists moreNodes moreLinks,
    st_nodes st' = st_nodes st ++ moreNodes /\
    st_links st' = st_links st ++ moreLinks /\
    Forall (fun n => central n = None /\
                     justified c (st_nodes st') (st_links st') n) moreNodes.

(** The elements of the groups of a [Map], each with the key of its group. *)
Definition gflat {A : Type} (m : Map (list A)) : list (string * A) :=
  flat_map (fun e => map (pair (fst e)) (snd e)) m.

(** The links of type hlf-grant: those pushed for the grants of the central
    foundation. *)
Definition is_central_link (l : Link) : bool :=
  match l_type l with
  | hlf_grant => true
  | other_funder => false
  end.

Definition centralLinks (ls : list Link) : list Link := filter is_central_link ls.

(** The invariant of the loop over the other funders of the grantee
    [granteeId]: the grantee is a node and already has its central link. *)
Definition funders_ready (c granteeId : string) (st : NetState) : Prop :=
  added_ok st /\
  In granteeId (map n_id (st_nodes st)) /\
  linked (st_links st) c granteeId.

(* ===================================================================== *)
(** ** The rest of main: the per-file task, the batches, the directory
       search and the merge of the Form 990 organizations *)
(* ===================================================================== *)

(** Every character of a string passes a test. *)
Fixpoint string_forall (p : ascii -> bool) (s : string) : bool :=
  match s with
  | EmptyString => true
  | String c r => p c && string_forall p r
  end.

Definition is_lower_alnum (c : ascii) : bool := is_lower c || is_digit c.

(** The records of the funder [k], in input order. *)
Definition recordsOf (k : string) (records : list FunderRecord) : list FunderRecord :=
  filter (fun r => match usable_funderEIN r with
                   | Some e => String.eqb e k
                   | None => false
                   end) records.

(** The received entry that a grant of the funder produces. *)
Definition toReceived (funderEIN funderName : string) (g : Grant) : Received :=
  mkReceived funderEIN funderName (amount g) (year g).

(** Every grant of the records that have a funder EIN, in input order, each
    with the received entry it produces. *)
Definition grantEvents (records : list FunderRecord) : list (Grant * Received) :=
  flat_map (fun r => match usable_funderEIN r with
                     | Some fe => map (fun g => (g, toReceived fe (fr_funderName r) g))
                                      (fr_grants r)
                     | None => []
                     end) records.

(** The events whose organization key is [k]. *)
Definition eventsOf (k : string) (events : list (Grant * Received))
  : list (Grant * Received) :=
  filter (fun p => String.eqb (datasetRecipientKey (fst p)) k) events.

(** The organization entry under [k] after some events for [k] on top of the
    entry [old]. *)
Definition absorb (k : string) (old : option Organization)
    (events : list (Grant * Received)) : option Organization :=
  match old, events with
  | Some o, _ => Some (extend_received o (map snd events))
  | None, [] => None
  | None, (g0, _) :: _ => Some (mkOrganization k (recipientName g0) (map snd events) None)
  end.

(** The foundation entry under [k] after some records of [k] on top of the
    entry [old]. *)
Definition absorbRecords (k : string) (old : option Foundation)
    (records : list FunderRecord) : option Foundation :=
  match old, records with
  | Some f, _ => Some (concat_given f (flat_map fr_grants records))
  | None, [] => None
  | None, r0 :: _ =>
      Some (mkFoundation k (fr_funderName r0) (flat_map fr_grants records) (fr_metadata r0))
  end.

(** The ids of the nodes pushed so far. *)
Definition node_ids (st : NetState) : list string := map n_id (st_nodes st).

(** A link fits a set of node ids: both its ends are among them, a link of
    type hlf-grant leaves from [c], and a link of type other-funder does not
    leave from [skip]. *)
Definition link_ok (c skip : string) (ids : list string) (l : Link) : Prop :=
  In (source l) ids /\ In (target l) ids /\
  match l_type l with
  | hlf_grant => source l = c
  | other_funder => source l <> skip
  end.

(** The invariant of both builders: [addedNodes] is in step with [nodes],
    the node pushed first has the id [c], and every link fits the nodes. *)
Definition state_ok (c skip : string) (st : NetState) : Prop :=
  added_ok st /\
  (exists rest, node_ids st = c :: rest) /\
  Forall (link_ok c skip (node_ids st)) (st_links st).

Definition PROCESS_990 : bool := true.
Definition BATCH_SIZE : nat := 2000.

(** [{ type: 'pf', data }] or [{ type: 'org', data }] *)
Inductive BatchResult : Type :=
| PF (data : PFResult)
| ORG (data : OrgResult).

(** The task given to [limit(...)] for one file: try the file as a 990-PF;
    a 990-PF without grants yields nothing and is not tried as a 990. *)
Definition parseOneFile (env : Env) (xmlPath : string) (year : Z)
  : result (option BatchResult) :=
  pfResult <- processXmlFile env xmlPath year ;;
  match pfResult with
  | Some r =>
      if (0 <? List.length (pf_grants r))%nat then Ok (Some (PF r)) else Ok None
  | None =>
      if PROCESS_990 then
        orgResult <- parseXML990File env xmlPath year ;;
        match orgResult with
        | Some o => Ok (Some (ORG o))
        | None => Ok None
        end
      else Ok None
  end.

(** [l.slice(a, b)] for [0 <= a] *)
Definition slice {A : Type} (l : list A) (a b : nat) : list A :=
  firstn (b - a) (skipn a l).

(** The loop [for (batchStart = 0; batchStart < n; batchStart += batchSize)]
    collecting [allXmlFiles.slice(batchStart, batchEnd)]; [fuel] bounds the
    number of rounds. *)
Fixpoint batchLoop {A : Type} (fuel batchSize : nat) (allXmlFiles : list A)
    (batchStart : nat) : list (list A) :=
  match fuel with
  | O => []
  | S f =>
      if (batchStart <? List.length allXmlFiles)%nat then
        let batchEnd := Nat.min (batchStart + batchSize) (List.length allXmlFiles) in
        slice allXmlFiles batchStart batchEnd
        :: batchLoop f batchSize allXmlFiles (batchStart + batchSize)
      else []
  end.

(** The batches of one month; every round moves on by [BATCH_SIZE] files, so
    as many rounds as there are files is enough. *)
Definition batches {A : Type} (allXmlFiles : list A) : list (list A) :=
  batchLoop (List.length allXmlFiles) BATCH_SIZE allXmlFiles 0.

(** [s.endsWith(suffix)] *)
Fixpoint endsWith (s suffix : string) : bool :=
  String.eqb s suffix ||
  match s with
  | EmptyString => false
  | String _ r => endsWith r suffix
  end.

(** What the directory search sees of the disk: [fs.existsSync],
    [fs.readdirSync] and [fs.statSync(p).isDirectory()]. *)
Record Disk := mkDisk {
  existsSync : string -> bool;
  readdirSync : string -> list string;
  isDirectory : string -> bool
}.

(** [path.join(a, b)] for a directory and an entry name *)
Definition path_join (a b : string) : string := a ++ "/" ++ b.

Definition isXml (f : string) : bool := endsWith f ".xml".

(** The search for the directory that holds the documents, after
    extraction: lines 1028-1069 of main. *)
Definition locateXmlDir (disk : Disk) (extractedSubdir zipFileName : string)
  : result string :=
  let nestedDir := path_join extractedSubdir zipFileName in
  if existsSync disk nestedDir then Ok nestedDir
  else if existsSync disk extractedSubdir then
    let filesInExtracted := readdirSync disk extractedSubdir in
    let xmlFilesInExtracted := filter isXml filesInExtracted in
    if (0 <? List.length xmlFilesInExtracted)%nat then Ok extractedSubdir
    else
      let subdirs :=
        filter (fun f => isDirectory disk (path_join extractedSubdir f))
               filesInExtracted in
      if (0 <? List.length subdirs)%nat then
        match find (fun subdir =>
                      existsb isXml (readdirSync disk (path_join extractedSubdir subdir)))
                   subdirs with
        | Some subdirWithXml => Ok (path_join extractedSubdir subdirWithXml)
        | None =>
            Throw (mkError ("Extraction failed - no XML files found in " ++
                            extractedSubdir ++ " or subdirectories"))
        end
      else Throw (mkError ("Extraction failed - no XML files or subdirectories found in "
                           ++ extractedSubdir))
  else Throw (mkError ("Extraction failed - directory not found: " ++ extractedSubdir)).

(** One element of [allOrgData]: what parseXML990File returned for a filing,
    after its round through the monthly cache. *)
Record OrgData := mkOrgData {
  od_ein : option string;
  od_name : string;
  od_metadata : option Metadata
}.

Definition usable_orgEIN (org : OrgData) : option string :=
  match od_ein org with
  | Some EmptyString => None
  | other => other
  end.

Definition with_metadata (o : Organization) (md : option Metadata) : Organization :=
  mkOrganization (o_ein o) (o_name o) (grantsReceived o) md.

(** The body of the loop over [allOrgData]: a new organization is added with
    no grants; an existing one gets the metadata if it has none. *)
Definition mergeOrg (orgs : dict Organization) (org : OrgData) : dict Organization :=
  match usable_orgEIN org with
  | None => orgs
  | Some ein =>
      match dget orgs ein with
      | None => dset orgs ein (mkOrganization ein (od_name org) [] (od_metadata org))
      | Some existing =>
          match o_metadata existing with
          | None => dreplace orgs ein (with_metadata existing (od_metadata org))
          | Some _ => orgs
          end
      end
  end.

(** What the merge may do to an entry: nothing, or give it metadata if it
    has none. *)
Definition kept_by_merge (o o' : Organization) : Prop :=
  o_ein o' = o_ein o /\ o_name o' = o_name o /\
  grantsReceived o' = grantsReceived o /\
  (o_metadata o <> None -> o' = o).

(** Lines 1206-1233 of main. *)
Definition mergeForm990 (dataset : CompleteDataset) (allOrgData : list OrgData)
  : CompleteDataset :=
  mkDataset (foundations dataset)
            (fold_left mergeOrg allOrgData (organizations dataset))
            (metadata dataset).

(** Lines 1203-1262 of main: build, then, when Form 990 organizations were
    read, merge them and consolidate the placeholders. *)
Definition buildFinalDataset (argLimit : nat) (now : string)
    (allGrantsData : list FunderRecord) (allOrgData : list OrgData)
  : result CompleteDataset :=
  let dataset := buildBidirectionalDataset now allGrantsData in
  if PROCESS_990 && (0 <? List.length allOrgData)%nat
  then consolidatePlaceholders argLimit (mergeForm990 dataset allOrgData)
  else Ok dataset.

(** The property names that every plain object inherits from
    [Object.prototype].  A read [d[k]] with such a [k] finds the inherited
    member when [d] has no own property [k]; a [dict] holds own properties
    only, so the embedding stands for the code on keys that are not among
    these names. *)
Definition inheritedNames : list string :=
  [ "constructor"; "hasOwnProperty"; "isPrototypeOf"; "propertyIsEnumerable";
    "toLocaleString"; "toString"; "valueOf"; "__proto__";
    "__defineGetter__"; "__defineSetter__"; "__lookupGetter__"; "__lookupSetter__" ].

Definition inherited (k : string) : bool := existsb (String.eqb k) inheritedNames.

(** No key that the dataset stage reads or writes is an inherited name: the
    funder EINs, the recipient keys and the EINs of the Form 990
    organizations. *)
Definition plainKeys (allGrantsData : list FunderRecord) (allOrgData : list OrgData)
  : bool :=
  forallb (fun r => match usable_funderEIN r with
                    | Some e =>
                        negb (inherited e) &&
                        forallb (fun g => negb (inherited (datasetRecipientKey g)))
                                (fr_grants r)
                    | None => true
                    end) allGrantsData
  && forallb (fun o => match usable_orgEIN o with
                       | Some e => negb (inherited e)
                       | None => true
                       end) allOrgData.

(* ===================================================================== *)
(** ** Sample inputs *)
(* ===================================================================== *)

(** Three organizations whose names normalize alike, in three cities. *)
Definition multiDataset : CompleteDataset :=
  mkDataset []
    [ ("A1", mkOrganization "A1" "Acme" []
               (Some (mkMetadata None (Some "Austin") (Some "TX") None None)));
      ("A2", mkOrganization "A2" "ACME Inc" []
               (Some (mkMetadata None (Some "Boston") (Some "MA") None None)));
      ("A3", mkOrganization "A3" "Acme LLC" []
               (Some (mkMetadata None (Some "Reno") (Some "NV") None None))) ]
    (mkDatasetMetadata 0 0 "2024-01-01T00:00:00.000Z").

Definition bostonGrant : Grant :=
  mkGrant EmptyString "acme" (num 1) (num 2023) (Some "BOSTON") (Some "ma") None.

Definition sampleFiling : option (string * xmlval) :=
  Some ("Return",
        XObj [ ("ReturnHeader",
                [XObj [ ("TaxYr", [XStr "2022"]);
                        ("Filer", [XObj [("EIN", [XStr "352338463"])]]) ]]);
               ("ReturnData",
                [XObj [ ("IRS990PF",
                         [XObj [ ("GrantOrContribPaidDuringYear",
                                  [ XObj [ ("RecipientPersonNm", [XStr "Tara"]);
                                           ("Amt", [XStr "5000"]) ];
                                    XObj [ ("RecipientPersonNm", [XStr "Nobody"]);
                                           ("Amt", [XStr "0"]) ];
                                    XObj [ ("Amt", [XStr "70"]) ] ]) ]]) ]]) ]).

Definition sampleEnv : Env :=
  mkEnv (fun _ => Ok "<Return><IRS990PF/></Return>") (fun _ => Ok sampleFiling).

Definition taraGrant : ParsedGrant :=
  mkParsedGrant (str EmptyString) (str "Tara") (num 5000) (num 2022)
                (str EmptyString) (str EmptyString) (str EmptyString).

Definition sampleResult : PFResult :=
  mkPFResult (str "352338463") (str "Foundation 352338463") [taraGrant]
    (mkParsedMetadata None None None (num 0) (num 0)).

Definition unreadableEnv : Env :=
  mkEnv (fun _ => Throw (mkError "ENOENT: no such file or directory"))
        (fun _ => Ok sampleFiling).

Definition malformedEnv : Env :=
  mkEnv (fun _ => Ok "<Return><IRS990PF></Return>")
        (fun _ => Throw (mkError "Unexpected close tag")).

(** unzip ended with exit status 2 after writing one file. *)
Definition exit2Run : UnzipRun :=
  mkUnzipRun (Some (mkExecError (ExitStatus 2) "Command failed: unzip"))
             "error: invalid compressed data to inflate" true ["a.xml"].

(** A one-word name with exactly 10,000 dollars. *)
Definition taraRow : Row :=
  [ ("Organization", CStr "Tara"); ("2024 Amount", CNum (num 10000)) ].

Definition smallTaraRow : Row :=
  [ ("Organization", CStr "Tara"); ("2024 Amount", CStr "$5,000") ].

Definition sampleRecords : list FunderRecord :=
  [ mkFunderRecord (Some "9") "F9"
      [ mkGrant EmptyString "Acme Inc" (num 1000) (num 2023) None None None;
        mkGrant "5" "Five" (num 10) (num 2023) None None None ] None;
    mkFunderRecord None "Nameless"
      [ mkGrant "5" "Five" (num 20) (num 2023) None None None ] None;
    mkFunderRecord (Some EmptyString) "Empty"
      [ mkGrant "5" "Five" (num 30) (num 2023) None None None ] None;
    mkFunderRecord (Some "2") "F2"
      [ mkGrant "5" "Five" (num 10) (num 2023) None None None ] None ].

(** The scenario of the specification: F1 gave 1,000 dollars to Acme Inc
    without a tax ID, F2 gave 500 dollars to ACME with tax ID E1. *)
Definition acmeDataset : CompleteDataset :=
  mkDataset []
    [ ("no_ein_acme",
       mkOrganization "no_ein_acme" "Acme Inc"
         [mkReceived "F1" "Foundation One" (num 1000) (num 2023)] None);
      ("E1",
       mkOrganization "E1" "ACME"
         [mkReceived "F2" "Foundation Two" (num 500) (num 2023)] None) ]
    (mkDatasetMetadata 2 2 "2024-01-01T00:00:00.000Z").

(** A dataset around the foundation F: it gave to E1, which X funds too, and
    to Acme Inc, which has no tax ID and one organization of that name. *)
Definition sampleDataset : CompleteDataset :=
  mkDataset
    [ ("F", mkFoundation "F" "Central Foundation"
              [ mkGrant "E1" "Shelter" (num 100) (num 2022) None None None;
                mkGrant "E1" "Shelter" (num 150) (num 2023) None None None;
                mkGrant EmptyString "Acme Inc" (num 200) (num 2023) None None None ]
              None);
      ("X", mkFoundation "X" "Other Foundation"
              [ mkGrant "E1" "Shelter" (num 50) (num 2023) None None None ] None) ]
    [ ("E1", mkOrganization "E1" "Shelter"
               [ mkReceived "F" "Central Foundation" (num 100) (num 2022);
                 mkReceived "F" "Central Foundation" (num 150) (num 2023);
                 mkReceived "X" "Other Foundation" (num 50) (num 2023) ] None);
      ("E2", mkOrganization "E2" "ACME"
               [ mkReceived "F" "Central Foundation" (num 200) (num 2023) ] None) ]
    (mkDatasetMetadata 2 4 "2024-01-01T00:00:00.000Z").

Definition sampleNetwork : Network :=
  Eval vm_compute in
    match buildCustomEINNetwork sampleDataset "F" with
    | Ok net => net
    | Throw _ => mkNetwork [] []
    end.

(** Two curated grantees: one named like the organization E2 of the sample
    dataset, one that no filing names. *)
Definition sampleGrantees : list CuratedGrant :=
  [ mkCuratedGrant "ACME " (num 5) (num 2020);
    mkCuratedGrant "Other Org" (num 7) (num 2021) ].

Definition sampleHLFNetwork : Network :=
  Eval vm_compute in
    match buildHLFNetwork sampleGrantees sampleDataset with
    | Ok net => net
    | Throw _ => mkNetwork [] []
    end.

(** One sheet of the curated workbook: two single-name rows of at most
    10,000 dollars, a row of a named organization, and a section heading. *)
Definition sampleWorkbook : dict (list Row) :=
  [ ("2024",
     [ taraRow;
       smallTaraRow;
       [ ("Organization", CStr "Shelter Fund"); ("2024 Amount", CStr "$25,000") ];
       [ ("Organization", CStr "Discretionary Grants"); ("2024 Amount", CNum (num 9)) ] ]) ].

(** A month whose archive was unpacked into a sub-directory of another
    name. *)
Definition sampleDisk : Disk :=
  mkDisk (fun p => String.eqb p "x/2024_01A")
         (fun p => if String.eqb p "x/2024_01A" then ["notes.txt"; "inner"]
                   else if String.eqb p "x/2024_01A/inner" then ["a.xml"; "b.xml"]
                   else [])
         (fun p => String.eqb p "x/2024_01A/inner").

(** The funder node X of the sample network. *)
Definition sampleFunderNode : Node :=
  mkNode "X" "Other Foundation" funder None None None None
    (Some [ mkGrant "E1" "Shelter" (num 50) (num 2023) None None None ]).

Definition acmeGrant : Grant :=
  mkGrant EmptyString "Acme Inc" (num 200) (num 2023) None None None.

(** The only organization named like the grant's recipient is the
    placeholder entry that the dataset builder made for that very grant. *)
Definition placeholderOnlyDataset : CompleteDataset :=
  mkDataset
    [ ("F", mkFoundation "F" "Central Foundation" [acmeGrant] None) ]
    [ ("no_ein_acme",
       mkOrganization "no_ein_acme" "Acme Inc"
         [ mkReceived "F" "Central Foundation" (num 200) (num 2023) ] None) ]
    (mkDatasetMetadata 1 1 "2024-01-01T00:00:00.000Z").

(** A foundation whose EIN, as read from a filing, holds a quote character. *)
Definition quoteKey : string := "12" ++ dquote ++ "34".

Definition quoteKeyDataset : CompleteDataset :=
  mkDataset [ (quoteKey, mkFoundation quoteKey "F" [] None) ] []
            (mkDatasetMetadata 1 0 "2024-01-01T00:00:00.000Z").

(* ===================================================================== *)
(** * Properties *)
(* ===================================================================== *)

(** Case analysis on a scrutinee of the goal that holds no [match] itself. *)
Ltac split_match :=
  match goal with
  | |- context [match ?x with _ => _ end] =>
      lazymatch x with
      | context [match _ with _ => _ end] => fail
      | _ => destruct x eqn:?
      end
  end.

(** The same in a hypothesis. *)
Ltac split_match_in H :=
  match type of H with
  | context [match ?x with _ => _ end] =>
      lazymatch x with
      | context [match _ with _ => _ end] => fail
      | _ => destruct x eqn:?
      end
  end.

(* --------------------------------------------------------------------- *)
(** ** The runtime pieces on concrete values *)
(* --------------------------------------------------------------------- *)

Example parseFloat_values :
  parseFloat "  12,5" = num 12 /\ parseFloat "$5" = NaN /\
  parseFloat "-.5e1x" = num (-5) /\ parseFloat "." = NaN /\
  parseFloat "1e" = num 1 /\ parseFloat "Infinity" = Infinity false /\
  Number_toString (parseFloat "10000.250") = "10000.25" /\
  Number_toString (num (-42)) = "-42".
Proof. repeat split; reflexivity. Qed.

Example normalizeOrgName_values :
  normalizeOrgName "The Acme Fund, Inc." = "acme" /\
  normalizeOrgName "ACME" = "acme" /\
  normalizeOrgName "A an the_fund Foundations" = "thefundfoundations".
Proof. repeat split; reflexivity. Qed.

Example split_space_values :
  split_space "a  b" = ["a"; "b"] /\ split_space EmptyString = [EmptyString] /\
  isSingleName " Tara " = true /\ isSingleName "Tara Org" = false.
Proof. repeat split; reflexivity. Qed.

(** Array-index keys are enumerated first, in ascending order; a key with a
    leading zero is not one. *)
Example dset_order :
  keys (dset (dset (dset (dset [] "b" 1) "10" 2) "042" 3) "9" 4)
  = ["9"; "10"; "b"; "042"].
Proof. reflexivity. Qed.

(* --------------------------------------------------------------------- *)
(** ** The filing parsers *)
(* --------------------------------------------------------------------- *)



Lemma parseGrantSections_In : forall taxYear grantSections g,
  In g (parseGrantSections taxYear grantSections) <->
  exists recipient, In recipient grantSections /\
                    parseRecipient taxYear recipient = Some g.
Proof.
  intros taxYear grantSections g; induction grantSections as [ | r rest IH ]; cbn.
  - split; [ intros [] | intros [x [[] _]] ].
  - destruct (parseRecipient taxYear r) as [g' | ] eqn:E; cbn; rewrite IH; split.
    + intros [-> | [x [Hx Hp]]]; [ exists r | exists x ]; auto.
    + intros [x [[-> | Hx] Hp]]; [ left; congruence | right; eauto ].
    + intros [x [Hx Hp]]; eauto.
    + intros [x [[-> | Hx] Hp]]; [ congruence | eauto ].
Qed.


(** Of three recipient entries, the one without a positive amount and the
    one without a name are dropped. *)
Example processXmlFile_sample :
  processXmlFile sampleEnv "filing.xml" 2023 = Ok (Some sampleResult).
Proof. reflexivity. Qed.



(** The body does throw: on a file that cannot be read and on a document
    that is not well formed. *)
Example processXmlFile_body_throws :
  processXmlFile_body unreadableEnv "gone.xml" 2023
    = Throw (mkError "ENOENT: no such file or directory") /\
  processXmlFile_body malformedEnv "bad.xml" 2023
    = Throw (mkError "Unexpected close tag").
Proof. split; reflexivity. Qed.

(** C6. For every environment, file path and fallback year, processXmlFile
    and parseXML990File return a value and never throw; whenever reading or
    parsing the document raises an error inside them, the value returned is
    null. *)
Theorem parsers_never_throw :
  forall env filePath year,
    (exists r, processXmlFile env filePath year = Ok r) /\
    (exists r, parseXML990File env filePath year = Ok r) /\
    (forall e, processXmlFile_body env filePath year = Throw e ->
               processXmlFile env filePath year = Ok None) /\
    (forall e, parseXML990File_body env filePath year = Throw e ->
               parseXML990File env filePath year = Ok None).
Proof.
  intros env filePath year; unfold processXmlFile, parseXML990File, try_catch.
  repeat split.
  - destruct (processXmlFile_body env filePath year); eauto.
  - destruct (parseXML990File_body env filePath year); eauto.
  - intros e ->; reflexivity.
  - intros e ->; reflexivity.
Qed.

(* --------------------------------------------------------------------- *)
(** ** The archive extractor *)
(* --------------------------------------------------------------------- *)

(** C8, as stated, fails: an extraction that left a file behind is rejected
    when unzip ended with exit status 2. *)
Lemma extractZip_exit2_rejected :
  ~ (files_extracted exit2Run -> extractZip exit2Run = Ok tt).
Proof.
  intro H. assert (F : files_extracted exit2Run) by (split; [ reflexivity | discriminate ]).
  specialize (H F). discriminate H.
Qed.

(** C8, amended. extractZip resolves exactly when unzip reported no error,
    or reported exit status 1 or 3 and the destination directory exists and
    is not empty; it rejects in every other case, whatever was extracted. *)
Theorem extractZip_resolves_iff :
  forall run,
    extractZip run = Ok tt <->
    (run_error run = None \/
     exists error, run_error run = Some error /\
                   (exec_code error = ExitStatus 1 \/ exec_code error = ExitStatus 3) /\
                   files_extracted run).
Proof.
  intros [[[code msg] | ] stderr ex entries]; unfold extractZip, files_extracted;
    cbn [run_error exec_code exec_message dest_exists dest_entries run_stderr].
  2: { split; auto. }
  split.
  - intros H; right; exists (mkExecError code msg); cbn [exec_code].
    destruct code as [[ | [[p | p | ] | p | ] | p] | s | ]; try discriminate H;
      destruct ex; try discriminate H; destruct entries; try discriminate H;
      (split; [ reflexivity | split; [ auto | split; [ reflexivity | discriminate ] ] ]).
  - intros [H | [error [E [Hc [Hx Hn]]]]]; [ discriminate H | ].
    injection E as <-; cbn [exec_code] in Hc; subst ex.
    destruct entries; [ contradiction | ].
    destruct Hc as [-> | ->]; reflexivity.
Qed.

(* --------------------------------------------------------------------- *)
(** ** The curated grant list *)
(* --------------------------------------------------------------------- *)

(** C9, as stated, fails: a single-name row of exactly 10,000 dollars is
    excluded although its amount is not below 10,000. *)
Lemma rowFilter_excludes_exactly_10000 :
  ~ (rowFilter 2024 taraRow = Ok false <->
     num_ltb (parsedAmount (row_amount 2024 taraRow)) (num 10000) = true).
Proof.
  intros [H _]. specialize (H eq_refl). discriminate H.
Qed.


(** C9, amended. A row whose organization is a single word is excluded
    exactly when its parsed amount is at most 10,000 dollars, and kept when
    it is above; a row without an organization or without an amount, and a
    row named Discretionary Grants or Mini grants for Storytelling, is
    always excluded. *)
Theorem rowFilter_rule :
  forall year row,
    (cell_truthy (cell_or (dget row "Organization") (CStr EmptyString)) = false \/
     cell_truthy (row_amount year row) = false ->
     rowFilter year row = Ok false) /\
    (dget row "Organization" = Some (CStr "Discretionary Grants") \/
     dget row "Organization" = Some (CStr "Mini grants for Storytelling") ->
     rowFilter year row = Ok false) /\
    (forall name,
       dget row "Organization" = Some (CStr name) ->
       name <> EmptyString ->
       cell_truthy (row_amount year row) = true ->
       isSingleName name = true ->
       rowFilter year row =
         Ok (negb (num_leb (parsedAmount (row_amount year row)) (num 10000)))).
Proof.
  intros year row; unfold rowFilter; repeat split.
  - intros [-> | ->]; [ reflexivity | ].
    rewrite orb_true_r; reflexivity.
  - intros [-> | ->]; cbn [cell_or cell_truthy negb orb];
      destruct (cell_truthy (row_amount year row)); reflexivity.
  - intros name Ho Hn Ha Hs. rewrite Ho, Ha.
    destruct name as [ | c r ]; [ contradiction | ].
    cbn [cell_or cell_truthy negb orb cell_is].
    destruct (String.eqb (String c r) "Discretionary Grants") eqn:E1.
    { apply String.eqb_eq in E1; rewrite E1 in Hs; discriminate Hs. }
    destruct (String.eqb (String c r) "Mini grants for Storytelling") eqn:E2.
    { apply String.eqb_eq in E2; rewrite E2 in Hs; discriminate Hs. }
    cbn [orb]. rewrite Hs. cbn [andb].
    destruct (num_leb _ _); reflexivity.
Qed.

Lemma rowFilter_rule_witness : rowFilter 2024 smallTaraRow = Ok false.
Proof.
  apply (proj2 (proj2 (rowFilter_rule 2024 smallTaraRow)) "Tara");
    [ reflexivity | discriminate | reflexivity | reflexivity ].
Defined.

(* --------------------------------------------------------------------- *)
(** ** Dictionaries *)
(* --------------------------------------------------------------------- *)

Section DictFacts.
Context {V : Type}.
Implicit Types (d : dict V) (k : string) (v : V).


Lemma dget_In : forall d k v, dget d k = Some v -> In (k, v) d.
Proof.
  induction d as [ | [k' v'] r IH ]; cbn; intros k v H; [ discriminate H | ].
  destruct (String.eqb k' k) eqn:E.
  - apply String.eqb_eq in E; injection H as ->; subst; auto.
  - right; auto.
Qed.

Lemma dget_keys : forall d k, dget d k <> None <-> In k (keys d).
Proof.
  induction d as [ | [k' v'] r IH ]; cbn; intros k.
  - split; [ congruence | intros [] ].
  - destruct (String.eqb k' k) eqn:E.
    + apply String.eqb_eq in E; split; [ auto | discriminate ].
    + apply String.eqb_neq in E; rewrite IH; split;
        [ auto | intros [H | H]; [ contradiction | exact H ] ].
Qed.

Lemma dsum_cons : forall (m : V -> nat) k v d,
  dsum m ((k, v) :: d) = m v + dsum m d.
Proof. reflexivity. Qed.

Lemma dsum_app : forall (m : V -> nat) d1 d2,
  dsum m (d1 ++ d2) = dsum m d1 + dsum m d2.
Proof.
  intros m d1 d2; unfold dsum; rewrite map_app, list_sum_app; reflexivity.
Qed.

Lemma dsum_dreplace : forall (m : V -> nat) d k old v,
  dget d k = Some old ->
  dsum m (dreplace d k v) + m old = dsum m d + m v.
Proof.
  intros m; induction d as [ | [k' v'] r IH ]; cbn [dget dreplace];
    intros k old v H; [ discriminate H | ].
  destruct (String.eqb k' k).
  - injection H as ->; rewrite !dsum_cons; lia.
  - specialize (IH _ _ v H); rewrite !dsum_cons; lia.
Qed.

Lemma dsum_dinsert_index : forall (m : V -> nat) d n k v,
  dsum m (dinsert_index d n k v) = dsum m d + m v.
Proof.
  intros m; induction d as [ | [k' v'] r IH ]; cbn [dinsert_index]; intros n k v.
  - rewrite dsum_cons; unfold dsum; cbn; lia.
  - destruct (array_index k') as [n' | ]; [ destruct (n' <? n)%N | ];
      rewrite !dsum_cons; try rewrite IH; lia.
Qed.

(** Assignment adds the measure of the new value and takes away that of the
    value it replaces. *)
Lemma dsum_dset : forall (m : V -> nat) d k v,
  dsum m (dset d k v) + match dget d k with Some old => m old | None => 0 end
  = dsum m d + m v.
Proof.
  intros m d k v; unfold dset, dhas.
  destruct (dget d k) as [old | ] eqn:E.
  - apply dsum_dreplace; exact E.
  - destruct (array_index k).
    + rewrite dsum_dinsert_index; lia.
    + rewrite dsum_app, dsum_cons; unfold dsum; cbn; lia.
Qed.

Lemma dget_dreplace : forall d k v k',
  dget (dreplace d k v) k' =
  if String.eqb k k' then match dget d k with Some _ => Some v | None => None end
  else dget d k'.
Proof.
  induction d as [ | [k0 v0] r IH ]; cbn [dget dreplace]; intros k v k'.
  - destruct (String.eqb k k'); reflexivity.
  - destruct (String.eqb k0 k) eqn:E0; cbn [dget].
    + apply String.eqb_eq in E0; subst k0.
      destruct (String.eqb k k'); reflexivity.
    + rewrite IH. destruct (String.eqb k k') eqn:E.
      * apply String.eqb_eq in E; subst k'. rewrite E0; reflexivity.
      * reflexivity.
Qed.

Lemma dget_app_new : forall d k v k',
  dget d k = None ->
  dget (d ++ [(k, v)]) k' = if String.eqb k k' then Some v else dget d k'.
Proof.
  induction d as [ | [k0 v0] r IH ]; cbn [dget app]; intros k v k' H.
  - destruct (String.eqb k k'); reflexivity.
  - destruct (String.eqb k0 k) eqn:E0; [ discriminate H | ].
    rewrite (IH _ v k' H). destruct (String.eqb k0 k') eqn:E1; [ | reflexivity ].
    apply String.eqb_eq in E1; subst k'.
    rewrite String.eqb_sym, E0; reflexivity.
Qed.

Lemma map_get_map_set : forall (m : Map V) k v k',
  map_get (map_set m k v) k' = if String.eqb k k' then Some v else map_get m k'.
Proof.
  intros m k v k'; unfold map_get, map_set, dhas.
  destruct (dget m k) eqn:E.
  - rewrite dget_dreplace, E; reflexivity.
  - apply dget_app_new; exact E.
Qed.

Lemma keys_dreplace : forall d k v, keys (dreplace d k v) = keys d.
Proof.
  induction d as [ | [k0 v0] r IH ]; cbn [dreplace]; intros k v; [ reflexivity | ].
  destruct (String.eqb k0 k); unfold keys in *; cbn [map fst]; [ | rewrite IH ]; reflexivity.
Qed.

Lemma keys_ddelete : forall d k,
  keys (ddelete d k) = filter (fun k' => negb (String.eqb k' k)) (keys d).
Proof.
  induction d as [ | [k0 v0] r IH ]; intros k; [ reflexivity | ].
  unfold ddelete, keys in *; cbn [filter map fst].
  destruct (negb (String.eqb k0 k)); cbn [map fst]; rewrite IH; reflexivity.
Qed.

Lemma In_keys_ddelete : forall d k k',
  In k' (keys (ddelete d k)) <-> In k' (keys d) /\ k' <> k.
Proof.
  intros d k k'; rewrite keys_ddelete, filter_In, negb_true_iff, String.eqb_neq.
  reflexivity.
Qed.

Lemma ddelete_absent : forall d k, ~ In k (keys d) -> ddelete d k = d.
Proof.
  induction d as [ | [k0 v0] r IH ]; intros k H; [ reflexivity | ].
  unfold ddelete in *; cbn [filter fst]. cbn in H.
  destruct (String.eqb k0 k) eqn:E.
  - apply String.eqb_eq in E; tauto.
  - cbn [negb]; rewrite IH; [ reflexivity | tauto ].
Qed.


Lemma dflat_cons : forall (A : Type) (f : V -> list A) k v d,
  dflat f ((k, v) :: d) = f v ++ dflat f d.
Proof. reflexivity. Qed.

Lemma Permutation_swap_ends : forall (A : Type) (a b c : list A),
  Permutation (a ++ b ++ c) (c ++ b ++ a).
Proof.
  intros A a b c.
  transitivity ((b ++ c) ++ a); [ apply Permutation_app_comm | ].
  rewrite (app_assoc c b a).
  apply Permutation_app_tail, Permutation_app_comm.
Qed.

(** Replacing a value trades its list for the list of the new value. *)
Lemma dflat_dreplace : forall (A : Type) (f : V -> list A) d k old v,
  dget d k = Some old ->
  Permutation (dflat f (dreplace d k v) ++ f old) (dflat f d ++ f v).
Proof.
  intros A f; induction d as [ | [k0 v0] r IH ]; cbn [dget dreplace];
    intros k old v H; [ discriminate H | ].
  destruct (String.eqb k0 k).
  - injection H as ->; rewrite !dflat_cons, <- !app_assoc.
    apply Permutation_swap_ends.
  - rewrite !dflat_cons, <- !app_assoc.
    apply Permutation_app_head, IH; exact H.
Qed.

(** Deleting a key of a dictionary with distinct keys takes away the list of
    its value and nothing else. *)
Lemma dflat_ddelete : forall (A : Type) (f : V -> list A) d k old,
  NoDup (keys d) ->
  dget d k = Some old ->
  Permutation (dflat f (ddelete d k) ++ f old) (dflat f d).
Proof.
  intros A f; induction d as [ | [k0 v0] r IH ]; intros k old ND H; [ discriminate H | ].
  cbn [dget] in H. inversion ND as [ | ? ? Hnot ND' ]; subst.
  destruct (String.eqb k0 k) eqn:E.
  - apply String.eqb_eq in E; subst k0; injection H as ->.
    unfold ddelete; cbn [filter fst]; rewrite String.eqb_refl; cbn [negb].
    fold (ddelete r k). rewrite ddelete_absent by exact Hnot.
    rewrite dflat_cons; apply Permutation_app_comm.
  - unfold ddelete; cbn [filter fst]; rewrite E; cbn [negb]. fold (ddelete r k).
    rewrite !dflat_cons, <- app_assoc.
    apply Permutation_app_head, IH; assumption.
Qed.

Lemma dsum_length_dflat : forall (A : Type) (f : V -> list A) d,
  dsum (fun v => List.length (f v)) d = List.length (dflat f d).
Proof.
  intros A f; induction d as [ | [k v] r IH ]; [ reflexivity | ].
  rewrite dsum_cons, dflat_cons, length_app, IH; reflexivity.
Qed.

End DictFacts.

(* --------------------------------------------------------------------- *)
(** ** The dataset builder *)
(* --------------------------------------------------------------------- *)

Lemma addReceived_total : forall funderEIN funderName orgs grant,
  totalReceived (addReceived funderEIN funderName orgs grant)
  = S (totalReceived orgs).
Proof.
  intros fe fn orgs g; unfold addReceived, totalReceived.
  pose proof (dsum_dset (fun o => List.length (grantsReceived o)) orgs
                (datasetRecipientKey g)
                (push_received
                   match dget orgs (datasetRecipientKey g) with
                   | Some o => o
                   | None => mkOrganization (datasetRecipientKey g) (recipientName g) [] None
                   end
                   (mkReceived fe fn (amount g) (year g)))) as H.
  destruct (dget orgs (datasetRecipientKey g)); cbn [push_received grantsReceived] in H;
    rewrite length_app in H; cbn in H; lia.
Qed.

Lemma addReceived_fold_total : forall funderEIN funderName grants orgs,
  totalReceived (fold_left (addReceived funderEIN funderName) grants orgs)
  = totalReceived orgs + List.length grants.
Proof.
  intros fe fn; induction grants as [ | g r IH ]; cbn [fold_left List.length]; intros orgs; [ lia | ].
  rewrite IH, addReceived_total; lia.
Qed.

Lemma concat_given_total : forall fs funderEIN name md grants,
  totalGiven
    (dset fs funderEIN
       (concat_given match dget fs funderEIN with
                     | Some f => f
                     | None => mkFoundation funderEIN name [] md
                     end grants))
  = totalGiven fs + List.length grants.
Proof.
  intros fs fe name md grants; unfold totalGiven.
  pose proof (dsum_dset (fun f => List.length (grantsGiven f)) fs fe
                (concat_given match dget fs fe with
                              | Some f => f
                              | None => mkFoundation fe name [] md
                              end grants)) as H.
  destruct (dget fs fe); cbn [concat_given grantsGiven] in H;
    rewrite length_app in H; cbn in H; lia.
Qed.

(** The three counts move together through the outer loop. *)
Lemma addFunderRecord_counts : forall records fs orgs total fs' orgs' total',
  fold_left addFunderRecord records (fs, orgs, total) = (fs', orgs', total') ->
  total' = total + list_sum (map contribution records) /\
  totalGiven fs' = totalGiven fs + list_sum (map contribution records) /\
  totalReceived orgs' = totalReceived orgs + list_sum (map contribution records).
Proof.
  induction records as [ | r rest IH ]; cbn [fold_left map];
    intros fs orgs total fs' orgs' total' H.
  - injection H as <- <- <-; cbn; lia.
  - change (list_sum (contribution r :: map contribution rest))
      with (contribution r + list_sum (map contribution rest)).
    unfold addFunderRecord at 2 in H; unfold contribution at 1 3 5.
    destruct (usable_funderEIN r) as [fe | ].
    + apply IH in H. destruct H as [Ht [Hg Hr]].
      rewrite concat_given_total in Hg. rewrite addReceived_fold_total in Hr. lia.
    + apply IH in H. lia.
Qed.

Example buildBidirectionalDataset_sample :
  let d := buildBidirectionalDataset "now" sampleRecords in
  keys (foundations d) = ["2"; "9"] /\
  keys (organizations d) = ["5"; "no_ein_acme"] /\
  totalGrants (metadata d) = 3.
Proof. repeat split; reflexivity. Qed.

(** C10. In the dataset that buildBidirectionalDataset returns, the total
    grant count of the metadata, the sum of the lengths of grantsGiven over
    the foundations and the sum of the lengths of grantsReceived over the
    organizations are equal, and equal to the number of grants of the input
    records that have a non-empty funder EIN: each such grant is counted
    once in each of the three, and a record without a funder EIN adds
    nothing. *)
Theorem buildBidirectionalDataset_counts :
  forall now allGrantsData,
    let d := buildBidirectionalDataset now allGrantsData in
    totalGrants (metadata d) = totalGiven (foundations d) /\
    totalGrants (metadata d) = totalReceived (organizations d) /\
    totalGrants (metadata d) = list_sum (map contribution allGrantsData).
Proof.
  intros now records; unfold buildBidirectionalDataset.
  destruct (fold_left addFunderRecord records ([], [], 0)) as [[fs orgs] total] eqn:E.
  apply addFunderRecord_counts in E. destruct E as [Ht [Hg Hr]].
  cbn [metadata foundations organizations totalGrants].
  unfold totalGiven, totalReceived, dsum in *; cbn in *. lia.
Qed.

(* --------------------------------------------------------------------- *)
(** ** Entity resolution *)
(* --------------------------------------------------------------------- *)

Lemma map_get_map_push : forall (A : Type) (m : Map (list A)) k x k',
  map_get (map_push m k x) k' =
  if String.eqb k k'
  then Some (match map_get m k with Some l => l ++ [x] | None => [x] end)
  else map_get m k'.
Proof.
  intros A m k x k'; unfold map_push.
  destruct (map_get m k); apply map_get_map_set.
Qed.

(** The index built over a list of entries only holds keys of those entries
    (and what the index held before). *)
Lemma index_fold_members : forall (known : list string) entries (m : Map (list string)),
  (forall e : string * Organization, In e entries -> In (fst e) known) ->
  (forall n l x, map_get m n = Some l -> In x l -> In x known) ->
  forall n l x,
    map_get (fold_left (fun nameIndex e =>
                          map_push nameIndex (normalizeOrgName (o_name (snd e))) (fst e))
                       entries m) n = Some l ->
    In x l -> In x known.
Proof.
  intros known; induction entries as [ | e rest IH ]; cbn [fold_left]; intros m He Hm.
  - exact Hm.
  - apply IH.
    + intros e' H; apply He; right; exact H.
    + intros n l x Hg Hx. rewrite map_get_map_push in Hg.
      destruct (String.eqb (normalizeOrgName (o_name (snd e))) n).
      * injection Hg as <-.
        destruct (map_get m (normalizeOrgName (o_name (snd e)))) as [old | ] eqn:E.
        -- apply in_app_or in Hx. destruct Hx as [Hx | [<- | []]].
           ++ eapply Hm; eauto.
           ++ apply He; left; reflexivity.
        -- destruct Hx as [<- | []]. apply He; left; reflexivity.
      * eapply Hm; eauto.
Qed.

Lemma buildNameToEINIndex_members : forall dataset n l ein,
  map_get (buildNameToEINIndex dataset) n = Some l ->
  In ein l ->
  In ein (keys (organizations dataset)).
Proof.
  intros dataset n l ein; unfold buildNameToEINIndex.
  apply index_fold_members.
  - intros e H; unfold keys; apply in_map; exact H.
  - intros n' l' x H; discriminate H.
Qed.

Lemma extend_received_list : forall org more,
  grantsReceived (extend_received org more) = grantsReceived org ++ more.
Proof. reflexivity. Qed.

(** One round of the loop that completes keeps every received entry, keeps
    the keys distinct, and the only key it can remove is the placeholder it
    looks at. *)
Lemma consolidateStep_spec : forall argLimit nameIndex orgs placeholderKey orgs',
  NoDup (keys orgs) ->
  In placeholderKey (keys orgs) ->
  is_placeholder placeholderKey = true ->
  (forall n l ein, map_get nameIndex n = Some l -> In ein l ->
                   is_placeholder ein = false -> In ein (keys orgs)) ->
  consolidateStep argLimit nameIndex orgs placeholderKey = Ok orgs' ->
  Permutation (allReceived orgs') (allReceived orgs) /\
  NoDup (keys orgs') /\
  (forall k, k <> placeholderKey -> In k (keys orgs) -> In k (keys orgs')).
Proof.
  intros lim idx orgs p orgs' ND Hp Hph Hidx H.
  assert (Hsame : Ok orgs = Ok orgs' ->
            Permutation (allReceived orgs') (allReceived orgs) /\
            NoDup (keys orgs') /\
            (forall k, k <> p -> In k (keys orgs) -> In k (keys orgs')))
    by (intros E; injection E as <-; auto).
  unfold consolidateStep in H.
  destruct (dget orgs p) as [org | ] eqn:Eorg; [ | discriminate H ].
  destruct (map_get idx (normalizeOrgName (o_name org))) as [matches | ] eqn:Em;
    [ | exact (Hsame H) ].
  destruct (0 <? List.length matches)%nat; [ | exact (Hsame H) ].
  destruct (find (fun ein => negb (startsWith ein "no_ein_")) matches)
    as [realEIN | ] eqn:Ef; [ | exact (Hsame H) ].
  destruct (negb (String.eqb realEIN "") && negb (String.eqb realEIN p)) eqn:Eg;
    [ | exact (Hsame H) ].
  apply find_some in Ef. destruct Ef as [Hin Hreal].
  apply negb_true_iff in Hreal. fold (is_placeholder realEIN) in Hreal.
  apply andb_prop in Eg. destruct Eg as [_ Hne].
  apply negb_true_iff, String.eqb_neq in Hne.
  assert (Hk : In realEIN (keys orgs)) by (eapply Hidx; eauto).
  destruct (dget orgs realEIN) as [real | ] eqn:Ereal;
    [ | apply dget_keys in Hk; contradiction ].
  unfold push_spread in H.
  destruct (lim <? List.length (grantsReceived org))%nat; cbn [bind] in H;
    [ discriminate H | ].
  injection H as <-.
  set (merged := dreplace orgs realEIN (extend_received real (grantsReceived org))).
  assert (NDm : NoDup (keys merged)) by (unfold merged; rewrite keys_dreplace; exact ND).
  assert (Hgp : dget merged p = Some org).
  { unfold merged; rewrite dget_dreplace.
    destruct (String.eqb realEIN p) eqn:E;
      [ apply String.eqb_eq in E; contradiction | exact Eorg ]. }
  split; [ | split ].
  - pose proof (dflat_ddelete _ grantsReceived merged p org NDm Hgp) as H1.
    pose proof (dflat_dreplace _ grantsReceived orgs realEIN real
                  (extend_received real (grantsReceived org)) Ereal) as H2.
    fold merged in H2. rewrite extend_received_list in H2.
    unfold allReceived.
    apply (Permutation_app_inv_r (grantsReceived org ++ grantsReceived real)).
    rewrite app_assoc.
    transitivity (dflat grantsReceived merged ++ grantsReceived real).
    + apply Permutation_app_tail; exact H1.
    + rewrite H2. apply Permutation_app_head, Permutation_app_comm.
  - rewrite keys_ddelete. apply NoDup_filter; exact NDm.
  - intros k Hkp Hin'. apply In_keys_ddelete. split; [ | exact Hkp ].
    unfold merged; rewrite keys_dreplace; exact Hin'.
Qed.

(** The loop over the placeholder keys, when it completes. *)
Lemma consolidate_fold : forall argLimit nameIndex todo orgs orgs',
  NoDup todo ->
  (forall k, In k todo -> is_placeholder k = true) ->
  (forall k, In k todo -> In k (keys orgs)) ->
  NoDup (keys orgs) ->
  (forall n l ein, map_get nameIndex n = Some l -> In ein l ->
                   is_placeholder ein = false -> In ein (keys orgs)) ->
  foldM (consolidateStep argLimit nameIndex) todo orgs = Ok orgs' ->
  Permutation (allReceived orgs') (allReceived orgs).
Proof.
  intros lim idx; induction todo as [ | p rest IH ]; cbn [foldM];
    intros orgs orgs' NDt Hph Hin ND Hidx H.
  - injection H as <-; apply Permutation_refl.
  - inversion NDt as [ | ? ? Hnot NDr ]; subst.
    destruct (consolidateStep lim idx orgs p) as [orgs1 | e] eqn:E; cbn [bind] in H;
      [ | discriminate H ].
    destruct (consolidateStep_spec lim idx orgs p orgs1 ND (Hin p (or_introl eq_refl))
                (Hph p (or_introl eq_refl)) Hidx E) as [P1 [ND1 Hkeep]].
    transitivity (allReceived orgs1); [ | exact P1 ].
    apply (IH orgs1 orgs' NDr); [ | | exact ND1 | | exact H ].
    + intros k Hk; apply Hph; right; exact Hk.
    + intros k Hk; apply Hkeep; [ intros ->; contradiction | apply Hin; right; exact Hk ].
    + intros n l ein Hg He Hr. apply Hkeep.
      * intros ->. rewrite (Hph p (or_introl eq_refl)) in Hr; discriminate Hr.
      * eapply Hidx; eauto.
Qed.

Lemma dget_ddelete : forall (V : Type) (d : dict V) k k',
  dget (ddelete d k) k' = if String.eqb k k' then None else dget d k'.
Proof.
  intros V; induction d as [ | [k0 v0] r IH ]; intros k k'.
  - cbn; destruct (String.eqb k k'); reflexivity.
  - unfold ddelete in *; cbn [filter fst].
    destruct (String.eqb k0 k) eqn:E; cbn [negb dget].
    + apply String.eqb_eq in E; subst k0. rewrite IH.
      destruct (String.eqb k k'); reflexivity.
    + rewrite IH. destruct (String.eqb k k') eqn:E'; [ | reflexivity ].
      apply String.eqb_eq in E'; subst k'. rewrite E; reflexivity.
Qed.

Lemma extend_received_nil : forall o, extend_received o [] = o.
Proof. intros [e n g m]; unfold extend_received; cbn; rewrite app_nil_r; reflexivity. Qed.

Lemma extend_received_twice : forall o a b,
  extend_received (extend_received o a) b = extend_received o (a ++ b).
Proof. intros o a b; unfold extend_received; cbn; rewrite app_assoc; reflexivity. Qed.

Lemma extend_nothing : forall (orgs : dict Organization) q,
  dget orgs q = option_map (fun o => extend_received o []) (dget orgs q).
Proof.
  intros orgs q; destruct (dget orgs q); cbn; [ rewrite extend_received_nil | ]; reflexivity.
Qed.

Lemma placeholder_differs : forall p q,
  is_placeholder p = true -> is_placeholder q = false -> q <> p.
Proof. intros p q Hp Hq E; subst q; congruence. Qed.

(** One round of the loop that completes, key by key: the placeholder is
    deleted exactly when it has a real match, the other placeholders are
    left alone, and the entries of the placeholder are appended to the
    organization under its real match and to no other. *)
Lemma consolidateStep_fate : forall argLimit nameIndex orgs p org orgs',
  dget orgs p = Some org ->
  is_placeholder p = true ->
  consolidateStep argLimit nameIndex orgs p = Ok orgs' ->
  dget orgs' p = match realMatch nameIndex org with
                 | Some _ => None
                 | None => Some org
                 end /\
  (forall q, q <> p -> is_placeholder q = true -> dget orgs' q = dget orgs q) /\
  (forall q, is_placeholder q = false ->
             dget orgs' q
             = option_map (fun o => extend_received o
                                      (if goesTo nameIndex org q
                                       then grantsReceived org else []))
                          (dget orgs q)).
Proof.
  intros lim idx orgs p org orgs' Hp Hph H.
  unfold consolidateStep in H; rewrite Hp in H. unfold goesTo, realMatch.
  destruct (map_get idx (normalizeOrgName (o_name org))) as [matches | ].
  2: { injection H as <-. repeat split; auto. intros q _; apply extend_nothing. }
  destruct (find (fun ein => negb (startsWith ein "no_ein_")) matches) as [realEIN | ] eqn:F.
  2: { destruct (0 <? List.length matches)%nat; injection H as <-; repeat split; auto;
       intros q _; apply extend_nothing. }
  assert (Hlen : (0 <? List.length matches)%nat = true)
    by (destruct matches; [ discriminate F | reflexivity ]).
  rewrite Hlen in H. apply find_some in F; destruct F as [_ Hreal].
  apply negb_true_iff in Hreal; fold (is_placeholder realEIN) in Hreal.
  assert (Hne : realEIN <> p) by (apply placeholder_differs; assumption).
  apply String.eqb_neq in Hne; rewrite Hne in H.
  destruct (String.eqb realEIN "") eqn:Ee; cbn [negb andb] in H.
  { injection H as <-. repeat split; auto. intros q _; apply extend_nothing. }
  assert (Eq : forall q, is_placeholder q = false -> String.eqb p q = false)
    by (intros q Hq; apply String.eqb_neq; intros <-; congruence).
  destruct (dget orgs realEIN) as [real | ] eqn:Er.
  - unfold push_spread in H.
    destruct (lim <? List.length (grantsReceived org))%nat; cbn [bind] in H;
      [ discriminate H | ].
    injection H as <-.
    split; [ rewrite dget_ddelete, String.eqb_refl; reflexivity | ]. split.
    + intros q Hq Hqp. rewrite dget_ddelete.
      destruct (String.eqb p q) eqn:E; [ apply String.eqb_eq in E; congruence | ].
      rewrite dget_dreplace.
      destruct (String.eqb realEIN q) eqn:E'; [ | reflexivity ].
      apply String.eqb_eq in E'; subst q; congruence.
    + intros q Hq. rewrite dget_ddelete, (Eq q Hq), dget_dreplace.
      destruct (String.eqb realEIN q) eqn:E'.
      * apply String.eqb_eq in E'; subst q. rewrite Er; reflexivity.
      * apply extend_nothing.
  - cbn [bind] in H. injection H as <-.
    split; [ rewrite dget_ddelete, String.eqb_refl; reflexivity | ]. split.
    + intros q Hq Hqp. rewrite dget_ddelete.
      destruct (String.eqb p q) eqn:E; [ apply String.eqb_eq in E; congruence | ].
      reflexivity.
    + intros q Hq. rewrite dget_ddelete, (Eq q Hq).
      destruct (String.eqb realEIN q) eqn:E'.
      * apply String.eqb_eq in E'; subst q. rewrite Er; reflexivity.
      * apply extend_nothing.
Qed.

Lemma movedFrom_ext : forall nameIndex orgs orgs' todo q,
  (forall k, In k todo -> dget orgs' k = dget orgs k) ->
  movedFrom nameIndex orgs' todo q = movedFrom nameIndex orgs todo q.
Proof.
  intros idx orgs orgs' todo q; unfold movedFrom.
  induction todo as [ | k rest IH ]; intros H; [ reflexivity | ].
  cbn [flat_map]. rewrite (H k (or_introl eq_refl)), IH; [ reflexivity | ].
  intros k' Hk'; apply H; right; exact Hk'.
Qed.

(** The loop over the placeholder keys that completes, key by key. *)
Lemma consolidate_fold_fate : forall argLimit nameIndex todo orgs orgs',
  NoDup todo ->
  (forall k, In k todo -> is_placeholder k = true) ->
  (forall k, In k todo -> dget orgs k <> None) ->
  foldM (consolidateStep argLimit nameIndex) todo orgs = Ok orgs' ->
  (forall p org, In p todo -> dget orgs p = Some org ->
                 dget orgs' p = match realMatch nameIndex org with
                                | Some _ => None
                                | None => Some org
                                end) /\
  (forall q, ~ In q todo -> is_placeholder q = true -> dget orgs' q = dget orgs q) /\
  (forall q, is_placeholder q = false ->
             dget orgs' q
             = option_map (fun o => extend_received o (movedFrom nameIndex orgs todo q))
                          (dget orgs q)).
Proof.
  intros lim idx; induction todo as [ | p rest IH ]; cbn [foldM];
    intros orgs orgs' ND Hph Hin H.
  - injection H as <-. repeat split; auto; try (intros ? ? []).
    intros q _; apply extend_nothing.
  - inversion ND as [ | ? ? Hnot ND' ]; subst.
    destruct (dget orgs p) as [org | ] eqn:Ep;
      [ | exfalso; apply (Hin p); [ left; reflexivity | exact Ep ] ].
    destruct (consolidateStep lim idx orgs p) as [orgs1 | e] eqn:E1; cbn [bind] in H;
      [ | discriminate H ].
    destruct (consolidateStep_fate lim idx orgs p org orgs1 Ep
                (Hph p (or_introl eq_refl)) E1) as [Fp [Fother Freal]].
    assert (Hrest : forall k, In k rest -> dget orgs1 k = dget orgs k).
    { intros k Hk. apply Fother; [ intros ->; contradiction | apply Hph; right; exact Hk ]. }
    destruct (IH orgs1 orgs' ND') as [Gtodo [Gother Greal]]; [ | | exact H | ].
    + intros k Hk; apply Hph; right; exact Hk.
    + intros k Hk. rewrite (Hrest k Hk). apply Hin; right; exact Hk.
    + split; [ | split ].
      * intros q o [<- | Hq] Ho.
        -- rewrite Ep in Ho; injection Ho as <-.
           rewrite Gother; [ exact Fp | exact Hnot | apply Hph; left; reflexivity ].
        -- apply Gtodo; [ exact Hq | ]. rewrite (Hrest q Hq); exact Ho.
      * intros q Hq Hqp. rewrite Gother; [ | intros C; apply Hq; right; exact C | exact Hqp ].
        apply Fother; [ intros ->; apply Hq; left; reflexivity | exact Hqp ].
      * intros q Hq. rewrite (Greal q Hq), (Freal q Hq).
        rewrite (movedFrom_ext idx orgs orgs1 rest q Hrest).
        unfold movedFrom at 2; cbn [flat_map]; fold (movedFrom idx orgs rest q).
        rewrite Ep.
        destruct (dget orgs q); cbn [option_map]; [ | reflexivity ].
        rewrite extend_received_twice; reflexivity.
Qed.

(** The loop completes when no placeholder holds more entries than a call
    takes arguments. *)
Lemma consolidate_fold_returns : forall argLimit nameIndex todo orgs,
  NoDup todo ->
  (forall k, In k todo -> is_placeholder k = true) ->
  (forall k, In k todo -> dget orgs k <> None) ->
  (forall k org, In k todo -> dget orgs k = Some org ->
                 List.length (grantsReceived org) <= argLimit) ->
  exists orgs', foldM (consolidateStep argLimit nameIndex) todo orgs = Ok orgs'.
Proof.
  intros lim idx; induction todo as [ | p rest IH ]; cbn [foldM];
    intros orgs ND Hph Hin Hfit; [ eauto | ].
  inversion ND as [ | ? ? Hnot ND' ]; subst.
  destruct (dget orgs p) as [org | ] eqn:Ep;
    [ | exfalso; apply (Hin p); [ left; reflexivity | exact Ep ] ].
  assert (R : exists orgs1, consolidateStep lim idx orgs p = Ok orgs1).
  { unfold consolidateStep, push_spread; rewrite Ep.
    pose proof (Hfit p org (or_introl eq_refl) Ep) as Hle.
    apply Nat.ltb_ge in Hle. rewrite Hle.
    repeat (split_match; cbn [bind]; eauto). }
  destruct R as [orgs1 E1]. rewrite E1; cbn [bind].
  destruct (consolidateStep_fate lim idx orgs p org orgs1 Ep
              (Hph p (or_introl eq_refl)) E1) as [_ [Fother _]].
  assert (Hrest : forall k, In k rest -> dget orgs1 k = dget orgs k).
  { intros k Hk. apply Fother; [ intros ->; contradiction | apply Hph; right; exact Hk ]. }
  apply IH; [ exact ND' | | | ].
  - intros k Hk; apply Hph; right; exact Hk.
  - intros k Hk. rewrite (Hrest k Hk). apply Hin; right; exact Hk.
  - intros k o Hk Ho. rewrite (Hrest k Hk) in Ho. apply (Hfit k o); [ right | ]; assumption.
Qed.

Example consolidatePlaceholders_acme :
  consolidatePlaceholders 4096 acmeDataset =
  Ok (mkDataset []
        [ ("E1",
           mkOrganization "E1" "ACME"
             [ mkReceived "F2" "Foundation Two" (num 500) (num 2023);
               mkReceived "F1" "Foundation One" (num 1000) (num 2023) ] None) ]
        (mkDatasetMetadata 2 2 "2024-01-01T00:00:00.000Z")).
Proof. reflexivity. Qed.

(** With no room for even one argument the same merge throws. *)
Example consolidatePlaceholders_throws :
  consolidatePlaceholders 0 acmeDataset
  = Throw (RangeError "Maximum call stack size exceeded").
Proof. reflexivity. Qed.

(** C3. On every dataset (a dictionary has distinct keys) the consolidation
    pass completes unless the spread call [push(...org.grantsReceived)] runs
    out of room: it completes whenever no placeholder holds more received
    entries than a call takes arguments.  Whenever it completes, the sum of
    grantsReceived.length over the organizations is unchanged, the received
    entries after the pass are those before it, rearranged (none duplicated,
    none dropped), and the foundations and the metadata are not touched.
    Entry by entry: a placeholder is deleted exactly when it has a real
    match, which is then one key of the dataset that is not a placeholder,
    and its entries go to that key and to no other; a placeholder without a
    match stays as it was; and an organization under a key that is not a
    placeholder ends with its own entries followed by those of the
    placeholders matched to it, in the order of their keys. *)
Theorem consolidation_preserves_grants :
  forall argLimit dataset,
    NoDup (keys (organizations dataset)) ->
    let nameIndex := buildNameToEINIndex dataset in
    let placeholderKeys := filter is_placeholder (keys (organizations dataset)) in
    ((forall p org,
        dget (organizations dataset) p = Some org -> is_placeholder p = true ->
        List.length (grantsReceived org) <= argLimit) ->
     exists dataset', consolidatePlaceholders argLimit dataset = Ok dataset') /\
    (forall dataset',
       consolidatePlaceholders argLimit dataset = Ok dataset' ->
       totalReceived (organizations dataset') = totalReceived (organizations dataset) /\
       Permutation (allReceived (organizations dataset'))
                   (allReceived (organizations dataset)) /\
       foundations dataset' = foundations dataset /\
       metadata dataset' = metadata dataset /\
       (forall p org,
          dget (organizations dataset) p = Some org -> is_placeholder p = true ->
          match realMatch nameIndex org with
          | Some realEIN =>
              dget (organizations dataset') p = None /\
              is_placeholder realEIN = false /\
              In realEIN (keys (organizations dataset)) /\
              (forall q, goesTo nameIndex org q = true <-> q = realEIN)
          | None =>
              dget (organizations dataset') p = Some org /\
              (forall q, goesTo nameIndex org q = false)
          end) /\
       (forall q real,
          dget (organizations dataset) q = Some real -> is_placeholder q = false ->
          dget (organizations dataset') q
          = Some (extend_received real
                    (movedFrom nameIndex (organizations dataset) placeholderKeys q)))).
Proof.
  intros lim dataset ND idx todo.
  assert (NDt : NoDup todo) by (apply NoDup_filter; exact ND).
  assert (Hph : forall k, In k todo -> is_placeholder k = true)
    by (intros k Hk; apply filter_In in Hk; tauto).
  assert (Hkeys : forall k, In k todo -> In k (keys (organizations dataset)))
    by (intros k Hk; apply filter_In in Hk; tauto).
  assert (Hin : forall k, In k todo -> dget (organizations dataset) k <> None)
    by (intros k Hk; apply dget_keys, Hkeys; exact Hk).
  split.
  - intros Hfit. unfold consolidatePlaceholders. fold idx todo.
    destruct (consolidate_fold_returns lim idx todo (organizations dataset) NDt Hph Hin)
      as [orgs' E].
    + intros k org Hk Ho. apply (Hfit k org Ho). apply Hph; exact Hk.
    + rewrite E; cbn [bind]; eauto.
  - intros dataset' H. unfold consolidatePlaceholders in H. fold idx todo in H.
    destruct (foldM (consolidateStep lim idx) todo (organizations dataset))
      as [orgs' | e] eqn:E; cbn [bind] in H; [ | discriminate H ].
    injection H as <-; cbn [organizations foundations metadata].
    assert (P : Permutation (allReceived orgs') (allReceived (organizations dataset))).
    { apply (consolidate_fold lim idx todo (organizations dataset) orgs' NDt Hph Hkeys ND);
        [ | exact E ].
      intros n l ein Hg He _; eapply buildNameToEINIndex_members; eauto. }
    destruct (consolidate_fold_fate lim idx todo (organizations dataset) orgs'
                NDt Hph Hin E) as [Ftodo [_ Freal]].
    split; [ | split; [ exact P | split; [ reflexivity | split; [ reflexivity | split ] ] ] ].
    + unfold totalReceived. rewrite !dsum_length_dflat.
      apply Permutation_length; exact P.
    + intros p org Hp Hpp.
      assert (Hpt : In p todo)
        by (apply filter_In; split; [ apply dget_keys; congruence | exact Hpp ]).
      pose proof (Ftodo p org Hpt Hp) as Fp.
      unfold goesTo. unfold realMatch in *.
      destruct (map_get idx (normalizeOrgName (o_name org))) as [matches | ] eqn:Em;
        [ | split; [ exact Fp | reflexivity ] ].
      destruct (find (fun ein => negb (startsWith ein "no_ein_")) matches)
        as [realEIN | ] eqn:F; [ | split; [ exact Fp | reflexivity ] ].
      destruct (String.eqb realEIN "") eqn:Ee; [ split; [ exact Fp | reflexivity ] | ].
      apply find_some in F. destruct F as [Hm Hreal]. apply negb_true_iff in Hreal.
      split; [ exact Fp | split; [ exact Hreal | split ] ].
      * eapply buildNameToEINIndex_members; [ exact Em | exact Hm ].
      * intros q. rewrite String.eqb_eq. split; intros C; symmetry; exact C.
    + intros q real Hq Hqp. rewrite (Freal q Hqp), Hq; reflexivity.
Qed.

Lemma consolidation_preserves_grants_witness :
  let nameIndex := buildNameToEINIndex acmeDataset in
  let placeholderKeys := filter is_placeholder (keys (organizations acmeDataset)) in
  ((forall p org,
      dget (organizations acmeDataset) p = Some org -> is_placeholder p = true ->
      List.length (grantsReceived org) <= 4096) ->
   exists dataset', consolidatePlaceholders 4096 acmeDataset = Ok dataset') /\
  (forall dataset',
     consolidatePlaceholders 4096 acmeDataset = Ok dataset' ->
     totalReceived (organizations dataset') = totalReceived (organizations acmeDataset) /\
     Permutation (allReceived (organizations dataset'))
                 (allReceived (organizations acmeDataset)) /\
     foundations dataset' = foundations acmeDataset /\
     metadata dataset' = metadata acmeDataset /\
     (forall p org,
        dget (organizations acmeDataset) p = Some org -> is_placeholder p = true ->
        match realMatch nameIndex org with
        | Some realEIN =>
            dget (organizations dataset') p = None /\
            is_placeholder realEIN = false /\
            In realEIN (keys (organizations acmeDataset)) /\
            (forall q, goesTo nameIndex org q = true <-> q = realEIN)
        | None =>
            dget (organizations dataset') p = Some org /\
            (forall q, goesTo nameIndex org q = false)
        end) /\
     (forall q real,
        dget (organizations acmeDataset) q = Some real -> is_placeholder q = false ->
        dget (organizations dataset') q
        = Some (extend_received real
                  (movedFrom nameIndex (organizations acmeDataset) placeholderKeys q)))).
Proof.
  apply (consolidation_preserves_grants 4096 acmeDataset).
  repeat constructor; cbn; intuition discriminate.
Defined.

(* --------------------------------------------------------------------- *)
(** ** The network builders: nodes and links only accumulate *)
(* --------------------------------------------------------------------- *)

Lemma linked_incl : forall ls ls' a b,
  incl ls ls' -> linked ls a b -> linked ls' a b.
Proof.
  intros ls ls' a b Hi [l [Hl He]]; exists l; split; [ apply Hi; exact Hl | exact He ].
Qed.

Lemma justified_mono : forall c ns ns' ls ls' n,
  incl ns ns' -> incl ls ls' -> justified c ns ls n -> justified c ns' ls' n.
Proof.
  unfold justified; intros c ns ns' ls ls' n Hn Hl H.
  destruct (n_type n).
  - destruct H as [g [Hg [H1 H2]]]. exists g. repeat split.
    + apply (incl_map n_id Hn); exact Hg.
    + eapply linked_incl; eauto.
    + eapply linked_incl; eauto.
  - eapply linked_incl; eauto.
Qed.

Lemma extends_refl : forall c st, extends c st st.
Proof.
  intros c st; exists [], []; rewrite !app_nil_r; auto.
Qed.

Lemma extends_trans : forall c st1 st2 st3,
  extends c st1 st2 -> extends c st2 st3 -> extends c st1 st3.
Proof.
  intros c st1 st2 st3 [n1 [l1 [Hn1 [Hl1 F1]]]] [n2 [l2 [Hn2 [Hl2 F2]]]].
  exists (n1 ++ n2), (l1 ++ l2).
  rewrite Hn2, Hn1, Hl2, Hl1, <- !app_assoc. repeat split.
  apply Forall_app; split.
  - eapply Forall_impl; [ | exact F1 ].
    intros n [Hc Hj]; split; [ exact Hc | ].
    rewrite !app_assoc, <- Hn1, <- Hl1.
    eapply justified_mono; [ | | exact Hj ]; apply incl_appl, incl_refl.
  - rewrite !app_assoc, <- Hn1, <- Hl1, <- Hn2, <- Hl2. exact F2.
Qed.


Lemma set_has_set_add : forall s k k',
  set_has (set_add s k) k' = set_has s k' || String.eqb k' k.
Proof.
  intros s k k'; unfold set_add.
  destruct (set_has s k) eqn:E.
  - destruct (String.eqb k' k) eqn:E'.
    + apply String.eqb_eq in E'; subst k'; rewrite E; reflexivity.
    + rewrite orb_false_r; reflexivity.
  - unfold set_has; rewrite existsb_app; cbn [existsb]; rewrite orb_false_r; reflexivity.
Qed.

Lemma added_ok_push_node : forall st n, added_ok st -> added_ok (push_node st n).
Proof.
  unfold added_ok; intros st n H k; cbn [push_node st_added st_nodes].
  rewrite set_has_set_add, map_app, in_app_iff, orb_true_iff, H, String.eqb_eq.
  cbn [map In]; intuition.
Qed.

Lemma added_ok_push_links : forall st ls, added_ok st -> added_ok (push_links st ls).
Proof. unfold added_ok; intros st ls H k; exact (H k). Qed.

(** Pushing links alone extends a state. *)
Lemma extends_push_links : forall c st ls, extends c st (push_links st ls).
Proof.
  intros c st ls; exists [], ls; cbn [push_links st_nodes st_links];
    rewrite app_nil_r; auto.
Qed.

(** Pushing a node that is not central, then links that give it its place. *)
Lemma extends_push_node_links : forall c st n ls,
  central n = None ->
  justified c (st_nodes st ++ [n]) (st_links st ++ ls) n ->
  extends c st (push_links (push_node st n) ls).
Proof.
  intros c st n ls Hc Hj; exists [n], ls; cbn [push_links push_node st_nodes st_links].
  repeat split. constructor; [ split; assumption | constructor ].
Qed.

(** A loop whose every round extends the state, under an invariant [G]. *)
Lemma fold_left_extends : forall (A : Type) c (G : NetState -> Prop)
    (step : NetState -> A -> NetState) l st,
  (forall st x, In x l -> G st -> extends c st (step st x) /\ G (step st x)) ->
  G st ->
  extends c st (fold_left step l st) /\ G (fold_left step l st).
Proof.
  intros A c G step; induction l as [ | x r IH ]; cbn [fold_left]; intros st Hs HG.
  - split; [ apply extends_refl | exact HG ].
  - destruct (Hs st x (or_introl eq_refl) HG) as [E1 G1].
    destruct (IH (step st x)) as [E2 G2]; [ | exact G1 | ].
    + intros st' y Hy; apply Hs; right; exact Hy.
    + split; [ eapply extends_trans; eauto | exact G2 ].
Qed.

Lemma foldM_extends : forall (A : Type) c (G : NetState -> Prop)
    (step : NetState -> A -> result NetState) l st st',
  (forall st x st', In x l -> G st -> step st x = Ok st' -> extends c st st' /\ G st') ->
  G st ->
  foldM step l st = Ok st' ->
  extends c st st' /\ G st'.
Proof.
  intros A c G step; induction l as [ | x r IH ]; cbn [foldM]; intros st st' Hs HG H.
  - injection H as <-; split; [ apply extends_refl | exact HG ].
  - destruct (step st x) as [st1 | e] eqn:E; cbn [bind] in H; [ | discriminate H ].
    destruct (Hs st x st1 (or_introl eq_refl) HG E) as [E1 G1].
    destruct (IH st1 st') as [E2 G2]; [ | exact G1 | exact H | ].
    + intros s y s' Hy; apply Hs; right; exact Hy.
    + split; [ eapply extends_trans; eauto | exact G2 ].
Qed.

Lemma addOtherFunder_extends : forall dataset c skipEIN granteeId st grant,
  funders_ready c granteeId st ->
  extends c st (addOtherFunder dataset skipEIN granteeId st grant) /\
  funders_ready c granteeId (addOtherFunder dataset skipEIN granteeId st grant).
Proof.
  intros dataset c skipEIN gid st grant [Hok [Hid Hl]]; unfold addOtherFunder.
  destruct (String.eqb (funderEIN grant) skipEIN).
  { split; [ apply extends_refl | split; [ | split ]; assumption ]. }
  destruct (set_has (st_added st) (funderEIN grant)) eqn:E.
  - split; [ apply extends_push_links | ].
    split; [ exact Hok | split; [ exact Hid | ] ].
    cbn [push_links st_links].
    eapply linked_incl; [ apply incl_appl, incl_refl | exact Hl ].
  - split.
    + apply extends_push_node_links; [ reflexivity | ].
      unfold justified; cbn [n_type n_id]. exists gid. split; [ | split ].
      * rewrite map_app; apply in_or_app; left; exact Hid.
      * eexists; split; [ apply in_or_app; right; left; reflexivity | ].
        cbn [source target]; auto.
      * eapply linked_incl; [ apply incl_appl, incl_refl | exact Hl ].
    + split; [ | split ].
      * apply added_ok_push_links, added_ok_push_node; exact Hok.
      * cbn [push_links push_node st_nodes]; rewrite map_app; apply in_or_app; left; exact Hid.
      * cbn [push_links push_node st_links].
        eapply linked_incl; [ apply incl_appl, incl_refl | exact Hl ].
Qed.

Lemma addOtherFunder_fold : forall dataset c skipEIN granteeId received st,
  funders_ready c granteeId st ->
  extends c st (fold_left (addOtherFunder dataset skipEIN granteeId) received st) /\
  funders_ready c granteeId
    (fold_left (addOtherFunder dataset skipEIN granteeId) received st).
Proof.
  intros dataset c skipEIN gid received st H.
  apply fold_left_extends; [ | exact H ].
  intros st' x _ H'; apply addOtherFunder_extends; exact H'.
Qed.

(** The links pushed for a non-empty group of grants give the grantee its
    central link. *)
Lemma linked_pushed : forall (A : Type) (mk : A -> Link) c granteeId ls group,
  (forall y, source (mk y) = c /\ target (mk y) = granteeId) ->
  group <> [] ->
  linked (ls ++ map mk group) c granteeId.
Proof.
  intros A mk c gid ls [ | y r ] Hmk Hne; [ contradiction | ].
  exists (mk y); split; [ apply in_or_app; right; left; reflexivity | apply Hmk ].
Qed.

(** One grantee: its node is pushed unless its id is known already, its
    central links are pushed, then the loop over its other funders runs. *)
Lemma grantee_round : forall dataset c skipEIN granteeId st node lnks received,
  added_ok st ->
  n_id node = granteeId ->
  central node = None ->
  n_type node = grantee ->
  linked (st_links st ++ lnks) c granteeId ->
  let st1 := if set_has (st_added st) granteeId then st else push_node st node in
  let st3 := fold_left (addOtherFunder dataset skipEIN granteeId) received
                       (push_links st1 lnks) in
  extends c st st3 /\ added_ok st3.
Proof.
  intros dataset c skipEIN gid st node lnks received Hok Hid Hc Hty Hl st1 st3.
  assert (H2 : extends c st (push_links st1 lnks) /\
               funders_ready c gid (push_links st1 lnks)).
  { subst st1. destruct (set_has (st_added st) gid) eqn:E.
    - split; [ apply extends_push_links | ].
      split; [ exact Hok | split; [ apply Hok; exact E | exact Hl ] ].
    - split.
      + apply extends_push_node_links; [ exact Hc | ].
        unfold justified; rewrite Hty, Hid; exact Hl.
      + split; [ | split ].
        * apply added_ok_push_links, added_ok_push_node; exact Hok.
        * cbn [push_links push_node st_nodes]; rewrite map_app; apply in_or_app;
            right; left; exact Hid.
        * exact Hl. }
  destruct H2 as [E2 R2].
  destruct (addOtherFunder_fold dataset c skipEIN gid received _ R2) as [E3 [Hok3 _]].
  split; [ eapply extends_trans; eauto | exact Hok3 ].
Qed.

(* --------------------------------------------------------------------- *)
(** ** Groups of grants are never empty *)
(* --------------------------------------------------------------------- *)

Lemma Forall_dreplace : forall (V : Type) (P : string * V -> Prop) (d : dict V) k v,
  Forall P d -> (forall k', P (k', v)) -> Forall P (dreplace d k v).
Proof.
  intros V P; induction d as [ | [k0 v0] r IH ]; cbn [dreplace]; intros k v H Hv;
    [ constructor | ].
  inversion H; subst. destruct (String.eqb k0 k); constructor; auto.
Qed.

Lemma map_push_nonempty : forall (A : Type) (m : Map (list A)) k x,
  Forall (fun e => snd e <> []) m ->
  Forall (fun e => snd e <> []) (map_push m k x).
Proof.
  intros A m k x H; unfold map_push, map_set.
  destruct (map_get m k) as [l | ]; destruct (dhas m k).
  - apply Forall_dreplace; [ exact H | intros k'; cbn [snd]; destruct l; discriminate ].
  - apply Forall_app; split; [ exact H | ].
    constructor; [ destruct l; discriminate | constructor ].
  - apply Forall_dreplace; [ exact H | intros k'; discriminate ].
  - apply Forall_app; split; [ exact H | ].
    constructor; [ discriminate | constructor ].
Qed.

Lemma fold_map_push_nonempty : forall (A B : Type) (key : B -> string) (val : B -> A)
    (l : list B) (m : Map (list A)),
  Forall (fun e => snd e <> []) m ->
  Forall (fun e => snd e <> [])
         (fold_left (fun m x => map_push m (key x) (val x)) l m).
Proof.
  intros A B key val; induction l as [ | x r IH ]; cbn [fold_left]; intros m H;
    [ exact H | ].
  apply IH, map_push_nonempty; exact H.
Qed.

Lemma groupByName_nonempty : forall grants e,
  In e (groupByName grants) -> snd e <> [].
Proof.
  intros grants e He.
  pose proof (fold_map_push_nonempty _ _
                (fun g => lowerTrim (organization g))
                (fun g => mkYearAmount (c_amount g) (c_year g)) grants []
                (Forall_nil _)) as H.
  rewrite Forall_forall in H; apply H; exact He.
Qed.

Lemma groupByRecipient_nonempty : forall dataset nameIndex grants e,
  In e (groupByRecipient dataset nameIndex grants) -> snd e <> [].
Proof.
  intros dataset idx grants e He.
  pose proof (fold_map_push_nonempty _ _
                (resolveRecipient dataset idx) (fun g => g) grants []
                (Forall_nil _)) as H.
  rewrite Forall_forall in H; apply H; exact He.
Qed.

(** A name in [hlfGranteeNames] has its group in [hlfGrantsByOrg]. *)
Lemma names_grouped_fold : forall grants (s : StrSet) (m : Map (list YearAmount)),
  (forall n, set_has s n = true -> map_get m n <> None) ->
  forall n,
    set_has (fold_left (fun s g => set_add s (lowerTrim (organization g))) grants s) n = true ->
    map_get (fold_left (fun m g => map_push m (lowerTrim (organization g))
                                     (mkYearAmount (c_amount g) (c_year g)))
                       grants m) n <> None.
Proof.
  induction grants as [ | g r IH ]; cbn [fold_left]; intros s m H; [ exact H | ].
  apply IH. intros n Hn.
  rewrite set_has_set_add in Hn. rewrite map_get_map_push.
  destruct (String.eqb (lowerTrim (organization g)) n) eqn:E; [ discriminate | ].
  apply orb_prop in Hn. destruct Hn as [Hn | Hn]; [ apply H; exact Hn | ].
  rewrite String.eqb_sym, E in Hn; discriminate Hn.
Qed.

Lemma granteeNames_grouped : forall grants n,
  set_has (granteeNames grants) n = true ->
  exists group, map_get (groupByName grants) n = Some group /\ group <> [].
Proof.
  intros grants n Hn.
  pose proof (names_grouped_fold grants [] [] (fun n H => ltac:(discriminate H)) n Hn) as H.
  fold (groupByName grants) in H.
  destruct (map_get (groupByName grants) n) as [group | ] eqn:E; [ | contradiction ].
  exists group; split; [ reflexivity | ].
  apply dget_In in E. apply (groupByName_nonempty grants (n, group) E).
Qed.

(* --------------------------------------------------------------------- *)
(** ** The two layers around the central node *)
(* --------------------------------------------------------------------- *)

Lemma addUnmatchedGrantee_extends : forall unmatched st e st',
  snd e <> [] ->
  added_ok st ->
  addUnmatchedGrantee unmatched st e = Ok st' ->
  extends hlfId st st' /\ added_ok st'.
Proof.
  intros unmatched st [normalizedName grants] st' Hne Hok H.
  unfold addUnmatchedGrantee in H.
  destruct (find _ unmatched) as [g | ]; [ | discriminate H ].
  injection H as <-. split.
  - apply extends_push_node_links; [ reflexivity | ].
    unfold justified; cbn [n_type n_id].
    apply linked_pushed; [ intros y; split; reflexivity | exact Hne ].
  - apply added_ok_push_links, added_ok_push_node; exact Hok.
Qed.

Lemma addMatchedGrantee_extends : forall dataset allHLFGrantees st e,
  added_ok st ->
  extends hlfId st
    (addMatchedGrantee dataset (granteeNames allHLFGrantees)
                       (groupByName allHLFGrantees) st e) /\
  added_ok (addMatchedGrantee dataset (granteeNames allHLFGrantees)
                              (groupByName allHLFGrantees) st e).
Proof.
  intros dataset gs st [orgEIN org] Hok; unfold addMatchedGrantee.
  destruct (set_has (granteeNames gs) (lowerTrim (o_name org))) eqn:E;
    [ | split; [ apply extends_refl | exact Hok ] ].
  destruct (granteeNames_grouped gs _ E) as [group [Hg Hne]]. rewrite Hg.
  apply grantee_round; try reflexivity; [ exact Hok | ].
  apply linked_pushed; [ intros y; split; reflexivity | exact Hne ].
Qed.

Lemma addGrantee_extends : forall dataset centralEIN centralName st e st',
  snd e <> [] ->
  added_ok st ->
  addGrantee dataset centralEIN centralName st e = Ok st' ->
  extends centralEIN st st' /\ added_ok st'.
Proof.
  intros dataset c cname st [recipientEIN grants] st' Hne Hok H.
  cbn [snd] in Hne. unfold addGrantee in H.
  assert (Hl : linked (st_links st ++ map (centralLink c recipientEIN) grants)
                      c recipientEIN)
    by (apply linked_pushed; [ intros y; split; reflexivity | exact Hne ]).
  destruct (set_has (st_added st) recipientEIN) eqn:Ehas; cbn [bind] in H.
  - injection H as <-.
    destruct (dget (organizations dataset) recipientEIN) as [org | ].
    + pose proof (grantee_round dataset c c recipientEIN st
                    (mkNode recipientEIN EmptyString grantee None None None None None)
                    (map (centralLink c recipientEIN) grants) (grantsReceived org)
                    Hok eq_refl eq_refl eq_refl Hl) as R.
      cbv zeta in R. rewrite Ehas in R. exact R.
    + pose proof (grantee_round dataset c c recipientEIN st
                    (mkNode recipientEIN EmptyString grantee None None None None None)
                    (map (centralLink c recipientEIN) grants) []
                    Hok eq_refl eq_refl eq_refl Hl) as R.
      cbv zeta in R. rewrite Ehas in R. exact R.
  - match type of H with
    | bind (bind ?nm _) _ = _ => destruct nm as [name | err] eqn:En
    end; cbn [bind] in H; [ | discriminate H ].
    injection H as <-.
    destruct (dget (organizations dataset) recipientEIN) as [org | ].
    + match goal with
      | |- context [push_node st ?n] =>
          pose proof (grantee_round dataset c c recipientEIN st n
                        (map (centralLink c recipientEIN) grants) (grantsReceived org)
                        Hok eq_refl eq_refl eq_refl Hl) as R
      end.
      cbv zeta in R. rewrite Ehas in R. exact R.
    + match goal with
      | |- context [push_node st ?n] =>
          pose proof (grantee_round dataset c c recipientEIN st n
                        (map (centralLink c recipientEIN) grants) []
                        Hok eq_refl eq_refl eq_refl Hl) as R
      end.
      cbv zeta in R. rewrite Ehas in R. exact R.
Qed.

Lemma added_ok_first : forall n, added_ok (push_node (mkNetState [] [] []) n).
Proof.
  intros n; apply added_ok_push_node. intros k; cbn; split; [ discriminate | intros [] ].
Qed.

(** The nodes after the central one, read off an extension of the state
    that holds the central node alone. *)
Lemma extends_from_central : forall c0 st,
  extends (n_id c0) (push_node (mkNetState [] [] []) c0) st ->
  exists rest,
    st_nodes st = c0 :: rest /\
    Forall (fun n => central n = None /\
                     justified (n_id c0) (st_nodes st) (st_links st) n) rest.
Proof.
  intros c0 st [moreN [moreL [Hn [_ F]]]]; exists moreN; split; [ exact Hn | exact F ].
Qed.

(** Both builders emit the central node first, and after it only nodes that
    are not central and have their place in the two layers. *)
Lemma network_shape : forall net,
  produced net ->
  exists c0 rest,
    nodes net = c0 :: rest /\
    central c0 = Some true /\
    Forall (fun n => central n = None /\
                     justified (n_id c0) (nodes net) (links net) n) rest.
Proof.
  intros net [[gs [dataset H]] | [dataset [centralEIN H]]].
  - unfold buildHLFNetwork in H.
    match type of H with
    | bind ?m _ = _ => destruct m as [st1 | e] eqn:E1
    end; cbn [bind] in H; [ | discriminate H ].
    injection H as <-; cbn [nodes links].
    apply (foldM_extends _ hlfId added_ok) in E1.
    + destruct E1 as [X1 Hok1].
      destruct (fold_left_extends _ hlfId added_ok
                  (addMatchedGrantee dataset (granteeNames gs) (groupByName gs))
                  (organizations dataset) st1) as [X2 _].
      * intros st x _ Hok; apply addMatchedGrantee_extends; exact Hok.
      * exact Hok1.
      * destruct (extends_from_central hlfCentralNode _ (extends_trans _ _ _ _ X1 X2))
          as [rest [Hn F]].
        exists hlfCentralNode, rest; auto.
    + intros st x st' Hx Hok Hs.
      eapply addUnmatchedGrantee_extends; eauto.
      eapply groupByName_nonempty; exact Hx.
    + apply added_ok_first.
  - unfold buildCustomEINNetwork in H.
    destruct (dget (foundations dataset) centralEIN) as [f | ]; [ | discriminate H ].
    match type of H with
    | bind ?m _ = _ => destruct m as [st1 | e] eqn:E1
    end; cbn [bind] in H; [ | discriminate H ].
    injection H as <-; cbn [nodes links].
    apply (foldM_extends _ centralEIN added_ok) in E1.
    + destruct E1 as [X1 _].
      match type of X1 with
      | extends _ (push_node _ ?c0) _ =>
          destruct (extends_from_central c0 _ X1) as [rest [Hn F]];
          exists c0, rest; auto
      end.
    + intros st x st' Hx Hok Hs.
      eapply addGrantee_extends; eauto.
      eapply groupByRecipient_nonempty; exact Hx.
    + apply added_ok_first.
Qed.


Example sampleNetwork_ids :
  map n_id (nodes sampleNetwork) = ["F"; "E1"; "X"; "E2"] /\
  map (fun l => (source l, target l)) (links sampleNetwork)
    = [("F", "E1"); ("F", "E1"); ("X", "E1"); ("F", "E2")].
Proof. split; reflexivity. Qed.

Example buildHLFNetwork_sample :
  exists net,
    buildHLFNetwork [ mkCuratedGrant "ACME " (num 5) (num 2020);
                      mkCuratedGrant "Other Org" (num 7) (num 2021) ]
                    sampleDataset = Ok net /\
    map n_id (nodes net) = ["hlf"; "hlf_grantee_other_org"; "E2"; "F"] /\
    map (fun l => (source l, target l)) (links net)
      = [("hlf", "hlf_grantee_other_org"); ("hlf", "E2"); ("F", "E2")].
Proof. eexists; repeat split. Qed.

(** C1. In every network produced by buildHLFNetwork or by
    buildCustomEINNetwork the first node is the central node, with central =
    true, no node after it carries the flag, and so exactly one node of the
    nodes array has central = true. *)
Theorem exactly_one_central_node :
  forall net,
    produced net ->
    exists c0 rest,
      nodes net = c0 :: rest /\
      central c0 = Some true /\
      Forall (fun n => central n <> Some true) rest /\
      List.length (filter is_central (nodes net)) = 1.
Proof.
  intros net H. destruct (network_shape net H) as [c0 [rest [Hn [Hc F]]]].
  exists c0, rest. split; [ exact Hn | split; [ exact Hc | split ] ].
  - eapply Forall_impl; [ | exact F ]. intros n [E _]; rewrite E; discriminate.
  - rewrite Hn; cbn [filter]. unfold is_central at 1; rewrite Hc; cbn [List.length].
    f_equal. clear Hn. induction F as [ | n r [E _] _ IH ]; [ reflexivity | ].
    cbn [filter]; unfold is_central at 1; rewrite E; exact IH.
Qed.

Lemma exactly_one_central_node_witness :
  exists c0 rest,
    nodes sampleNetwork = c0 :: rest /\
    central c0 = Some true /\
    Forall (fun n => central n <> Some true) rest /\
    List.length (filter is_central (nodes sampleNetwork)) = 1.
Proof.
  apply (exactly_one_central_node sampleNetwork).
  right; exists sampleDataset, "F"; reflexivity.
Defined.

(** C2. In every network produced by either builder, every node other than
    the central one has its place in the two layers: a grantee node is the
    target of a link from the central node, a funder node has a link to an
    emitted node that is the target of a link from the central node; hence
    every such node is within two hops of the central node along emitted
    links, and no node outside the two layers is emitted. *)
Theorem two_layer_ego_graph :
  forall net n,
    produced net ->
    In n (nodes net) ->
    central n <> Some true ->
    justified (centralId net) (nodes net) (links net) n /\
    within_two_hops (links net) (centralId net) (n_id n).
Proof.
  intros net n H Hin Hnc. destruct (network_shape net H) as [c0 [rest [Hn [Hc F]]]].
  unfold centralId; rewrite Hn in *; cbn [In] in Hin.
  destruct Hin as [<- | Hin]; [ contradiction | ].
  rewrite Forall_forall in F. destruct (F n Hin) as [_ J].
  split; [ exact J | ].
  unfold justified in J; unfold within_two_hops, hop.
  destruct (n_type n).
  - destruct J as [g [_ [H1 H2]]]. right; exists g; auto.
  - left; left; exact J.
Qed.

Lemma two_layer_ego_graph_witness :
  justified (centralId sampleNetwork) (nodes sampleNetwork) (links sampleNetwork)
            sampleFunderNode /\
  within_two_hops (links sampleNetwork) (centralId sampleNetwork) (n_id sampleFunderNode).
Proof.
  apply (two_layer_ego_graph sampleNetwork sampleFunderNode).
  - right; exists sampleDataset, "F"; reflexivity.
  - cbn; right; right; left; reflexivity.
  - discriminate.
Defined.

(* --------------------------------------------------------------------- *)
(** ** The links of the central foundation's grants *)
(* --------------------------------------------------------------------- *)

Lemma gflat_dreplace : forall (A : Type) (m : Map (list A)) k l x,
  dget m k = Some l ->
  Permutation (gflat (dreplace m k (l ++ [x]))) (gflat m ++ [(k, x)]).
Proof.
  intros A; induction m as [ | [k0 l0] r IH ]; cbn [dget dreplace]; intros k l x H;
    [ discriminate H | ].
  destruct (String.eqb k0 k) eqn:E.
  - apply String.eqb_eq in E; subst k0; injection H as ->.
    unfold gflat; cbn [flat_map fst snd]. rewrite map_app, <- !app_assoc.
    apply Permutation_app_head. cbn [map]. apply Permutation_app_comm.
  - unfold gflat in *; cbn [flat_map fst snd]. rewrite <- app_assoc.
    apply Permutation_app_head, IH; exact H.
Qed.

Lemma gflat_map_push : forall (A : Type) (m : Map (list A)) k x,
  Permutation (gflat (map_push m k x)) (gflat m ++ [(k, x)]).
Proof.
  intros A m k x; unfold map_push, map_set, map_get, dhas.
  destruct (dget m k) as [l | ] eqn:E.
  - apply gflat_dreplace; exact E.
  - unfold gflat; rewrite flat_map_app; cbn [flat_map fst snd map app].
    apply Permutation_refl.
Qed.

(** Grouping keeps every grant once, with the recipient id resolved for it. *)
Lemma gflat_groupByRecipient : forall dataset nameIndex grants,
  Permutation (gflat (groupByRecipient dataset nameIndex grants))
              (map (fun g => (resolveRecipient dataset nameIndex g, g)) grants).
Proof.
  intros dataset idx grants; unfold groupByRecipient.
  change (map (fun g => (resolveRecipient dataset idx g, g)) grants)
    with (gflat (@nil (string * list Grant)) ++
          map (fun g => (resolveRecipient dataset idx g, g)) grants).
  generalize (@nil (string * list Grant)) as m.
  induction grants as [ | g r IH ]; cbn [fold_left map]; intros m.
  - rewrite app_nil_r; apply Permutation_refl.
  - rewrite IH. rewrite gflat_map_push, <- app_assoc. apply Permutation_refl.
Qed.

Lemma centralLinks_app : forall a b,
  centralLinks (a ++ b) = centralLinks a ++ centralLinks b.
Proof. intros a b; apply filter_app. Qed.

Lemma centralLinks_addOtherFunder : forall dataset skipEIN granteeId st grant,
  centralLinks (st_links (addOtherFunder dataset skipEIN granteeId st grant))
  = centralLinks (st_links st).
Proof.
  intros dataset skipEIN gid st grant; unfold addOtherFunder.
  destruct (String.eqb (funderEIN grant) skipEIN); [ reflexivity | ].
  destruct (set_has (st_added st) (funderEIN grant));
    cbn [push_links push_node st_links]; rewrite centralLinks_app;
    cbn; apply app_nil_r.
Qed.

Lemma centralLinks_funders_fold : forall dataset skipEIN granteeId received st,
  centralLinks (st_links (fold_left (addOtherFunder dataset skipEIN granteeId) received st))
  = centralLinks (st_links st).
Proof.
  intros dataset skipEIN gid; induction received as [ | g r IH ]; cbn [fold_left];
    intros st; [ reflexivity | ].
  rewrite IH; apply centralLinks_addOtherFunder.
Qed.

Lemma centralLinks_map_centralLink : forall c k grants,
  centralLinks (map (centralLink c k) grants) = map (centralLink c k) grants.
Proof.
  intros c k; induction grants as [ | g r IH ]; [ reflexivity | ].
  cbn [map]; unfold centralLinks in *; cbn [filter is_central_link centralLink l_type].
  rewrite IH; reflexivity.
Qed.

(** One round of the loop over the groups pushes, as central links, one link
    per grant of the group, with the group's key as target. *)
Lemma centralLinks_addGrantee : forall dataset c centralName st e st',
  addGrantee dataset c centralName st e = Ok st' ->
  centralLinks (st_links st')
  = centralLinks (st_links st) ++ map (centralLink c (fst e)) (snd e).
Proof.
  intros dataset c cname st [k grants] st' H; cbn [fst snd]; unfold addGrantee in H.
  match type of H with
  | bind ?m _ = _ => destruct m as [st1 | err] eqn:E1
  end; cbn [bind] in H; [ | discriminate H ].
  assert (L1 : st_links st1 = st_links st).
  { destruct (set_has (st_added st) k).
    - injection E1 as <-; reflexivity.
    - match type of E1 with
      | bind ?nm _ = _ => destruct nm as [name | err]
      end; cbn [bind] in E1; [ | discriminate E1 ].
      injection E1 as <-; reflexivity. }
  injection H as <-.
  destruct (dget (organizations dataset) k) as [org | ].
  - rewrite centralLinks_funders_fold. cbn [push_links st_links].
    rewrite centralLinks_app, centralLinks_map_centralLink, L1; reflexivity.
  - cbn [push_links st_links].
    rewrite centralLinks_app, centralLinks_map_centralLink, L1; reflexivity.
Qed.

Lemma centralLinks_groups : forall dataset c centralName groups st st',
  foldM (addGrantee dataset c centralName) groups st = Ok st' ->
  centralLinks (st_links st')
  = centralLinks (st_links st) ++
    map (fun p => centralLink c (fst p) (snd p)) (gflat groups).
Proof.
  intros dataset c cname; induction groups as [ | e r IH ]; cbn [foldM]; intros st st' H.
  - injection H as <-; cbn; rewrite app_nil_r; reflexivity.
  - destruct (addGrantee dataset c cname st e) as [st1 | err] eqn:E; cbn [bind] in H;
      [ | discriminate H ].
    rewrite (IH _ _ H), (centralLinks_addGrantee _ _ _ _ _ _ E).
    unfold gflat; cbn [flat_map]; rewrite map_app, map_map, <- app_assoc; reflexivity.
Qed.

(** The central links of a network built for a custom EIN: one per grant of
    the central foundation, from the central id to the recipient id resolved
    for that grant. *)
Lemma buildCustomEINNetwork_centralLinks : forall dataset centralEIN net centralFoundation,
  buildCustomEINNetwork dataset centralEIN = Ok net ->
  dget (foundations dataset) centralEIN = Some centralFoundation ->
  Permutation
    (centralLinks (links net))
    (map (fun g => centralLink centralEIN
                     (resolveRecipient dataset (buildNameToEINIndex dataset) g) g)
         (grantsGiven centralFoundation)).
Proof.
  intros dataset c net f H Hf; unfold buildCustomEINNetwork in H; rewrite Hf in H.
  match type of H with
  | bind ?m _ = _ => destruct m as [st | err] eqn:E
  end; cbn [bind] in H; [ | discriminate H ].
  injection H as <-; cbn [links].
  rewrite (centralLinks_groups _ _ _ _ _ _ E); cbn [push_node st_links centralLinks filter app].
  rewrite (Permutation_map _ (gflat_groupByRecipient dataset
                                (buildNameToEINIndex dataset) (grantsGiven f))).
  rewrite map_map; cbn [fst snd]. apply Permutation_refl.
Qed.

(** C7, amended. In buildCustomEINNetwork, when a grant of the central
    foundation has no usable recipient EIN and the name index maps its
    normalized recipient name to exactly one organization key, the recipient
    id resolved for the grant is that key, the key of an organization of the
    dataset (a real EIN unless that organization is itself placeholder-keyed);
    the network has the link from the central id to that key with the
    grant's amount and year; and the central links of the network are
    exactly one link per grant of the central foundation, each with the id
    resolved for its grant as target. *)
Theorem unique_name_match_targets_organization :
  forall dataset centralEIN net centralFoundation grant ein,
    buildCustomEINNetwork dataset centralEIN = Ok net ->
    dget (foundations dataset) centralEIN = Some centralFoundation ->
    In grant (grantsGiven centralFoundation) ->
    lacksUsableEIN (recipientEIN grant) = true ->
    map_get (buildNameToEINIndex dataset) (normalizeOrgName (recipientName grant))
      = Some [ein] ->
    resolveRecipient dataset (buildNameToEINIndex dataset) grant = ein /\
    In ein (keys (organizations dataset)) /\
    In (centralLink centralEIN ein grant) (links net) /\
    Permutation
      (centralLinks (links net))
      (map (fun g => centralLink centralEIN
                       (resolveRecipient dataset (buildNameToEINIndex dataset) g) g)
           (grantsGiven centralFoundation)).
Proof.
  intros dataset c net f grant ein H Hf Hg Hlack Hidx.
  assert (R : resolveRecipient dataset (buildNameToEINIndex dataset) grant = ein)
    by (unfold resolveRecipient; rewrite Hlack, Hidx; reflexivity).
  pose proof (buildCustomEINNetwork_centralLinks _ _ _ _ H Hf) as P.
  split; [ exact R | split; [ | split; [ | exact P ] ] ].
  - eapply buildNameToEINIndex_members; [ exact Hidx | left; reflexivity ].
  - assert (I : In (centralLink c ein grant) (centralLinks (links net))).
    { eapply Permutation_in; [ symmetry; exact P | ].
      rewrite <- R.
      apply (in_map (fun g => centralLink c
                        (resolveRecipient dataset (buildNameToEINIndex dataset) g) g));
        exact Hg. }
    apply filter_In in I; tauto.
Qed.

Lemma unique_name_match_targets_organization_witness :
  resolveRecipient sampleDataset (buildNameToEINIndex sampleDataset) acmeGrant = "E2" /\
  In "E2" (keys (organizations sampleDataset)) /\
  In (centralLink "F" "E2" acmeGrant) (links sampleNetwork) /\
  Permutation
    (centralLinks (links sampleNetwork))
    (map (fun g => centralLink "F"
                     (resolveRecipient sampleDataset (buildNameToEINIndex sampleDataset) g) g)
         [ mkGrant "E1" "Shelter" (num 100) (num 2022) None None None;
           mkGrant "E1" "Shelter" (num 150) (num 2023) None None None;
           acmeGrant ]).
Proof.
  apply (unique_name_match_targets_organization sampleDataset "F" sampleNetwork
           (mkFoundation "F" "Central Foundation"
              [ mkGrant "E1" "Shelter" (num 100) (num 2022) None None None;
                mkGrant "E1" "Shelter" (num 150) (num 2023) None None None;
                acmeGrant ] None) acmeGrant "E2").
  - reflexivity.
  - reflexivity.
  - cbn; right; right; left; reflexivity.
  - reflexivity.
  - reflexivity.
Defined.

(** That dataset is what the dataset builder returns for the one record of
    the foundation F. *)
Example placeholderOnlyDataset_built :
  let d := buildBidirectionalDataset "2024-01-01T00:00:00.000Z"
             [ mkFunderRecord (Some "F") "Central Foundation" [acmeGrant] None ] in
  d = placeholderOnlyDataset /\
  forall argLimit, consolidatePlaceholders argLimit d = Ok placeholderOnlyDataset.
Proof. split; [ reflexivity | intros argLimit; reflexivity ]. Qed.

(** C7, as stated, fails: the index maps the normalized name of a grant
    without EIN to exactly one organization key, and the link of the grant
    has a placeholder id as target, the very id that would be minted from
    the name. *)
Lemma sole_match_may_be_placeholder :
  ~ (forall net,
       buildCustomEINNetwork placeholderOnlyDataset "F" = Ok net ->
       lacksUsableEIN (recipientEIN acmeGrant) = true ->
       map_get (buildNameToEINIndex placeholderOnlyDataset)
               (normalizeOrgName (recipientName acmeGrant)) = Some ["no_ein_acme"] ->
       forall l, In l (centralLinks (links net)) ->
                 is_placeholder (target l) = false /\
                 target l <> ("no_ein_" ++ normalizeOrgName (recipientName acmeGrant))%string).
Proof.
  intro H.
  specialize (H _ eq_refl eq_refl eq_refl
                (centralLink "F" "no_ein_acme" acmeGrant) (or_introl eq_refl)).
  destruct H as [H _]. discriminate H.
Qed.

(* --------------------------------------------------------------------- *)
(** ** The streaming serializer *)
(* --------------------------------------------------------------------- *)

(** On a dataset whose keys need no escaping the text written parses, with
    the three members in order. *)
Example streamDatasetToFile_sample_parses :
  exists fs orgs md,
    JSON_parse (written (streamDatasetToFile sampleDataset))
    = Some (JObj [ ("foundations", JObj fs); ("organizations", JObj orgs);
                   ("metadata", md) ]) /\
    map fst fs = ["F"; "X"] /\ map fst orgs = ["E1"; "E2"].
Proof. vm_compute. do 3 eexists. repeat split. Qed.

(** C5 at its failing input: the key is written between quotes as it is,
    while the value goes through JSON.stringify; the value alone parses back
    with the quote in its ein, the text of the whole file does not parse. *)
Theorem streamDatasetToFile_unescaped_key :
  JSON_parse (stringify_Foundation (mkFoundation quoteKey "F" [] None))
    = Some (JObj [ ("ein", JStr quoteKey); ("name", JStr "F");
                   ("grantsGiven", JArr []) ]) /\
  JSON_parse (written (streamDatasetToFile quoteKeyDataset)) = None.
Proof. split; vm_compute; reflexivity. Qed.

(* --------------------------------------------------------------------- *)
(** ** The builders return *)
(* --------------------------------------------------------------------- *)

Lemma In_dreplace : forall (V : Type) (d : dict V) k v e,
  In e (dreplace d k v) -> In (fst e) (keys d).
Proof.
  intros V d k v e H. rewrite <- (keys_dreplace d k v).
  unfold keys; apply in_map; exact H.
Qed.

(** Every group of [groupByName] is keyed by the normalized name of one of
    the grants. *)
Lemma groupByName_keys : forall grants e,
  In e (groupByName grants) ->
  exists g, In g grants /\ lowerTrim (organization g) = fst e.
Proof.
  intros grants e; unfold groupByName.
  assert (G : forall l (m : Map (list YearAmount)),
             (forall e, In e m -> exists g, In g grants /\ lowerTrim (organization g) = fst e) ->
             incl l grants ->
             forall e,
               In e (fold_left (fun m g => map_push m (lowerTrim (organization g))
                                             (mkYearAmount (c_amount g) (c_year g))) l m) ->
               exists g, In g grants /\ lowerTrim (organization g) = fst e).
  { induction l as [ | g r IH ]; cbn [fold_left]; intros m Hm Hl; [ exact Hm | ].
    apply IH; [ | intros x Hx; apply Hl; right; exact Hx ].
    intros e' He'. unfold map_push, map_set in He'.
    assert (Hg : In g grants) by (apply Hl; left; reflexivity).
    assert (Hkeys : In (fst e') (keys m) -> exists g0, In g0 grants /\
                                            lowerTrim (organization g0) = fst e').
    { intros Hk; unfold keys in Hk; apply in_map_iff in Hk.
      destruct Hk as [e0 [E0 H0]]. destruct (Hm e0 H0) as [g0 [Hg0 E]].
      exists g0; split; [ exact Hg0 | congruence ]. }
    destruct (map_get m (lowerTrim (organization g))); destruct (dhas m _);
      try (apply In_dreplace in He'; apply Hkeys; exact He');
      (apply in_app_or in He'; destruct He' as [He' | [<- | []]];
       [ apply Hm; exact He' | exists g; split; [ exact Hg | reflexivity ] ]). }
  apply G; [ intros e' [] | apply incl_refl ].
Qed.

(** X21. buildHLFNetwork never throws: the grant that names an unmatched
    grantee, looked up with [find(...)!], is always found, because every key
    of unmatchedByOrg is the normalized name of an unmatched grant. *)
Lemma buildHLFNetwork_returns : forall allHLFGrantees dataset,
  exists net, buildHLFNetwork allHLFGrantees dataset = Ok net.
Proof.
  intros gs dataset; unfold buildHLFNetwork.
  set (unmatched := filter _ gs).
  assert (F : forall groups st,
             incl groups (groupByName unmatched) ->
             exists st', foldM (addUnmatchedGrantee unmatched) groups st = Ok st').
  { induction groups as [ | [n group] r IH ]; cbn [foldM]; intros st Hi; [ eauto | ].
    destruct (groupByName_keys unmatched (n, group)) as [g [Hg E]];
      [ apply Hi; left; reflexivity | ].
    unfold addUnmatchedGrantee at 1.
    destruct (find (fun g0 => String.eqb (lowerTrim (organization g0)) n) unmatched)
      as [g0 | ] eqn:Ef.
    - cbn [bind]. apply IH. intros x Hx; apply Hi; right; exact Hx.
    - apply (find_none _ _ Ef) in Hg. cbn [fst] in E.
      rewrite E, String.eqb_refl in Hg; discriminate Hg. }
  destruct (F (groupByName unmatched)
              (push_node (mkNetState [] [] []) hlfCentralNode) (incl_refl _)) as [st' E].
  rewrite E; cbn [bind]; eauto.
Qed.

(** X22. buildCustomEINNetwork returns a network whenever the central EIN is
    a key of the foundations: the read of [grants[0].recipientName] never
    fails, because no group of grantsByRecipient is empty.  When the central
    EIN is not a key of the foundations, and is not a name inherited from
    Object.prototype either, it throws the error Foundation with EIN ... not
    found in dataset. *)
Lemma buildCustomEINNetwork_returns : forall dataset centralEIN,
  (dget (foundations dataset) centralEIN <> None ->
   exists net, buildCustomEINNetwork dataset centralEIN = Ok net) /\
  (inherited centralEIN = false ->
   dget (foundations dataset) centralEIN = None ->
   buildCustomEINNetwork dataset centralEIN
   = Throw (mkError ("Foundation with EIN " ++ centralEIN ++ " not found in dataset"))).
Proof.
  intros dataset c; unfold buildCustomEINNetwork.
  destruct (dget (foundations dataset) c) as [f | ];
    [ | split; [ congruence | reflexivity ] ].
  split; [ intros _ | discriminate ].
  assert (F : forall groups st,
             (forall e, In e groups -> snd e <> []) ->
             exists st', foldM (addGrantee dataset c (f_name f)) groups st = Ok st').
  { induction groups as [ | [k grants] r IH ]; cbn [foldM]; intros st Hne; [ eauto | ].
    assert (Hg : grants <> []) by (apply (Hne (k, grants)); left; reflexivity).
    destruct grants as [ | g0 gr ]; [ contradiction | ].
    assert (S1 : exists st1, addGrantee dataset c (f_name f) st (k, g0 :: gr) = Ok st1).
    { unfold addGrantee. destruct (set_has (st_added st) k); cbn [bind]; [ eauto | ].
      destruct (dget (organizations dataset) k) as [org | ];
        [ destruct (o_name org) | ]; cbn [bind]; eauto. }
    destruct S1 as [st1 E1]. rewrite E1; cbn [bind].
    apply IH. intros e He; apply Hne; right; exact He. }
  destruct (F (groupByRecipient dataset (buildNameToEINIndex dataset) (grantsGiven f))
              (push_node (mkNetState [] [] [])
                 (mkNode c (f_name f) funder (Some true) None (f_metadata f) None None)))
    as [st' E].
  - intros e He; eapply groupByRecipient_nonempty; exact He.
  - rewrite E; cbn [bind]; eauto.
Qed.


(* ===================================================================== *)
(** * Further properties of the pipeline *)
(* ===================================================================== *)

(* --------------------------------------------------------------------- *)
(** ** Name normalization *)
(* --------------------------------------------------------------------- *)

Lemma append_nil_r : forall s : string, (s ++ EmptyString)%string = s.
Proof. induction s as [ | c r IH ]; cbn; [ | rewrite IH ]; reflexivity. Qed.

Lemma append_assoc : forall a b c : string,
  ((a ++ b) ++ c)%string = (a ++ (b ++ c))%string.
Proof. induction a as [ | x r IH ]; intros b c; cbn; [ | rewrite IH ]; reflexivity. Qed.

Lemma remove_chars_app : forall p a b,
  remove_chars p (a ++ b) = (remove_chars p a ++ remove_chars p b)%string.
Proof.
  intros p; induction a as [ | c r IH ]; intros b; cbn; [ reflexivity | ].
  rewrite IH; destruct (p c); reflexivity.
Qed.

Lemma remove_chars_forall : forall p s,
  string_forall (fun c => negb (p c)) (remove_chars p s) = true.
Proof.
  intros p; induction s as [ | c r IH ]; cbn; [ reflexivity | ].
  destruct (p c) eqn:E; [ exact IH | cbn; rewrite E, IH; reflexivity ].
Qed.

Lemma string_forall_impl : forall (p q : ascii -> bool) s,
  (forall c, p c = true -> q c = true) ->
  string_forall p s = true -> string_forall q s = true.
Proof.
  intros p q; induction s as [ | c r IH ]; cbn; intros H Hs; [ reflexivity | ].
  apply andb_prop in Hs; destruct Hs as [Hc Hr].
  rewrite (H c Hc), (IH H Hr); reflexivity.
Qed.

Lemma lower_alnum_not_space : forall c,
  is_lower_alnum c = true -> is_space c = false.
Proof.
  intros [[] [] [] [] [] [] [] []]; vm_compute; intros H;
    first [ reflexivity | discriminate H ].
Qed.

Lemma trimStart_no_space : forall s,
  string_forall (fun c => negb (is_space c)) s = true -> trimStart s = s.
Proof.
  intros [ | c r ]; cbn; [ reflexivity | ].
  destruct (is_space c); [ discriminate | reflexivity ].
Qed.

Lemma trimEnd_no_space : forall s,
  string_forall (fun c => negb (is_space c)) s = true -> trimEnd s = s.
Proof.
  induction s as [ | c r IH ]; cbn; intros H; [ reflexivity | ].
  apply andb_prop in H; destruct H as [Hc Hr]. rewrite (IH Hr).
  destruct r; [ | reflexivity ].
  destruct (is_space c); [ discriminate Hc | reflexivity ].
Qed.

Lemma remove_chars_alnum : forall s,
  string_forall is_lower_alnum (remove_chars not_lower_alnum s) = true.
Proof.
  intros s. eapply string_forall_impl; [ | apply remove_chars_forall ].
  intros c; unfold not_lower_alnum, is_lower_alnum; rewrite negb_involutive; auto.
Qed.

(** The final [trim] of normalizeOrgName finds nothing to strip. *)
Lemma normalizeOrgName_no_trim : forall name,
  normalizeOrgName name
  = remove_chars not_lower_alnum (dropStopWords EmptyString (toLowerCase name)).
Proof.
  intros name; unfold normalizeOrgName.
  set (t := remove_chars not_lower_alnum _).
  assert (Hs : string_forall (fun c => negb (is_space c)) t = true).
  { eapply string_forall_impl; [ | apply remove_chars_alnum ].
    intros c Hc; rewrite (lower_alnum_not_space c Hc); reflexivity. }
  unfold trim; rewrite (trimStart_no_space t Hs), (trimEnd_no_space t Hs); auto.
Qed.

(** X1. A normalized name is made of lower-case ASCII letters and digits only
    (the final [trim] finds nothing to strip). *)
Theorem normalizeOrgName_alphabet : forall name,
  string_forall is_lower_alnum (normalizeOrgName name) = true /\
  normalizeOrgName name
  = remove_chars not_lower_alnum (dropStopWords EmptyString (toLowerCase name)).
Proof.
  intros name; split; [ | apply normalizeOrgName_no_trim ].
  rewrite normalizeOrgName_no_trim; apply remove_chars_alnum.
Qed.

Lemma toLowerCase_app : forall a b,
  toLowerCase (a ++ b) = (toLowerCase a ++ toLowerCase b)%string.
Proof. induction a as [ | c r IH ]; intros b; cbn; [ | rewrite IH ]; reflexivity. Qed.

Lemma is_word_lower_char : forall c, is_word (lower_char c) = is_word c.
Proof. intros [[] [] [] [] [] [] [] []]; vm_compute; reflexivity. Qed.

Lemma not_word_not_alnum : forall c, is_word c = false -> not_lower_alnum c = true.
Proof.
  intros [[] [] [] [] [] [] [] []]; vm_compute; intros H;
    first [ reflexivity | discriminate H ].
Qed.

(** A character that is not a word character ends the word being read. *)
Lemma dropStopWords_app : forall s cur c t,
  is_word c = false ->
  dropStopWords cur (s ++ String c t)
  = (dropStopWords cur s ++ String c (dropStopWords EmptyString t))%string.
Proof.
  induction s as [ | a r IH ]; intros cur c t Hc; cbn [append dropStopWords].
  - rewrite Hc; reflexivity.
  - destruct (is_word a).
    + apply IH; exact Hc.
    + rewrite (IH _ _ _ Hc), append_assoc; reflexivity.
Qed.

Lemma dropStopWords_stop_word : forall w,
  In w stopWords -> dropStopWords EmptyString w = EmptyString.
Proof.
  intros w H; unfold stopWords in H; cbn [In] in H.
  repeat (destruct H as [<- | H]; [ reflexivity | ]); contradiction.
Qed.

Lemma dropStopWords_prefix_word : forall w,
  In w stopWords ->
  forall c t, is_word c = false ->
    dropStopWords EmptyString (w ++ String c t)
    = String c (dropStopWords EmptyString t).
Proof.
  intros w H c t Hc; rewrite (dropStopWords_app w EmptyString c t Hc).
  rewrite (dropStopWords_stop_word w H); reflexivity.
Qed.

(** X2. A legal-form word does not count: a stop word (in any letter case) set
    off by a character that is not a word character, at the end of a name or
    at its start, leaves the normalized name unchanged. *)
Theorem normalizeOrgName_ignores_stop_word : forall name sep w,
  is_word sep = false ->
  In (toLowerCase w) stopWords ->
  normalizeOrgName (name ++ String sep w) = normalizeOrgName name /\
  normalizeOrgName (w ++ String sep name) = normalizeOrgName name.
Proof.
  intros name sep w Hsep Hw.
  assert (Hl : is_word (lower_char sep) = false) by (rewrite is_word_lower_char; exact Hsep).
  rewrite !normalizeOrgName_no_trim. split.
  - rewrite toLowerCase_app; cbn [toLowerCase].
    rewrite (dropStopWords_app _ _ _ _ Hl), (dropStopWords_stop_word _ Hw).
    rewrite remove_chars_app; cbn [remove_chars].
    rewrite (not_word_not_alnum _ Hl), append_nil_r; reflexivity.
  - rewrite toLowerCase_app; cbn [toLowerCase].
    rewrite (dropStopWords_prefix_word _ Hw _ _ Hl); cbn [remove_chars].
    rewrite (not_word_not_alnum _ Hl); reflexivity.
Qed.

Lemma normalizeOrgName_ignores_stop_word_witness :
  normalizeOrgName ("Acme" ++ String " " "Inc") = normalizeOrgName "Acme" /\
  normalizeOrgName ("Inc" ++ String " " "Acme") = normalizeOrgName "Acme".
Proof.
  apply (normalizeOrgName_ignores_stop_word "Acme" " " "Inc").
  - reflexivity.
  - cbn; left; reflexivity.
Defined.

(* --------------------------------------------------------------------- *)
(** ** The name index and the resolution of a recipient *)
(* --------------------------------------------------------------------- *)

Lemma map_push_member : forall (A : Type) (m : Map (list A)) k x n y,
  (exists l, map_get (map_push m k x) n = Some l /\ In y l) <->
  (exists l, map_get m n = Some l /\ In y l) \/ (k = n /\ x = y).
Proof.
  intros A m k x n y; rewrite map_get_map_push.
  destruct (String.eqb k n) eqn:E.
  - apply String.eqb_eq in E; subst n. split.
    + intros [l [Hl Hy]]; injection Hl as <-.
      destruct (map_get m k) as [old | ].
      * apply in_app_or in Hy; destruct Hy as [Hy | [<- | []]]; eauto.
      * destruct Hy as [<- | []]; auto.
    + intros [[l [Hl Hy]] | [_ <-]].
      * rewrite Hl; eexists; split; [ reflexivity | apply in_or_app; auto ].
      * eexists; split; [ reflexivity | ].
        destruct (map_get m k); [ apply in_or_app; right | ]; left; reflexivity.
  - apply String.eqb_neq in E. split; [ auto | ].
    intros [H | [H _]]; [ exact H | contradiction ].
Qed.

Lemma index_fold_lookup : forall entries (m : Map (list string)) n ein,
  (exists l,
     map_get (fold_left (fun nameIndex e =>
                           map_push nameIndex (normalizeOrgName (o_name (snd e))) (fst e))
                        entries m) n = Some l /\ In ein l) <->
  (exists l, map_get m n = Some l /\ In ein l) \/
  (exists org, In (ein, org) entries /\ normalizeOrgName (o_name org) = n).
Proof.
  induction entries as [ | [k o] r IH ]; cbn [fold_left]; intros m n ein.
  - split; [ auto | intros [H | [org [[] _]]]; exact H ].
  - rewrite IH, map_push_member; cbn [fst snd In]. split.
    + intros [[H | [E1 E2]] | [org [H E]]]; eauto.
      right; exists o; subst; auto.
    + intros [H | [org [[H | H] E]]]; eauto.
      injection H as -> ->; auto.
Qed.

Lemma nameIndex_listed : forall dataset n ein,
  (exists l, map_get (buildNameToEINIndex dataset) n = Some l /\ In ein l) <->
  (exists org, In (ein, org) (organizations dataset) /\
               normalizeOrgName (o_name org) = n).
Proof.
  intros dataset n ein; unfold buildNameToEINIndex; rewrite index_fold_lookup.
  split; [ intros [[l [H _]] | H]; [ discriminate H | exact H ] | auto ].
Qed.

Lemma nameIndex_bucket : forall dataset n,
  map_get (buildNameToEINIndex dataset) n <> Some [].
Proof.
  intros dataset n H. apply dget_In in H.
  pose proof (fold_map_push_nonempty _ _
                (fun e : string * Organization => normalizeOrgName (o_name (snd e)))
                (fun e => fst e) (organizations dataset) [] (Forall_nil _)) as F.
  rewrite Forall_forall in F. apply (F _ H); reflexivity.
Qed.

(** X3. The index is exact: an EIN is listed under a normalized name exactly
    when the dataset has an organization under that key whose name
    normalizes to it; and no name is listed with an empty bucket. *)
Theorem buildNameToEINIndex_lookup : forall dataset n,
  (forall ein,
     (exists l, map_get (buildNameToEINIndex dataset) n = Some l /\ In ein l) <->
     (exists org, In (ein, org) (organizations dataset) /\
                  normalizeOrgName (o_name org) = n)) /\
  map_get (buildNameToEINIndex dataset) n <> Some [].
Proof.
  intros dataset n; split; [ intros ein; apply nameIndex_listed | apply nameIndex_bucket ].
Qed.

Lemma find_or_first : forall (A : Type) (f : A -> bool) (l : list A) (d : A),
  In d l -> In (match find f l with Some c => c | None => d end) l.
Proof.
  intros A f l d Hd. destruct (find f l) as [c | ] eqn:F; [ | exact Hd ].
  apply find_some in F; tauto.
Qed.

(** X4. How a recipient is resolved.  A usable EIN is kept.  Without one, the
    result is the key of an organization whose normalized name is that of
    the recipient whenever the dataset has such an organization, and the
    placeholder made of the normalized name only when it has none. *)
Theorem resolveRecipient_cases : forall dataset grant,
  let r := resolveRecipient dataset (buildNameToEINIndex dataset) grant in
  let n := normalizeOrgName (recipientName grant) in
  (lacksUsableEIN (recipientEIN grant) = false -> r = recipientEIN grant) /\
  (lacksUsableEIN (recipientEIN grant) = true ->
   (exists org, In (r, org) (organizations dataset) /\
                normalizeOrgName (o_name org) = n) \/
   ((forall ein org, In (ein, org) (organizations dataset) ->
                     normalizeOrgName (o_name org) <> n) /\
    r = ("no_ein_" ++ n)%string)).
Proof.
  intros dataset grant r n; subst r n; unfold resolveRecipient.
  destruct (lacksUsableEIN (recipientEIN grant)); split; try discriminate; auto.
  intros _.
  pose proof (nameIndex_listed dataset (normalizeOrgName (recipientName grant))) as L.
  pose proof (nameIndex_bucket dataset (normalizeOrgName (recipientName grant))) as NE.
  destruct (map_get (buildNameToEINIndex dataset) (normalizeOrgName (recipientName grant)))
    as [matches | ] eqn:E.
  - left. assert (M : forall x, In x matches ->
                       exists org, In (x, org) (organizations dataset) /\
                                   normalizeOrgName (o_name org)
                                   = normalizeOrgName (recipientName grant))
      by (intros x Hx; apply L; eauto).
    destruct matches as [ | m0 [ | m1 rest ] ]; [ congruence | apply M; left; reflexivity | ].
    assert (H0 : In m0 (m0 :: m1 :: rest)) by (left; reflexivity).
    apply M.
    destruct (recipientCity grant) as [gc | ]; [ | exact H0 ].
    destruct (recipientState grant) as [gs | ]; [ | exact H0 ].
    destruct (str_truthy (Some gc) && str_truthy (Some gs)); [ | exact H0 ].
    apply (find_or_first _ (addressMatch dataset gc gs) (m0 :: m1 :: rest) m0 H0).
  - right; split; [ | reflexivity ].
    intros ein org Hin Hn.
    destruct (proj2 (L ein) (ex_intro _ org (conj Hin Hn))) as [l [Hl _]]; discriminate Hl.
Qed.

Lemma find_split : forall (A : Type) (f : A -> bool) (l : list A) (x : A),
  find f l = Some x ->
  exists before after,
    l = before ++ x :: after /\ f x = true /\
    forall c, In c before -> f c = false.
Proof.
  intros A f; induction l as [ | a r IH ]; cbn [find]; intros x H; [ discriminate H | ].
  destruct (f a) eqn:E.
  - injection H as <-. exists [], r; repeat split; [ exact E | intros c [] ].
  - destruct (IH x H) as [b [t [-> [Hx Hb]]]].
    exists (a :: b), t; repeat split; [ exact Hx | ].
    intros c [<- | Hc]; [ exact E | apply Hb; exact Hc ].
Qed.

(** X5. Several organizations of the same normalized name: when the grant has a
    city and a state, the first candidate whose metadata city and state
    equal them without regard to letter case is chosen; when no candidate
    matches, or the grant lacks a city or a state, the first candidate is. *)
Theorem resolveRecipient_disambiguates : forall dataset nameIndex grant matches first,
  lacksUsableEIN (recipientEIN grant) = true ->
  map_get nameIndex (normalizeOrgName (recipientName grant)) = Some matches ->
  (2 <= List.length matches)%nat ->
  hd_error matches = Some first ->
  let r := resolveRecipient dataset nameIndex grant in
  match recipientCity grant, recipientState grant with
  | Some gc, Some gs =>
      if str_truthy (Some gc) && str_truthy (Some gs) then
        (exists before after,
           matches = before ++ r :: after /\
           addressMatch dataset gc gs r = true /\
           forall c, In c before -> addressMatch dataset gc gs c = false) \/
        ((forall c, In c matches -> addressMatch dataset gc gs c = false) /\ r = first)
      else r = first
  | _, _ => r = first
  end.
Proof.
  intros dataset idx grant matches first Hl Hm Hlen Hhd r; subst r.
  unfold resolveRecipient; rewrite Hl, Hm.
  destruct matches as [ | m0 [ | m1 rest ] ]; cbn in Hlen; try lia.
  injection Hhd as <-.
  destruct (recipientCity grant) as [gc | ]; [ | reflexivity ].
  destruct (recipientState grant) as [gs | ]; [ | reflexivity ].
  destruct (str_truthy (Some gc) && str_truthy (Some gs)); [ | reflexivity ].
  destruct (find (addressMatch dataset gc gs) (m0 :: m1 :: rest)) as [c | ] eqn:F.
  - left; apply find_split; exact F.
  - right; split; [ | reflexivity ].
    intros c Hc; apply (find_none _ _ F c Hc).
Qed.

Lemma resolveRecipient_disambiguates_witness :
  (exists before after,
     ["A1"; "A2"; "A3"]
     = before ++ resolveRecipient multiDataset (buildNameToEINIndex multiDataset)
                                  bostonGrant :: after /\
     addressMatch multiDataset "BOSTON" "ma"
       (resolveRecipient multiDataset (buildNameToEINIndex multiDataset) bostonGrant)
     = true /\
     forall c, In c before -> addressMatch multiDataset "BOSTON" "ma" c = false) \/
  ((forall c, In c ["A1"; "A2"; "A3"] -> addressMatch multiDataset "BOSTON" "ma" c = false) /\
   resolveRecipient multiDataset (buildNameToEINIndex multiDataset) bostonGrant = "A1").
Proof.
  apply (resolveRecipient_disambiguates multiDataset (buildNameToEINIndex multiDataset)
           bostonGrant ["A1"; "A2"; "A3"] "A1");
    [ reflexivity | reflexivity | cbn; lia | reflexivity ].
Defined.

Example resolveRecipient_boston :
  resolveRecipient multiDataset (buildNameToEINIndex multiDataset) bostonGrant = "A2".
Proof. reflexivity. Qed.


(* --------------------------------------------------------------------- *)
(** ** Assignment to a dictionary *)
(* --------------------------------------------------------------------- *)

Section DsetFacts.
Context {V : Type}.
Implicit Types (d : dict V) (k : string) (v : V).

Lemma dget_dinsert_index : forall d n k v k',
  dget d k = None ->
  dget (dinsert_index d n k v) k' = if String.eqb k k' then Some v else dget d k'.
Proof.
  induction d as [ | [k0 v0] r IH ]; cbn [dget dinsert_index]; intros n k v k' H.
  - reflexivity.
  - destruct (String.eqb k0 k) eqn:E0; [ discriminate H | ].
    destruct (array_index k0) as [n0 | ]; [ destruct (n0 <? n)%N | ]; cbn [dget];
      try reflexivity.
    rewrite (IH _ _ v k' H). destruct (String.eqb k0 k') eqn:E1; [ | reflexivity ].
    apply String.eqb_eq in E1; subst k'. rewrite String.eqb_sym, E0; reflexivity.
Qed.

(** Reading after writing. *)
Lemma dget_dset : forall d k v k',
  dget (dset d k v) k' = if String.eqb k k' then Some v else dget d k'.
Proof.
  intros d k v k'; unfold dset, dhas. destruct (dget d k) eqn:E.
  - rewrite dget_dreplace, E; reflexivity.
  - destruct (array_index k); [ apply dget_dinsert_index | apply dget_app_new ]; exact E.
Qed.

Lemma keys_dinsert_index : forall d n k v k',
  In k' (keys (dinsert_index d n k v)) <-> k' = k \/ In k' (keys d).
Proof.
  induction d as [ | [k0 v0] r IH ]; cbn [dinsert_index]; intros n k v k'.
  - cbn; intuition.
  - destruct (array_index k0) as [n0 | ]; [ destruct (n0 <? n)%N | ]; unfold keys in *;
      cbn [map fst In]; try rewrite IH; intuition.
Qed.

Lemma NoDup_dinsert_index : forall d n k v,
  NoDup (keys d) -> ~ In k (keys d) -> NoDup (keys (dinsert_index d n k v)).
Proof.
  induction d as [ | [k0 v0] r IH ]; cbn [dinsert_index]; intros n k v ND Hk.
  - repeat constructor; intros [].
  - assert (C : NoDup (keys ((k, v) :: (k0, v0) :: r))) by (constructor; assumption).
    destruct (array_index k0) as [n0 | ]; [ destruct (n0 <? n)%N | ]; try exact C.
    inversion ND as [ | ? ? H0 ND' ]; subst. unfold keys in *; cbn [map fst] in *.
    constructor.
    + intros H; apply (keys_dinsert_index r n k v k0) in H.
      destruct H as [-> | H]; [ apply Hk; left; reflexivity | contradiction ].
    + apply IH; [ exact ND' | intros H; apply Hk; right; exact H ].
Qed.

Lemma In_keys_dset : forall d k v k',
  In k' (keys (dset d k v)) <-> k' = k \/ In k' (keys d).
Proof.
  intros d k v k'; unfold dset, dhas. destruct (dget d k) eqn:E.
  - rewrite keys_dreplace. split; [ auto | intros [-> | H]; [ | exact H ] ].
    apply dget_keys; congruence.
  - destruct (array_index k); [ apply keys_dinsert_index | ].
    unfold keys; rewrite map_app, in_app_iff; cbn; intuition.
Qed.

(** Assignment keeps the keys distinct. *)
Lemma NoDup_keys_dset : forall d k v, NoDup (keys d) -> NoDup (keys (dset d k v)).
Proof.
  intros d k v ND; unfold dset, dhas. destruct (dget d k) eqn:E.
  - rewrite keys_dreplace; exact ND.
  - assert (Hk : ~ In k (keys d)) by (intros H; apply dget_keys in H; contradiction).
    destruct (array_index k); [ apply NoDup_dinsert_index; assumption | ].
    unfold keys in *; rewrite map_app; cbn [map fst].
    apply NoDup_app; [ exact ND | repeat constructor; intros [] | ].
    intros x Hx [<- | []]; contradiction.
Qed.

Lemma In_dget : forall d k v, NoDup (keys d) -> In (k, v) d -> dget d k = Some v.
Proof.
  induction d as [ | [k0 v0] r IH ]; intros k v ND H; [ destruct H | ].
  inversion ND as [ | ? ? H0 ND' ]; subst. cbn [dget].
  destruct H as [H | H].
  - injection H as -> ->; rewrite String.eqb_refl; reflexivity.
  - destruct (String.eqb k0 k) eqn:E; [ | apply IH; assumption ].
    apply String.eqb_eq in E; subst k0. exfalso; apply H0.
    unfold keys; apply (in_map fst _ _ H).
Qed.

End DsetFacts.

(* --------------------------------------------------------------------- *)
(** ** What the dataset builder puts under each key *)
(* --------------------------------------------------------------------- *)

Lemma concat_given_nil : forall f, concat_given f [] = f.
Proof. intros [e n g m]; unfold concat_given; cbn; rewrite app_nil_r; reflexivity. Qed.

Lemma absorb_nil : forall k old, absorb k old [] = old.
Proof. intros k [o | ]; cbn; [ rewrite extend_received_nil | ]; reflexivity. Qed.

Lemma absorb_app : forall k old e1 e2,
  absorb k (absorb k old e1) e2 = absorb k old (e1 ++ e2).
Proof.
  intros k [o | ] e1 e2; cbn.
  - unfold extend_received; cbn; rewrite map_app, app_assoc; reflexivity.
  - destruct e1 as [ | [g0 r0] t ]; cbn; [ reflexivity | ].
    unfold extend_received; cbn; rewrite map_app; reflexivity.
Qed.

Lemma absorbRecords_nil : forall k old, absorbRecords k old [] = old.
Proof. intros k [f | ]; cbn; [ rewrite concat_given_nil | ]; reflexivity. Qed.

Lemma addReceived_dget : forall fe fn orgs g k,
  dget (addReceived fe fn orgs g) k
  = absorb k (dget orgs k) (eventsOf k [(g, toReceived fe fn g)]).
Proof.
  intros fe fn orgs g k; unfold addReceived; rewrite dget_dset.
  unfold eventsOf; cbn [filter fst].
  destruct (String.eqb (datasetRecipientKey g) k) eqn:E.
  - apply String.eqb_eq in E; subst k.
    destruct (dget orgs (datasetRecipientKey g)); reflexivity.
  - rewrite absorb_nil; reflexivity.
Qed.

Lemma eventsOf_app : forall k a b, eventsOf k (a ++ b) = eventsOf k a ++ eventsOf k b.
Proof. intros k a b; apply filter_app. Qed.

Lemma addReceived_fold_dget : forall fe fn grants orgs k,
  dget (fold_left (addReceived fe fn) grants orgs) k
  = absorb k (dget orgs k) (eventsOf k (map (fun g => (g, toReceived fe fn g)) grants)).
Proof.
  intros fe fn; induction grants as [ | g r IH ]; cbn [fold_left map]; intros orgs k.
  - rewrite absorb_nil; reflexivity.
  - rewrite IH, addReceived_dget, absorb_app, <- eventsOf_app; reflexivity.
Qed.

Lemma addFunderRecord_fold_orgs : forall records fs orgs total k,
  dget (snd (fst (fold_left addFunderRecord records (fs, orgs, total)))) k
  = absorb k (dget orgs k) (eventsOf k (grantEvents records)).
Proof.
  induction records as [ | r rest IH ]; cbn [fold_left]; intros fs orgs total k.
  - rewrite absorb_nil; reflexivity.
  - unfold grantEvents; cbn [flat_map]; fold (grantEvents rest).
    unfold addFunderRecord at 2. destruct (usable_funderEIN r) as [fe | ].
    + rewrite IH, addReceived_fold_dget, absorb_app, <- eventsOf_app; reflexivity.
    + apply IH.
Qed.

Lemma recordsOf_cons : forall k r rest,
  recordsOf k (r :: rest)
  = match usable_funderEIN r with
    | Some e => if String.eqb e k then r :: recordsOf k rest else recordsOf k rest
    | None => recordsOf k rest
    end.
Proof. intros k r rest; unfold recordsOf; cbn [filter]; destruct (usable_funderEIN r); reflexivity. Qed.

Lemma absorbRecords_cons : forall k old r rest,
  absorbRecords k
    (Some (concat_given match old with
                        | Some f => f
                        | None => mkFoundation k (fr_funderName r) [] (fr_metadata r)
                        end (fr_grants r))) rest
  = absorbRecords k old (r :: rest).
Proof.
  intros k [f | ] r rest; cbn; unfold concat_given; cbn; rewrite ?app_assoc; reflexivity.
Qed.

Lemma addFunderRecord_fold_foundations : forall records fs orgs total k,
  dget (fst (fst (fold_left addFunderRecord records (fs, orgs, total)))) k
  = absorbRecords k (dget fs k) (recordsOf k records).
Proof.
  induction records as [ | r rest IH ]; cbn [fold_left]; intros fs orgs total k.
  - rewrite absorbRecords_nil; reflexivity.
  - rewrite recordsOf_cons. unfold addFunderRecord at 2.
    destruct (usable_funderEIN r) as [fe | ]; [ | apply IH ].
    rewrite IH, dget_dset. destruct (String.eqb fe k) eqn:E; [ | reflexivity ].
    apply String.eqb_eq in E; subst k. apply absorbRecords_cons.
Qed.

Lemma buildBidirectionalDataset_parts : forall now allGrantsData,
  foundations (buildBidirectionalDataset now allGrantsData)
  = fst (fst (fold_left addFunderRecord allGrantsData ([], [], 0))) /\
  organizations (buildBidirectionalDataset now allGrantsData)
  = snd (fst (fold_left addFunderRecord allGrantsData ([], [], 0))).
Proof.
  intros now records; unfold buildBidirectionalDataset.
  destruct (fold_left addFunderRecord records ([], [], 0)) as [[fs orgs] total];
    split; reflexivity.
Qed.

Lemma built_foundation : forall now allGrantsData k,
  dget (foundations (buildBidirectionalDataset now allGrantsData)) k
  = absorbRecords k None (recordsOf k allGrantsData).
Proof.
  intros now allGrantsData k.
  destruct (buildBidirectionalDataset_parts now allGrantsData) as [-> _].
  rewrite addFunderRecord_fold_foundations; reflexivity.
Qed.

Lemma built_organization : forall now allGrantsData k,
  dget (organizations (buildBidirectionalDataset now allGrantsData)) k
  = absorb k None (eventsOf k (grantEvents allGrantsData)).
Proof.
  intros now allGrantsData k.
  destruct (buildBidirectionalDataset_parts now allGrantsData) as [_ ->].
  rewrite addFunderRecord_fold_orgs; reflexivity.
Qed.


(** X6. Each foundation entry is the merge of the records of its funder EIN: it
    is there exactly when some record has that EIN, its name and metadata
    are those of the first such record, and its grantsGiven is the grants of
    all such records, one record after the other in input order. *)
Theorem buildBidirectionalDataset_foundation : forall now allGrantsData k,
  dget (foundations (buildBidirectionalDataset now allGrantsData)) k
  = match recordsOf k allGrantsData with
    | [] => None
    | (first :: _) as mine =>
        Some (mkFoundation k (fr_funderName first) (flat_map fr_grants mine)
                           (fr_metadata first))
    end.
Proof.
  intros now allGrantsData k. rewrite built_foundation.
  destruct (recordsOf k allGrantsData); reflexivity.
Qed.

(** X7. Each organization entry mirrors the grants made to its key: it is there
    exactly when some grant of a record with a funder EIN has that key, its
    name is the recipient name of the first such grant, it has no metadata,
    and its grantsReceived is one entry per such grant, in input order, with
    the funder's EIN and name and the grant's amount and year. *)
Theorem buildBidirectionalDataset_organization : forall now allGrantsData k,
  dget (organizations (buildBidirectionalDataset now allGrantsData)) k
  = match eventsOf k (grantEvents allGrantsData) with
    | [] => None
    | ((first, _) :: _) as mine =>
        Some (mkOrganization k (recipientName first) (map snd mine) None)
    end.
Proof.
  intros now allGrantsData k. rewrite built_organization.
  destruct (eventsOf k (grantEvents allGrantsData)) as [ | [g0 r0] t ]; reflexivity.
Qed.

Lemma datasetRecipientKey_form : forall g,
  datasetRecipientKey g <> EmptyString /\
  startsWith (datasetRecipientKey g) "unknown_" = false.
Proof.
  intros g; unfold datasetRecipientKey.
  destruct (String.eqb (recipientEIN g) "" || startsWith (recipientEIN g) "unknown_") eqn:E.
  - split; [ discriminate | reflexivity ].
  - apply orb_false_elim in E; destruct E as [E1 E2].
    apply String.eqb_neq in E1; auto.
Qed.

Lemma usable_funderEIN_not_empty : forall r e,
  usable_funderEIN r = Some e -> e <> EmptyString.
Proof.
  intros r e; unfold usable_funderEIN.
  destruct (fr_funderEIN r) as [[ | c s] | ]; intros H; try discriminate H.
  injection H as <-; discriminate.
Qed.

Lemma addReceived_fold_NoDup : forall fe fn grants orgs,
  NoDup (keys orgs) -> NoDup (keys (fold_left (addReceived fe fn) grants orgs)).
Proof.
  intros fe fn; induction grants as [ | g r IH ]; cbn [fold_left]; intros orgs ND;
    [ exact ND | ].
  apply IH; unfold addReceived; apply NoDup_keys_dset; exact ND.
Qed.

Lemma addFunderRecord_fold_NoDup : forall records fs orgs total,
  NoDup (keys fs) -> NoDup (keys orgs) ->
  NoDup (keys (fst (fst (fold_left addFunderRecord records (fs, orgs, total))))) /\
  NoDup (keys (snd (fst (fold_left addFunderRecord records (fs, orgs, total))))).
Proof.
  induction records as [ | r rest IH ]; cbn [fold_left]; intros fs orgs total Hf Ho;
    [ auto | ].
  unfold addFunderRecord at 2 4. destruct (usable_funderEIN r) as [fe | ].
  - apply IH; [ apply NoDup_keys_dset; exact Hf | apply addReceived_fold_NoDup; exact Ho ].
  - apply IH; assumption.
Qed.


Lemma built_NoDup : forall now allGrantsData,
  NoDup (keys (foundations (buildBidirectionalDataset now allGrantsData))) /\
  NoDup (keys (organizations (buildBidirectionalDataset now allGrantsData))).
Proof.
  intros now records. destruct (buildBidirectionalDataset_parts now records) as [-> ->].
  apply addFunderRecord_fold_NoDup; apply NoDup_nil.
Qed.

(** X8. The dictionaries of the built dataset are well keyed: no key occurs
    twice, every entry carries its key as its ein, no key is the empty
    string, and no organization key starts with unknown_ (a grant without a
    usable recipient EIN is filed under a placeholder key). *)
Theorem buildBidirectionalDataset_keys : forall now allGrantsData,
  let d := buildBidirectionalDataset now allGrantsData in
  NoDup (keys (foundations d)) /\
  NoDup (keys (organizations d)) /\
  (forall k f, In (k, f) (foundations d) -> f_ein f = k /\ k <> EmptyString) /\
  (forall k o, In (k, o) (organizations d) ->
               o_ein o = k /\ k <> EmptyString /\ startsWith k "unknown_" = false).
Proof.
  intros now records d.
  destruct (built_NoDup now records) as [NDf NDo]. fold d in NDf, NDo. split; [ exact NDf | split; [ exact NDo | split ] ].
  - intros k f Hin. apply (In_dget _ _ _ NDf) in Hin.
    subst d; rewrite built_foundation in Hin.
    destruct (recordsOf k records) as [ | r0 t ] eqn:E; cbn [absorbRecords] in Hin;
      [ discriminate Hin | ].
    injection Hin as <-; split; [ reflexivity | ].
    assert (Hr : In r0 (recordsOf k records)) by (rewrite E; left; reflexivity).
    unfold recordsOf in Hr; apply filter_In in Hr; destruct Hr as [_ Hr].
    destruct (usable_funderEIN r0) as [e | ] eqn:U; [ | discriminate Hr ].
    apply String.eqb_eq in Hr; subst e. eapply usable_funderEIN_not_empty; eauto.
  - intros k o Hin. apply (In_dget _ _ _ NDo) in Hin.
    subst d; rewrite built_organization in Hin.
    destruct (eventsOf k (grantEvents records)) as [ | [g0 r0] t ] eqn:E;
      cbn [absorb] in Hin; [ discriminate Hin | ].
    injection Hin as <-; split; [ reflexivity | ].
    assert (Hr : In (g0, r0) (eventsOf k (grantEvents records)))
      by (rewrite E; left; reflexivity).
    unfold eventsOf in Hr; apply filter_In in Hr; destruct Hr as [_ Hr].
    apply String.eqb_eq in Hr; cbn [fst] in Hr; subst k.
    apply datasetRecipientKey_form.
Qed.

(* --------------------------------------------------------------------- *)
(** ** The merge of the Form 990 organizations, and the whole of the
       dataset stage *)
(* --------------------------------------------------------------------- *)

Lemma dflat_app : forall (V A : Type) (f : V -> list A) (d1 d2 : dict V),
  dflat f (d1 ++ d2) = dflat f d1 ++ dflat f d2.
Proof. intros V A f d1 d2; unfold dflat; apply flat_map_app. Qed.

Lemma dflat_dinsert_index : forall (V A : Type) (f : V -> list A) (d : dict V) n k v,
  f v = [] -> dflat f (dinsert_index d n k v) = dflat f d.
Proof.
  intros V A f; induction d as [ | [k0 v0] r IH ]; cbn [dinsert_index]; intros n k v Hv.
  - rewrite dflat_cons, Hv; reflexivity.
  - destruct (array_index k0) as [n0 | ]; [ destruct (n0 <? n)%N | ];
      rewrite !dflat_cons; try rewrite (IH _ _ _ Hv); try rewrite Hv; reflexivity.
Qed.

Lemma dflat_dset_new : forall (V A : Type) (f : V -> list A) (d : dict V) k v,
  dget d k = None -> f v = [] -> dflat f (dset d k v) = dflat f d.
Proof.
  intros V A f d k v Hk Hv; unfold dset, dhas; rewrite Hk.
  destruct (array_index k); [ apply dflat_dinsert_index; exact Hv | ].
  rewrite dflat_app, dflat_cons, Hv; cbn; rewrite !app_nil_r; reflexivity.
Qed.

Lemma dflat_dreplace_same : forall (V A : Type) (f : V -> list A) (d : dict V) k old v,
  dget d k = Some old -> f v = f old -> dflat f (dreplace d k v) = dflat f d.
Proof.
  intros V A f; induction d as [ | [k0 v0] r IH ]; cbn [dget dreplace];
    intros k old v H Hv; [ discriminate H | ].
  destruct (String.eqb k0 k).
  - injection H as ->; rewrite !dflat_cons, Hv; reflexivity.
  - rewrite !dflat_cons, (IH _ _ _ H Hv); reflexivity.
Qed.

Lemma kept_by_merge_refl : forall o, kept_by_merge o o.
Proof. intros o; repeat split. Qed.

Lemma kept_by_merge_trans : forall a b c,
  kept_by_merge a b -> kept_by_merge b c -> kept_by_merge a c.
Proof.
  intros a b c [E1 [N1 [G1 M1]]] [E2 [N2 [G2 M2]]]. repeat split; try congruence.
  intros H. specialize (M1 H); subst b. apply M2; exact H.
Qed.

Lemma mergeOrg_spec : forall orgs org,
  allReceived (mergeOrg orgs org) = allReceived orgs /\
  (NoDup (keys orgs) -> NoDup (keys (mergeOrg orgs org))) /\
  (forall k o, dget orgs k = Some o ->
               exists o', dget (mergeOrg orgs org) k = Some o' /\ kept_by_merge o o') /\
  (forall k o', dget orgs k = None -> dget (mergeOrg orgs org) k = Some o' ->
                grantsReceived o' = [] /\ o_ein o' = k).
Proof.
  intros orgs org; unfold mergeOrg.
  assert (Same : allReceived orgs = allReceived orgs /\
                 (NoDup (keys orgs) -> NoDup (keys orgs)) /\
                 (forall k o, dget orgs k = Some o ->
                              exists o', dget orgs k = Some o' /\ kept_by_merge o o') /\
                 (forall k o', dget orgs k = None -> dget orgs k = Some o' ->
                               grantsReceived o' = [] /\ o_ein o' = k)).
  { repeat split; auto.
    - intros k o H; exists o; split; [ exact H | apply kept_by_merge_refl ].
    - congruence.
    - congruence. }
  destruct (usable_orgEIN org) as [ein | ]; [ | exact Same ].
  destruct (dget orgs ein) as [existing | ] eqn:E.
  - destruct (o_metadata existing) eqn:M; [ exact Same | ].
    split; [ | split; [ | split ] ].
    + unfold allReceived; eapply dflat_dreplace_same; [ exact E | reflexivity ].
    + rewrite keys_dreplace; auto.
    + intros k o H; rewrite dget_dreplace, E.
      destruct (String.eqb ein k) eqn:Ek.
      * apply String.eqb_eq in Ek; subst k. rewrite E in H; injection H as <-.
        eexists; split; [ reflexivity | ].
        repeat split. intros C; rewrite M in C; contradiction.
      * exists o; split; [ exact H | apply kept_by_merge_refl ].
    + intros k o' Hn H; rewrite dget_dreplace, E in H.
      destruct (String.eqb ein k) eqn:Ek; [ | congruence ].
      apply String.eqb_eq in Ek; subst k; congruence.
  - split; [ | split; [ | split ] ].
    + unfold allReceived; apply dflat_dset_new; [ exact E | reflexivity ].
    + apply NoDup_keys_dset.
    + intros k o H; rewrite dget_dset.
      destruct (String.eqb ein k) eqn:Ek.
      * apply String.eqb_eq in Ek; subst k; congruence.
      * exists o; split; [ exact H | apply kept_by_merge_refl ].
    + intros k o' Hn H; rewrite dget_dset in H.
      destruct (String.eqb ein k) eqn:Ek; [ | congruence ].
      apply String.eqb_eq in Ek; subst k. injection H as <-; auto.
Qed.

Lemma mergeOrg_fold_spec : forall allOrgData orgs,
  allReceived (fold_left mergeOrg allOrgData orgs) = allReceived orgs /\
  (NoDup (keys orgs) -> NoDup (keys (fold_left mergeOrg allOrgData orgs))) /\
  (forall k o, dget orgs k = Some o ->
               exists o', dget (fold_left mergeOrg allOrgData orgs) k = Some o' /\
                          kept_by_merge o o') /\
  (forall k o', dget orgs k = None ->
                dget (fold_left mergeOrg allOrgData orgs) k = Some o' ->
                grantsReceived o' = [] /\ o_ein o' = k).
Proof.
  induction allOrgData as [ | org rest IH ]; cbn [fold_left]; intros orgs.
  - repeat split; auto; try congruence.
    intros k o H; exists o; split; [ exact H | apply kept_by_merge_refl ].
  - destruct (mergeOrg_spec orgs org) as [A1 [N1 [K1 F1]]].
    destruct (IH (mergeOrg orgs org)) as [A2 [N2 [K2 F2]]].
    split; [ congruence | split; [ auto | split ] ].
    + intros k o H. destruct (K1 k o H) as [o1 [H1 R1]].
      destruct (K2 k o1 H1) as [o2 [H2 R2]].
      exists o2; split; [ exact H2 | eapply kept_by_merge_trans; eauto ].
    + intros k o' Hn H.
      destruct (dget (mergeOrg orgs org) k) as [o1 | ] eqn:E1.
      * destruct (F1 k o1 Hn E1) as [G1 I1].
        destruct (K2 k o1 E1) as [o2 [H2 [E2 [_ [G2 _]]]]].
        rewrite H in H2; injection H2 as <-. split; congruence.
      * apply F2; assumption.
Qed.

(** X9. The merge of the Form 990 organizations leaves every received entry in
    place (the list of all of them is the same), keeps the keys distinct,
    keeps the name, the ein and the grants of every organization that was
    there and does not touch one that has metadata, and adds organizations
    only with an empty grantsReceived. *)
Theorem mergeForm990_keeps_grants : forall dataset allOrgData,
  let merged := mergeForm990 dataset allOrgData in
  allReceived (organizations merged) = allReceived (organizations dataset) /\
  foundations merged = foundations dataset /\
  metadata merged = metadata dataset /\
  (NoDup (keys (organizations dataset)) -> NoDup (keys (organizations merged))) /\
  (forall k o, dget (organizations dataset) k = Some o ->
               exists o', dget (organizations merged) k = Some o' /\ kept_by_merge o o') /\
  (forall k o', dget (organizations dataset) k = None ->
                dget (organizations merged) k = Some o' ->
                grantsReceived o' = [] /\ o_ein o' = k).
Proof.
  intros dataset allOrgData merged; subst merged; unfold mergeForm990;
    cbn [organizations foundations metadata].
  destruct (mergeOrg_fold_spec allOrgData (organizations dataset)) as [A [N [K F]]].
  split; [ exact A | split; [ reflexivity | split; [ reflexivity | ] ] ].
  split; [ exact N | split; [ exact K | exact F ] ].
Qed.

(** The consolidation pass that completes on a dataset with distinct keys
    (the statement that the loop lemma gives for the whole pass). *)
Lemma consolidatePlaceholders_rearranges : forall argLimit dataset dataset',
  NoDup (keys (organizations dataset)) ->
  consolidatePlaceholders argLimit dataset = Ok dataset' ->
  foundations dataset' = foundations dataset /\
  metadata dataset' = metadata dataset /\
  Permutation (allReceived (organizations dataset')) (allReceived (organizations dataset)).
Proof.
  intros lim dataset dataset' ND H; unfold consolidatePlaceholders in H.
  destruct (foldM _ _ _) as [orgs' | e] eqn:E; cbn [bind] in H; [ | discriminate H ].
  injection H as <-; cbn [foundations metadata organizations].
  split; [ reflexivity | split; [ reflexivity | ] ].
  apply (consolidate_fold _ _ _ _ _ (NoDup_filter _ ND)) in E; [ exact E | | | exact ND | ].
  - intros k Hk; apply filter_In in Hk; tauto.
  - intros k Hk; apply filter_In in Hk; tauto.
  - intros n l ein Hg He _; eapply buildNameToEINIndex_members; eauto.
Qed.

(** The consolidation pass completes when no placeholder holds more entries
    than a call takes arguments. *)
Lemma consolidatePlaceholders_returns : forall argLimit dataset,
  NoDup (keys (organizations dataset)) ->
  (forall p org,
     dget (organizations dataset) p = Some org -> is_placeholder p = true ->
     List.length (grantsReceived org) <= argLimit) ->
  exists dataset', consolidatePlaceholders argLimit dataset = Ok dataset'.
Proof.
  intros lim dataset ND Hfit; unfold consolidatePlaceholders.
  destruct (consolidate_fold_returns lim (buildNameToEINIndex dataset)
              (filter is_placeholder (keys (organizations dataset)))
              (organizations dataset)) as [orgs' E].
  - apply NoDup_filter; exact ND.
  - intros k Hk; apply filter_In in Hk; tauto.
  - intros k Hk; apply filter_In in Hk; apply dget_keys; tauto.
  - intros k org Hk Ho. apply (Hfit k org Ho). apply filter_In in Hk; tauto.
  - rewrite E; cbn [bind]; eauto.
Qed.

(** X10. The dataset stage of main as a whole (build, merge, consolidate), on
    records whose EINs and recipient keys are not names inherited from
    Object.prototype.  It returns a dataset whenever no placeholder key
    collects more grants than a call takes arguments; and whenever it
    returns a dataset, the total of the metadata is still the number of
    received entries over all organizations and the number of grants given
    over all foundations, and foundationsProcessed is the number of
    foundations. *)
Theorem buildFinalDataset_counts : forall argLimit now allGrantsData allOrgData,
  plainKeys allGrantsData allOrgData = true ->
  ((forall p, is_placeholder p = true ->
              List.length (eventsOf p (grantEvents allGrantsData)) <= argLimit) ->
   exists d, buildFinalDataset argLimit now allGrantsData allOrgData = Ok d) /\
  (forall d,
     buildFinalDataset argLimit now allGrantsData allOrgData = Ok d ->
     totalGrants (metadata d) = totalReceived (organizations d) /\
     totalGrants (metadata d) = totalGiven (foundations d) /\
     foundationsProcessed (metadata d) = List.length (keys (foundations d))).
Proof.
  intros lim now records data _; unfold buildFinalDataset.
  set (built := buildBidirectionalDataset now records).
  assert (B : totalGrants (metadata built) = totalReceived (organizations built) /\
              totalGrants (metadata built) = totalGiven (foundations built) /\
              foundationsProcessed (metadata built)
              = List.length (keys (foundations built))).
  { subst built; unfold buildBidirectionalDataset.
    destruct (fold_left addFunderRecord records ([], [], 0)) as [[fs orgs] total] eqn:E.
    apply addFunderRecord_counts in E. destruct E as [Ht [Hg Hr]].
    cbn [metadata foundations organizations totalGrants foundationsProcessed].
    unfold totalGiven, totalReceived, dsum in *; cbn in *. repeat split; lia. }
  destruct (PROCESS_990 && (0 <? List.length data)%nat);
    [ | split; [ eauto | intros d H; injection H as <-; exact B ] ].
  destruct (mergeOrg_fold_spec data (organizations built)) as [MA [MN [MK MF]]].
  assert (NDm : NoDup (keys (organizations (mergeForm990 built data))))
    by (apply MN; apply (built_NoDup now records)).
  split.
  - intros Hfit. apply consolidatePlaceholders_returns; [ exact NDm | ].
    intros p org Hp Hph. cbn [mergeForm990 organizations] in Hp.
    destruct (dget (organizations built) p) as [o0 | ] eqn:E0.
    + destruct (MK p o0 E0) as [o' [Ho' [_ [_ [Hg _]]]]].
      rewrite Hp in Ho'; injection Ho' as <-. rewrite Hg.
      subst built. rewrite built_organization in E0.
      specialize (Hfit p Hph).
      destruct (eventsOf p (grantEvents records)) as [ | [g0 r0] t ];
        cbn [absorb] in E0; [ discriminate E0 | ].
      injection E0 as E0; subst o0. cbn [grantsReceived].
      cbn [List.length] in *. rewrite List.length_map. exact Hfit.
    + destruct (MF p org E0 Hp) as [Hg _]. rewrite Hg. cbn; lia.
  - intros d H.
    destruct (consolidatePlaceholders_rearranges _ _ _ NDm H) as [Hf [Hm P]].
    rewrite Hf, Hm. cbn [metadata foundations organizations mergeForm990].
    destruct B as [B1 [B2 B3]]. repeat split; try assumption.
    rewrite B1. unfold totalReceived. rewrite !dsum_length_dflat.
    fold (allReceived (organizations d)). fold (allReceived (organizations built)).
    rewrite <- MA. symmetry; apply Permutation_length; exact P.
Qed.

Lemma buildFinalDataset_counts_witness :
  ((forall p, is_placeholder p = true ->
              List.length (eventsOf p (grantEvents sampleRecords)) <= 4096) ->
   exists d, buildFinalDataset 4096 "2024-01-01T00:00:00.000Z" sampleRecords
                               [mkOrgData (Some "7") "Acme" None] = Ok d) /\
  (forall d,
     buildFinalDataset 4096 "2024-01-01T00:00:00.000Z" sampleRecords
                       [mkOrgData (Some "7") "Acme" None] = Ok d ->
     totalGrants (metadata d) = totalReceived (organizations d) /\
     totalGrants (metadata d) = totalGiven (foundations d) /\
     foundationsProcessed (metadata d) = List.length (keys (foundations d))).
Proof.
  apply (buildFinalDataset_counts 4096 "2024-01-01T00:00:00.000Z" sampleRecords
           [mkOrgData (Some "7") "Acme" None]).
  reflexivity.
Defined.

(** The sample records with the Form 990 organization Acme under the EIN 7:
    the placeholder of Acme Inc is merged into it. *)
Example buildFinalDataset_sample :
  exists d,
    buildFinalDataset 4096 "2024-01-01T00:00:00.000Z" sampleRecords
                      [mkOrgData (Some "7") "Acme" None] = Ok d /\
    keys (organizations d) = ["5"; "7"] /\
    totalGrants (metadata d) = 3.
Proof. eexists; repeat split. Qed.


(* --------------------------------------------------------------------- *)
(** ** What the consolidation pass does to each key *)
(* --------------------------------------------------------------------- *)

(** With no empty key in the dataset, the loop finds a real EIN for an
    organization exactly when some organization under a key that is not a
    placeholder has the same normalized name. *)
Lemma realMatch_exists : forall dataset org,
  ~ In EmptyString (keys (organizations dataset)) ->
  (realMatch (buildNameToEINIndex dataset) org <> None <->
   exists r o, In (r, o) (organizations dataset) /\ is_placeholder r = false /\
               normalizeOrgName (o_name o) = normalizeOrgName (o_name org)).
Proof.
  intros dataset org Hempty; unfold realMatch.
  pose proof (nameIndex_listed dataset (normalizeOrgName (o_name org))) as L.
  destruct (map_get (buildNameToEINIndex dataset) (normalizeOrgName (o_name org)))
    as [matches | ] eqn:E.
  - destruct (find (fun ein => negb (startsWith ein "no_ein_")) matches) as [r | ] eqn:F.
    + apply find_some in F; destruct F as [Hin Hr]. apply negb_true_iff in Hr.
      destruct (proj1 (L r) (ex_intro _ matches (conj eq_refl Hin))) as [o [Ho Hn]].
      destruct (String.eqb r "") eqn:Ee.
      * apply String.eqb_eq in Ee; subst r. exfalso; apply Hempty.
        unfold keys; apply (in_map fst _ _ Ho).
      * split; [ intros _; exists r, o; auto | discriminate ].
    + split; [ congruence | ]. intros [r [o [Ho [Hr Hn]]]]. exfalso.
      destruct (proj2 (L r) (ex_intro _ o (conj Ho Hn))) as [l [Hl Hin]].
      injection Hl as <-. pose proof (find_none _ _ F r Hin) as C; cbn in C.
      unfold is_placeholder in Hr; rewrite Hr in C; discriminate C.
  - split; [ congruence | ]. intros [r [o [Ho [Hr Hn]]]]. exfalso.
    destruct (proj2 (L r) (ex_intro _ o (conj Ho Hn))) as [l [Hl _]]; discriminate Hl.
Qed.

(** X11. After the consolidation pass a placeholder organization is gone exactly
    when the dataset had an organization of the same normalized name under a
    key that is not a placeholder; a placeholder without such a match is
    left as it was. *)
Theorem consolidation_removes_matched_placeholders :
  forall argLimit dataset dataset' p org,
    NoDup (keys (organizations dataset)) ->
    ~ In EmptyString (keys (organizations dataset)) ->
    consolidatePlaceholders argLimit dataset = Ok dataset' ->
    dget (organizations dataset) p = Some org ->
    is_placeholder p = true ->
    ((exists r o, In (r, o) (organizations dataset) /\ is_placeholder r = false /\
                  normalizeOrgName (o_name o) = normalizeOrgName (o_name org)) ->
     dget (organizations dataset') p = None) /\
    ((forall r o, In (r, o) (organizations dataset) -> is_placeholder r = false ->
                  normalizeOrgName (o_name o) <> normalizeOrgName (o_name org)) ->
     dget (organizations dataset') p = Some org).
Proof.
  intros argLimit dataset dataset' p org ND Hempty H Hp Hph.
  unfold consolidatePlaceholders in H.
  destruct (foldM _ _ _) as [orgs' | e] eqn:E; cbn [bind] in H; [ | discriminate H ].
  injection H as <-; cbn [organizations].
  apply consolidate_fold_fate in E.
  - destruct E as [Ftodo _].
    assert (Hin : In p (filter is_placeholder (keys (organizations dataset)))).
    { apply filter_In; split; [ apply dget_keys; congruence | exact Hph ]. }
    rewrite (Ftodo p org Hin Hp).
    pose proof (realMatch_exists dataset org Hempty) as R.
    destruct (realMatch (buildNameToEINIndex dataset) org) as [r | ]; split.
    + reflexivity.
    + intros Hno. destruct (proj1 R ltac:(discriminate)) as [r' [o [Ho [Hr Hn]]]].
      exfalso; exact (Hno r' o Ho Hr Hn).
    + intros Hex. apply R in Hex; contradiction.
    + reflexivity.
  - apply NoDup_filter; exact ND.
  - intros k Hk; apply filter_In in Hk; tauto.
  - intros k Hk; apply filter_In in Hk; apply dget_keys; tauto.
Qed.

Lemma consolidation_removes_matched_placeholders_witness :
  ((exists r o, In (r, o) (organizations acmeDataset) /\ is_placeholder r = false /\
                normalizeOrgName (o_name o) = normalizeOrgName "Acme Inc") ->
   dget [ ("E1",
           mkOrganization "E1" "ACME"
             [ mkReceived "F2" "Foundation Two" (num 500) (num 2023);
               mkReceived "F1" "Foundation One" (num 1000) (num 2023) ] None) ]
        "no_ein_acme" = None) /\
  ((forall r o, In (r, o) (organizations acmeDataset) -> is_placeholder r = false ->
                normalizeOrgName (o_name o) <> normalizeOrgName "Acme Inc") ->
   dget [ ("E1",
           mkOrganization "E1" "ACME"
             [ mkReceived "F2" "Foundation Two" (num 500) (num 2023);
               mkReceived "F1" "Foundation One" (num 1000) (num 2023) ] None) ]
        "no_ein_acme"
   = Some (mkOrganization "no_ein_acme" "Acme Inc"
             [mkReceived "F1" "Foundation One" (num 1000) (num 2023)] None)).
Proof.
  apply (consolidation_removes_matched_placeholders 4096 acmeDataset
           (mkDataset []
              [ ("E1",
                 mkOrganization "E1" "ACME"
                   [ mkReceived "F2" "Foundation Two" (num 500) (num 2023);
                     mkReceived "F1" "Foundation One" (num 1000) (num 2023) ] None) ]
              (mkDatasetMetadata 2 2 "2024-01-01T00:00:00.000Z"))
           "no_ein_acme"
           (mkOrganization "no_ein_acme" "Acme Inc"
              [mkReceived "F1" "Foundation One" (num 1000) (num 2023)] None)).
  - repeat constructor; cbn; intuition discriminate.
  - cbn; intuition discriminate.
  - reflexivity.
  - reflexivity.
  - reflexivity.
Defined.

(** X12. The consolidation pass adds no key and removes no key that is not a
    placeholder; an organization under such a key keeps its ein, name and
    metadata, and its grantsReceived only grows at the end. *)
Theorem consolidation_keeps_real_entries :
  forall argLimit dataset dataset' q,
    NoDup (keys (organizations dataset)) ->
    consolidatePlaceholders argLimit dataset = Ok dataset' ->
    (dget (organizations dataset) q = None -> dget (organizations dataset') q = None) /\
    (is_placeholder q = false ->
     exists more,
       dget (organizations dataset') q
       = option_map (fun o => extend_received o more) (dget (organizations dataset) q)).
Proof.
  intros argLimit dataset dataset' q ND H.
  unfold consolidatePlaceholders in H.
  destruct (foldM _ _ _) as [orgs' | e] eqn:E; cbn [bind] in H; [ | discriminate H ].
  injection H as <-; cbn [organizations].
  apply consolidate_fold_fate in E.
  - destruct E as [Ftodo [Fother Freal]].
    split; [ | intros Hq; eexists; apply (Freal q Hq) ].
    intros Hn. destruct (is_placeholder q) eqn:Hq.
    + rewrite Fother; [ exact Hn | | exact Hq ].
      intros Hin; apply filter_In in Hin; destruct Hin as [Hin _].
      apply dget_keys in Hin; contradiction.
    + rewrite (Freal q Hq), Hn; reflexivity.
  - apply NoDup_filter; exact ND.
  - intros k Hk; apply filter_In in Hk; tauto.
  - intros k Hk; apply filter_In in Hk; apply dget_keys; tauto.
Qed.

Lemma consolidation_keeps_real_entries_witness :
  (dget (organizations acmeDataset) "E1" = None ->
   dget [ ("E1",
           mkOrganization "E1" "ACME"
             [ mkReceived "F2" "Foundation Two" (num 500) (num 2023);
               mkReceived "F1" "Foundation One" (num 1000) (num 2023) ] None) ]
        "E1" = None) /\
  (is_placeholder "E1" = false ->
   exists more,
     dget [ ("E1",
             mkOrganization "E1" "ACME"
               [ mkReceived "F2" "Foundation Two" (num 500) (num 2023);
                 mkReceived "F1" "Foundation One" (num 1000) (num 2023) ] None) ]
          "E1"
     = option_map (fun o => extend_received o more)
                  (dget (organizations acmeDataset) "E1")).
Proof.
  apply (consolidation_keeps_real_entries 4096 acmeDataset
           (mkDataset []
              [ ("E1",
                 mkOrganization "E1" "ACME"
                   [ mkReceived "F2" "Foundation Two" (num 500) (num 2023);
                     mkReceived "F1" "Foundation One" (num 1000) (num 2023) ] None) ]
              (mkDatasetMetadata 2 2 "2024-01-01T00:00:00.000Z")) "E1").
  - repeat constructor; cbn; intuition discriminate.
  - reflexivity.
Defined.

(* --------------------------------------------------------------------- *)
(** ** The links of a network fit its nodes *)
(* --------------------------------------------------------------------- *)

Lemma fold_left_inv : forall (A S : Type) (P : S -> Prop) (step : S -> A -> S) l st,
  (forall st x, In x l -> P st -> P (step st x)) -> P st -> P (fold_left step l st).
Proof.
  intros A S P step; induction l as [ | x r IH ]; cbn [fold_left]; intros st Hs HP;
    [ exact HP | ].
  apply IH; [ intros s y Hy; apply Hs; right; exact Hy | ].
  apply Hs; [ left; reflexivity | exact HP ].
Qed.

Lemma foldM_inv : forall (A S : Type) (P : S -> Prop) (step : S -> A -> result S) l st st',
  (forall st x st', In x l -> P st -> step st x = Ok st' -> P st') ->
  P st -> foldM step l st = Ok st' -> P st'.
Proof.
  intros A S P step; induction l as [ | x r IH ]; cbn [foldM]; intros st st' Hs HP H.
  - injection H as <-; exact HP.
  - destruct (step st x) as [st1 | e] eqn:E; cbn [bind] in H; [ | discriminate H ].
    apply (IH st1 st'); [ intros s y s' Hy; apply Hs; right; exact Hy | | exact H ].
    apply (Hs st x st1); [ left; reflexivity | exact HP | exact E ].
Qed.

Lemma link_ok_mono : forall c skip ids ids' l,
  incl ids ids' -> link_ok c skip ids l -> link_ok c skip ids' l.
Proof.
  intros c skip ids ids' l Hi [Hs [Ht Hty]]; repeat split; auto.
Qed.

Lemma node_ids_push_node : forall st n, node_ids (push_node st n) = node_ids st ++ [n_id n].
Proof. intros st n; unfold node_ids; cbn [push_node st_nodes]; apply map_app. Qed.

Lemma state_ok_central : forall c skip st, state_ok c skip st -> In c (node_ids st).
Proof. intros c skip st [_ [[rest Hr] _]]; rewrite Hr; left; reflexivity. Qed.

Lemma state_ok_push_node : forall c skip st n,
  state_ok c skip st -> state_ok c skip (push_node st n).
Proof.
  intros c skip st n [Hok [[rest Hr] F]]. split; [ apply added_ok_push_node; exact Hok | ].
  rewrite node_ids_push_node. split; [ exists (rest ++ [n_id n]); rewrite Hr; reflexivity | ].
  cbn [push_node st_links]. eapply Forall_impl; [ | exact F ].
  intros l; apply link_ok_mono, incl_appl, incl_refl.
Qed.

Lemma state_ok_push_links : forall c skip st ls,
  state_ok c skip st ->
  Forall (link_ok c skip (node_ids st)) ls ->
  state_ok c skip (push_links st ls).
Proof.
  intros c skip st ls [Hok [Hc F]] Hl. split; [ exact Hok | split; [ exact Hc | ] ].
  cbn [push_links st_links]. apply Forall_app; split; assumption.
Qed.

(** What [if (!addedNodes.has(id)) nodes.push(node)] leaves: the invariant,
    the ids there before, and the id of the node. *)
Lemma state_ok_push_if_new : forall c skip st n,
  state_ok c skip st ->
  let st1 := if set_has (st_added st) (n_id n) then st else push_node st n in
  state_ok c skip st1 /\ incl (node_ids st) (node_ids st1) /\ In (n_id n) (node_ids st1).
Proof.
  intros c skip st n H; cbv zeta. destruct (set_has (st_added st) (n_id n)) eqn:E.
  - split; [ exact H | split; [ apply incl_refl | ] ]. apply (proj1 H); exact E.
  - split; [ apply state_ok_push_node; exact H | ].
    rewrite node_ids_push_node. split; [ apply incl_appl, incl_refl | ].
    apply in_or_app; right; left; reflexivity.
Qed.

Lemma addOtherFunder_state_ok : forall dataset c skipEIN granteeId st grant,
  state_ok c skipEIN st /\ In granteeId (node_ids st) ->
  state_ok c skipEIN (addOtherFunder dataset skipEIN granteeId st grant) /\
  In granteeId (node_ids (addOtherFunder dataset skipEIN granteeId st grant)).
Proof.
  intros dataset c skip gid st grant [Hst Hg]; unfold addOtherFunder; cbv zeta.
  destruct (String.eqb (funderEIN grant) skip) eqn:Es; [ auto | ].
  apply String.eqb_neq in Es.
  match goal with
  | |- context [push_node st ?n] => set (node := n)
  end.
  destruct (state_ok_push_if_new c skip st node Hst) as [H1 [Hi H2]].
  change (n_id node) with (funderEIN grant) in H1, Hi, H2.
  split; [ | apply Hi; exact Hg ].
  apply state_ok_push_links; [ exact H1 | ].
  constructor; [ | constructor ].
  repeat split; cbn [source target l_type]; auto.
Qed.

Lemma funders_fold_state_ok : forall dataset c skipEIN granteeId received st,
  state_ok c skipEIN st /\ In granteeId (node_ids st) ->
  state_ok c skipEIN (fold_left (addOtherFunder dataset skipEIN granteeId) received st).
Proof.
  intros dataset c skip gid received st H.
  apply (fold_left_inv _ _ (fun s => state_ok c skip s /\ In gid (node_ids s))
           (addOtherFunder dataset skip gid) received st); [ | exact H ].
  intros s x _ Hs; apply addOtherFunder_state_ok; exact Hs.
Qed.

(** One grantee: node unless known, links from the central node, then the
    loop over its other funders. *)
Lemma grantee_round_state_ok : forall (A : Type) dataset c skipEIN st node
    (mk : A -> Link) (group : list A) received,
  state_ok c skipEIN st ->
  (forall y, source (mk y) = c /\ target (mk y) = n_id node /\ l_type (mk y) = hlf_grant) ->
  state_ok c skipEIN
    (fold_left (addOtherFunder dataset skipEIN (n_id node)) received
       (push_links (if set_has (st_added st) (n_id node) then st else push_node st node)
                   (map mk group))).
Proof.
  intros A dataset c skip st node mk group received Hst Hmk.
  destruct (state_ok_push_if_new c skip st node Hst) as [H1 [Hi H2]].
  apply funders_fold_state_ok. split; [ | exact H2 ].
  apply state_ok_push_links; [ exact H1 | ].
  apply Forall_forall; intros l Hl. apply in_map_iff in Hl; destruct Hl as [y [<- _]].
  destruct (Hmk y) as [Hs [Ht Hty]]. unfold link_ok; rewrite Hs, Ht, Hty.
  repeat split; [ eapply state_ok_central; exact H1 | exact H2 ].
Qed.

Lemma addUnmatchedGrantee_state_ok : forall unmatched st e st',
  state_ok hlfId HLF_EIN st ->
  addUnmatchedGrantee unmatched st e = Ok st' ->
  state_ok hlfId HLF_EIN st'.
Proof.
  intros unmatched st [n group] st' Hst H; unfold addUnmatchedGrantee in H.
  destruct (find _ unmatched) as [g | ]; [ | discriminate H ].
  injection H as <-.
  match goal with
  | |- context [push_node st ?nd] => set (node := nd)
  end.
  pose proof (state_ok_push_node hlfId HLF_EIN st node Hst) as H1.
  apply state_ok_push_links; [ exact H1 | ].
  apply Forall_forall; intros l Hl. apply in_map_iff in Hl; destruct Hl as [y [<- _]].
  unfold link_ok; cbn [hlfLink source target l_type].
  repeat split; [ eapply state_ok_central; exact H1 | ].
  rewrite node_ids_push_node; apply in_or_app; right; left; reflexivity.
Qed.

Lemma addMatchedGrantee_state_ok : forall dataset names byOrg st e,
  state_ok hlfId HLF_EIN st ->
  state_ok hlfId HLF_EIN (addMatchedGrantee dataset names byOrg st e).
Proof.
  intros dataset names byOrg st [orgEIN org] Hst; unfold addMatchedGrantee; cbv zeta.
  destruct (set_has names (lowerTrim (o_name org))); [ | exact Hst ].
  match goal with
  | |- context [push_node st ?nd] =>
      apply (grantee_round_state_ok _ dataset hlfId HLF_EIN st nd (hlfLink orgEIN))
  end; [ exact Hst | ].
  intros y; repeat split.
Qed.

Lemma addGrantee_state_ok : forall dataset c centralName st e st',
  state_ok c c st ->
  addGrantee dataset c centralName st e = Ok st' ->
  state_ok c c st'.
Proof.
  intros dataset c cname st [k grants] st' Hst H; unfold addGrantee in H.
  assert (R : forall node received, n_id node = k ->
            state_ok c c
              (fold_left (addOtherFunder dataset c k) received
                 (push_links (if set_has (st_added st) k then st else push_node st node)
                             (map (centralLink c k) grants)))).
  { intros node received <-. apply grantee_round_state_ok; [ exact Hst | ].
    intros y; repeat split. }
  assert (R0 : forall node, n_id node = k ->
            state_ok c c
                 (push_links (if set_has (st_added st) k then st else push_node st node)
                             (map (centralLink c k) grants)))
    by (intros node Hn; exact (R node [] Hn)).
  destruct (set_has (st_added st) k) eqn:Ehas; cbn [bind] in H.
  - injection H as <-.
    destruct (dget (organizations dataset) k) as [org | ].
    + apply (R (mkNode k EmptyString grantee None None None None None)); reflexivity.
    + apply (R0 (mkNode k EmptyString grantee None None None None None)); reflexivity.
  - match type of H with
    | bind (bind ?nm _) _ = _ => destruct nm as [name | err]
    end; cbn [bind] in H; [ | discriminate H ].
    injection H as <-.
    destruct (dget (organizations dataset) k) as [org | ].
    + match goal with
      | |- context [push_node st ?nd] => apply (R nd); reflexivity
      end.
    + match goal with
      | |- context [push_node st ?nd] => apply (R0 nd); reflexivity
      end.
Qed.

Lemma state_ok_first : forall c skip n,
  n_id n = c -> state_ok c skip (push_node (mkNetState [] [] []) n).
Proof.
  intros c skip n <-. split; [ apply added_ok_first | split ].
  - exists []; reflexivity.
  - constructor.
Qed.

Lemma distinct_push_if_new : forall st n,
  added_ok st -> NoDup (node_ids st) ->
  NoDup (node_ids (if set_has (st_added st) (n_id n) then st else push_node st n)).
Proof.
  intros st n Hok Hd. destruct (set_has (st_added st) (n_id n)) eqn:E; [ exact Hd | ].
  rewrite node_ids_push_node. apply NoDup_app; [ exact Hd | | ].
  - constructor; [ intros [] | constructor ].
  - intros k Hk [<- | []]. apply Hok in Hk. rewrite Hk in E; discriminate E.
Qed.

Lemma added_ok_push_if_new : forall st n,
  added_ok st ->
  added_ok (if set_has (st_added st) (n_id n) then st else push_node st n).
Proof.
  intros st n Hok. destruct (set_has (st_added st) (n_id n));
    [ exact Hok | apply added_ok_push_node; exact Hok ].
Qed.

Lemma addOtherFunder_distinct : forall dataset skipEIN granteeId st grant,
  added_ok st /\ NoDup (node_ids st) ->
  added_ok (addOtherFunder dataset skipEIN granteeId st grant) /\
  NoDup (node_ids (addOtherFunder dataset skipEIN granteeId st grant)).
Proof.
  intros dataset skip gid st grant [Hok Hd]; unfold addOtherFunder; cbv zeta.
  destruct (String.eqb (funderEIN grant) skip); [ auto | ].
  match goal with
  | |- context [push_node st ?n] => set (node := n)
  end.
  split.
  - apply added_ok_push_links. exact (added_ok_push_if_new st node Hok).
  - exact (distinct_push_if_new st node Hok Hd).
Qed.

Lemma addGrantee_distinct : forall dataset c centralName st e st',
  added_ok st -> NoDup (node_ids st) ->
  addGrantee dataset c centralName st e = Ok st' ->
  NoDup (node_ids st').
Proof.
  intros dataset c cname st [k grants] st' Hok Hd H; unfold addGrantee in H.
  assert (R : forall node received, n_id node = k ->
            NoDup (node_ids
              (fold_left (addOtherFunder dataset c k) received
                 (push_links (if set_has (st_added st) k then st else push_node st node)
                             (map (centralLink c k) grants))))).
  { intros node received <-.
    apply (fold_left_inv _ _ (fun s => added_ok s /\ NoDup (node_ids s))).
    - intros s x _; apply addOtherFunder_distinct.
    - split; [ apply added_ok_push_links, added_ok_push_if_new; exact Hok | ].
      exact (distinct_push_if_new st node Hok Hd). }
  assert (R0 : forall node, n_id node = k ->
            NoDup (node_ids
                 (push_links (if set_has (st_added st) k then st else push_node st node)
                             (map (centralLink c k) grants))))
    by (intros node Hn; exact (R node [] Hn)).
  destruct (set_has (st_added st) k) eqn:Ehas; cbn [bind] in H.
  - injection H as <-.
    destruct (dget (organizations dataset) k) as [org | ].
    + apply (R (mkNode k EmptyString grantee None None None None None)); reflexivity.
    + apply (R0 (mkNode k EmptyString grantee None None None None None)); reflexivity.
  - match type of H with
    | bind (bind ?nm _) _ = _ => destruct nm as [name | err]
    end; cbn [bind] in H; [ | discriminate H ].
    injection H as <-.
    destruct (dget (organizations dataset) k) as [org | ].
    + match goal with
      | |- context [push_node st ?nd] => apply (R nd); reflexivity
      end.
    + match goal with
      | |- context [push_node st ?nd] => apply (R0 nd); reflexivity
      end.
Qed.

(** The state that each builder ends in. *)
Lemma buildHLFNetwork_state_ok : forall allHLFGrantees dataset net,
  buildHLFNetwork allHLFGrantees dataset = Ok net ->
  exists st,
    state_ok hlfId HLF_EIN st /\ nodes net = st_nodes st /\ links net = st_links st.
Proof.
  intros gs dataset net H.
  unfold buildHLFNetwork in H; cbv zeta in H.
  match type of H with
  | bind ?m _ = _ => destruct m as [st1 | e] eqn:E1
  end; cbn [bind] in H; [ | discriminate H ].
  injection H as <-. eexists. split; [ | split; reflexivity ].
  apply fold_left_inv; [ intros s x _; apply addMatchedGrantee_state_ok | ].
  eapply (foldM_inv _ _ (state_ok hlfId HLF_EIN)); [ | | exact E1 ].
  - intros s x s' _; apply addUnmatchedGrantee_state_ok.
  - apply state_ok_first; reflexivity.
Qed.

Lemma buildCustomEINNetwork_state_ok : forall dataset centralEIN net,
  buildCustomEINNetwork dataset centralEIN = Ok net ->
  exists st,
    state_ok centralEIN centralEIN st /\
    NoDup (node_ids st) /\
    nodes net = st_nodes st /\ links net = st_links st.
Proof.
  intros dataset c net H.
  unfold buildCustomEINNetwork in H.
  destruct (dget (foundations dataset) c) as [f | ]; [ | discriminate H ].
  cbv zeta in H.
  match type of H with
  | bind ?m _ = _ => destruct m as [st1 | e] eqn:E1
  end; cbn [bind] in H; [ | discriminate H ].
  injection H as <-. exists st1.
  assert (I : state_ok c c st1 /\ NoDup (node_ids st1)).
  { eapply (foldM_inv _ _ (fun s => state_ok c c s /\ NoDup (node_ids s))); [ | | exact E1 ].
    - intros s x s' _ [Hs Hd] Hx. split; [ eapply addGrantee_state_ok; eauto | ].
      eapply addGrantee_distinct; [ exact (proj1 Hs) | exact Hd | exact Hx ].
    - split; [ apply state_ok_first; reflexivity | ].
      rewrite node_ids_push_node. cbn. constructor; [ intros [] | constructor ]. }
  destruct I as [I1 I2]. split; [ exact I1 | split; [ exact I2 | split; reflexivity ] ].
Qed.

(** X13. In every network produced by either builder, each link starts and ends
    at the id of an emitted node, and each link of type hlf-grant starts at
    the central node. *)
Theorem network_links_fit_nodes : forall net l,
  produced net ->
  In l (links net) ->
  In (source l) (map n_id (nodes net)) /\
  In (target l) (map n_id (nodes net)) /\
  (l_type l = hlf_grant -> source l = centralId net).
Proof.
  intros net l H Hl.
  assert (S : exists c skip st,
            state_ok c skip st /\ nodes net = st_nodes st /\ links net = st_links st).
  { destruct H as [[gs [dataset H]] | [dataset [c H]]].
    - destruct (buildHLFNetwork_state_ok _ _ _ H) as [st Hst]; eauto.
    - destruct (buildCustomEINNetwork_state_ok _ _ _ H) as [st [H1 [_ H2]]]; eauto. }
  destruct S as [c [skip [st [[Hok [[rest Hr] F]] [Hn Hls]]]]].
  rewrite Hls in Hl. rewrite Forall_forall in F. destruct (F l Hl) as [Hs [Ht Hty]].
  unfold centralId. rewrite Hn. unfold node_ids in *. repeat split; try assumption.
  intros E; rewrite E in Hty.
  destruct (st_nodes st) as [ | n0 more ]; [ discriminate Hr | ].
  cbn [map] in Hr. injection Hr as Hc _. rewrite Hc; exact Hty.
Qed.

Lemma network_links_fit_nodes_witness :
  In "X" (map n_id (nodes sampleNetwork)) /\
  In "E1" (map n_id (nodes sampleNetwork)) /\
  (other_funder = hlf_grant -> "X" = centralId sampleNetwork).
Proof.
  apply (network_links_fit_nodes sampleNetwork
           (mkLink "X" "E1" (num 50) other_funder (num 2023))).
  - right; exists sampleDataset, "F"; reflexivity.
  - cbn; right; right; left; reflexivity.
Defined.

(** X14. A network built for a custom EIN has no two nodes with the same id, and
    a link of it starts at the central EIN exactly when its type is
    hlf-grant: the central foundation never appears as an other funder. *)
Theorem buildCustomEINNetwork_distinct_nodes : forall dataset centralEIN net,
  buildCustomEINNetwork dataset centralEIN = Ok net ->
  NoDup (map n_id (nodes net)) /\
  forall l, In l (links net) -> (source l = centralEIN <-> l_type l = hlf_grant).
Proof.
  intros dataset c net H.
  destruct (buildCustomEINNetwork_state_ok _ _ _ H) as [st [[_ [_ F]] [Hd [Hn Hl]]]].
  rewrite Hn, Hl. split; [ exact Hd | ].
  intros l Hin. rewrite Forall_forall in F. destruct (F l Hin) as [_ [_ Hty]].
  destruct (l_type l); split; intros E; try assumption; try discriminate E; try contradiction.
  reflexivity.
Qed.

Lemma buildCustomEINNetwork_distinct_nodes_witness :
  NoDup (map n_id (nodes sampleNetwork)) /\
  forall l, In l (links sampleNetwork) -> (source l = "F" <-> l_type l = hlf_grant).
Proof.
  apply (buildCustomEINNetwork_distinct_nodes sampleDataset "F" sampleNetwork).
  reflexivity.
Defined.

(** X15. In the network around the Hidden Leaf Foundation, no link of type
    other-funder starts at the foundation's own EIN: the entries that its own
    filings left in grantsReceived are skipped. *)
Theorem buildHLFNetwork_skips_own_filings : forall allHLFGrantees dataset net l,
  buildHLFNetwork allHLFGrantees dataset = Ok net ->
  In l (links net) ->
  l_type l = other_funder ->
  source l <> HLF_EIN.
Proof.
  intros gs dataset net l H Hin Hty.
  destruct (buildHLFNetwork_state_ok _ _ _ H) as [st [[_ [_ F]] [_ Hl]]].
  rewrite Hl in Hin. rewrite Forall_forall in F. destruct (F l Hin) as [_ [_ T]].
  rewrite Hty in T; exact T.
Qed.

Lemma buildHLFNetwork_skips_own_filings_witness : "F" <> HLF_EIN.
Proof.
  apply (buildHLFNetwork_skips_own_filings sampleGrantees sampleDataset sampleHLFNetwork
           (mkLink "F" "E2" (num 200) other_funder (num 2023))).
  - reflexivity.
  - cbn; right; right; left; reflexivity.
  - reflexivity.
Defined.

(* --------------------------------------------------------------------- *)
(** ** Every curated grant has its link from the central node *)
(* --------------------------------------------------------------------- *)

Lemma fold_map_push_member : forall (A B : Type) (key : B -> string) (val : B -> A)
    (l : list B) (m : Map (list A)) n y,
  (exists group,
     map_get (fold_left (fun m x => map_push m (key x) (val x)) l m) n = Some group /\
     In y group) <->
  (exists group, map_get m n = Some group /\ In y group) \/
  (exists x, In x l /\ key x = n /\ val x = y).
Proof.
  intros A B key val; induction l as [ | x r IH ]; cbn [fold_left]; intros m n y.
  - split; [ intros H; left; exact H | intros [H | [x [[] _]]]; exact H ].
  - rewrite IH, map_push_member. split.
    + intros [[H | [H1 H2]] | [x' [H1 H2]]].
      * left; exact H.
      * right; exists x; split; [ left; reflexivity | split; assumption ].
      * right; exists x'; split; [ right; exact H1 | exact H2 ].
    + intros [H | [x' [[<- | H1] [H2 H3]]]].
      * left; left; exact H.
      * left; right; split; assumption.
      * right; exists x'; split; [ exact H1 | split; assumption ].
Qed.

Lemma groupByName_member : forall grants g,
  In g grants ->
  exists group,
    map_get (groupByName grants) (lowerTrim (organization g)) = Some group /\
    In (mkYearAmount (c_amount g) (c_year g)) group.
Proof.
  intros grants g Hg. unfold groupByName.
  apply (fold_map_push_member _ _ (fun g => lowerTrim (organization g))
           (fun g => mkYearAmount (c_amount g) (c_year g))).
  right; exists g; split; [ exact Hg | split; reflexivity ].
Qed.

Lemma granteeNames_member : forall grants g,
  In g grants -> set_has (granteeNames grants) (lowerTrim (organization g)) = true.
Proof.
  intros grants g Hg. unfold granteeNames.
  assert (G : forall l s n,
            set_has s n = true \/ (exists x, In x l /\ lowerTrim (organization x) = n) ->
            set_has (fold_left (fun s g => set_add s (lowerTrim (organization g))) l s) n
              = true).
  { induction l as [ | x r IH ]; cbn [fold_left]; intros s n [H | [x' [H1 H2]]].
    - exact H.
    - destruct H1.
    - apply IH; left. rewrite set_has_set_add, H; reflexivity.
    - destruct H1 as [<- | H1].
      + apply IH; left. rewrite set_has_set_add, H2, String.eqb_refl, orb_true_r; reflexivity.
      + apply IH; right; exists x'; split; assumption. }
  apply G; right; exists g; split; [ exact Hg | reflexivity ].
Qed.

(** What a loop whose rounds only push links leaves of each round. *)
Lemma fold_left_reaches : forall (A : Type) (step : NetState -> A -> NetState),
  (forall s x, incl (st_links s) (st_links (step s x))) ->
  forall l st,
    incl (st_links st) (st_links (fold_left step l st)) /\
    forall x, In x l ->
      exists s, incl (st_links (step s x)) (st_links (fold_left step l st)).
Proof.
  intros A step Hmono; induction l as [ | y r IH ]; cbn [fold_left]; intros st.
  - split; [ apply incl_refl | intros x [] ].
  - destruct (IH (step st y)) as [I1 I2]. split.
    + eapply incl_tran; [ apply Hmono | exact I1 ].
    + intros x [<- | Hx]; [ exists st; exact I1 | apply I2; exact Hx ].
Qed.

Lemma foldM_reaches : forall (A : Type) (step : NetState -> A -> result NetState),
  (forall s x s1, step s x = Ok s1 -> incl (st_links s) (st_links s1)) ->
  forall l st st',
    foldM step l st = Ok st' ->
    incl (st_links st) (st_links st') /\
    forall x, In x l ->
      exists s s1, step s x = Ok s1 /\ incl (st_links s1) (st_links st').
Proof.
  intros A step Hmono; induction l as [ | y r IH ]; cbn [foldM]; intros st st' H.
  - injection H as <-. split; [ apply incl_refl | intros x [] ].
  - destruct (step st y) as [st1 | e] eqn:E; cbn [bind] in H; [ | discriminate H ].
    destruct (IH st1 st' H) as [I1 I2]. split.
    + eapply incl_tran; [ eapply Hmono; exact E | exact I1 ].
    + intros x [<- | Hx]; [ exists st, st1; split; assumption | apply I2; exact Hx ].
Qed.

Lemma addOtherFunder_links_grow : forall dataset skipEIN granteeId st grant,
  incl (st_links st) (st_links (addOtherFunder dataset skipEIN granteeId st grant)).
Proof.
  intros dataset skip gid st grant; unfold addOtherFunder; cbv zeta.
  destruct (String.eqb (funderEIN grant) skip); [ apply incl_refl | ].
  destruct (set_has (st_added st) (funderEIN grant));
    cbn [push_links push_node st_links]; apply incl_appl, incl_refl.
Qed.

Lemma funders_fold_links_grow : forall dataset skipEIN granteeId received st,
  incl (st_links st)
       (st_links (fold_left (addOtherFunder dataset skipEIN granteeId) received st)).
Proof.
  intros dataset skip gid received st.
  apply (fold_left_reaches _ (addOtherFunder dataset skip gid)).
  intros s x; apply addOtherFunder_links_grow.
Qed.

Lemma addMatchedGrantee_links_grow : forall dataset names byOrg st e,
  incl (st_links st) (st_links (addMatchedGrantee dataset names byOrg st e)).
Proof.
  intros dataset names byOrg st [k org]; unfold addMatchedGrantee; cbv zeta.
  destruct (set_has names (lowerTrim (o_name org))); [ | apply incl_refl ].
  eapply incl_tran; [ | apply funders_fold_links_grow ].
  destruct (set_has (st_added st) k); cbn [push_links push_node st_links];
    apply incl_appl, incl_refl.
Qed.

Lemma addUnmatchedGrantee_links_grow : forall unmatched st e st',
  addUnmatchedGrantee unmatched st e = Ok st' -> incl (st_links st) (st_links st').
Proof.
  intros unmatched st [n group] st' H; unfold addUnmatchedGrantee in H.
  destruct (find _ unmatched); [ | discriminate H ]. injection H as <-.
  cbn [push_links push_node st_links]; apply incl_appl, incl_refl.
Qed.

(** X16. No curated grant is lost by buildHLFNetwork: a grant whose grantee name
    matches no organization of the dataset has a link of type hlf-grant from
    the node hlf to the node hlf_grantee_<name>, with its amount and year; a
    grant whose grantee name matches has such a link to every organization
    of that name. *)
Theorem buildHLFNetwork_links_every_grant : forall allHLFGrantees dataset net g,
  buildHLFNetwork allHLFGrantees dataset = Ok net ->
  In g allHLFGrantees ->
  let name := lowerTrim (organization g) in
  let link := fun t => mkLink hlfId t (c_amount g) hlf_grant (c_year g) in
  (foundInDataset dataset name = false ->
   In (link ("hlf_grantee_" ++ replace_space_runs "_" false name)%string) (links net)) /\
  (forall k org,
     In (k, org) (organizations dataset) -> lowerTrim (o_name org) = name ->
     In (link k) (links net)) /\
  exists t, In (link t) (links net).
Proof.
  intros gs dataset net g H Hg name link.
  unfold buildHLFNetwork in H; cbv zeta in H.
  match type of H with
  | bind ?m _ = _ => destruct m as [st1 | e] eqn:E1
  end; cbn [bind] in H; [ | discriminate H ].
  injection H as <-; cbn [links].
  destruct (fold_left_reaches _
              (addMatchedGrantee dataset (granteeNames gs) (groupByName gs))
              (fun s x => addMatchedGrantee_links_grow dataset _ _ s x)
              (organizations dataset) st1) as [G1 G2].
  destruct (foldM_reaches _ _ (addUnmatchedGrantee_links_grow _) _ _ _ E1) as [_ U2].
  assert (P1 : foundInDataset dataset name = false ->
               In (link ("hlf_grantee_" ++ replace_space_runs "_" false name)%string)
                  (st_links (fold_left
                     (addMatchedGrantee dataset (granteeNames gs) (groupByName gs))
                     (organizations dataset) st1))).
  { intros Hnf. apply G1.
    assert (Hu : In g (filter (fun g => negb (foundInDataset dataset
                                                 (lowerTrim (organization g)))) gs))
      by (apply filter_In; split; [ exact Hg | fold name; rewrite Hnf; reflexivity ]).
    destruct (groupByName_member _ g Hu) as [group [Hget Hin]].
    apply dget_In in Hget.
    destruct (U2 _ Hget) as [s [s1 [Hs Hi]]]. apply Hi.
    unfold addUnmatchedGrantee in Hs.
    destruct (find _ _); [ | discriminate Hs ]. injection Hs as <-.
    cbn [push_links push_node st_links]. apply in_or_app; right.
    apply (in_map (hlfLink ("hlf_grantee_" ++ replace_space_runs "_" false name)%string))
      in Hin.
    exact Hin. }
  assert (P2 : forall k org,
               In (k, org) (organizations dataset) -> lowerTrim (o_name org) = name ->
               In (link k)
                  (st_links (fold_left
                     (addMatchedGrantee dataset (granteeNames gs) (groupByName gs))
                     (organizations dataset) st1))).
  { intros k org He Hn.
    destruct (G2 _ He) as [s Hi]. apply Hi.
    unfold addMatchedGrantee; cbv zeta. rewrite Hn. unfold name.
    rewrite (granteeNames_member gs g Hg).
    destruct (groupByName_member gs g Hg) as [group [Hget Hin]]. rewrite Hget.
    apply funders_fold_links_grow.
    apply (in_map (hlfLink k)) in Hin.
    destruct (set_has (st_added s) k); cbn [push_links push_node st_links];
      apply in_or_app; right; exact Hin. }
  split; [ exact P1 | split; [ exact P2 | ] ].
  destruct (foundInDataset dataset name) eqn:Ef.
  - unfold foundInDataset in Ef. apply existsb_exists in Ef.
    destruct Ef as [org [Hv Hn]]. apply String.eqb_eq in Hn.
    unfold values in Hv. apply in_map_iff in Hv. destruct Hv as [[k org'] [Ho He]].
    cbn [snd] in Ho; subst org'.
    exists k; apply (P2 k org He Hn).
  - eexists; apply P1; reflexivity.
Qed.

Lemma buildHLFNetwork_links_every_grant_witness :
  let name := lowerTrim "ACME " in
  let link := fun t => mkLink hlfId t (num 5) hlf_grant (num 2020) in
  (foundInDataset sampleDataset name = false ->
   In (link ("hlf_grantee_" ++ replace_space_runs "_" false name)%string)
      (links sampleHLFNetwork)) /\
  (forall k org,
     In (k, org) (organizations sampleDataset) -> lowerTrim (o_name org) = name ->
     In (link k) (links sampleHLFNetwork)) /\
  exists t, In (link t) (links sampleHLFNetwork).
Proof.
  apply (buildHLFNetwork_links_every_grant sampleGrantees sampleDataset sampleHLFNetwork
           (mkCuratedGrant "ACME " (num 5) (num 2020))).
  - reflexivity.
  - left; reflexivity.
Defined.

(* --------------------------------------------------------------------- *)
(** ** The per-file task and the batches of a month *)
(* --------------------------------------------------------------------- *)

Lemma processXmlFile_content : forall env filePath year r,
  processXmlFile env filePath year = Ok (Some r) ->
  exists xmlContent,
    readFileSync env filePath = Ok xmlContent /\
    includes xmlContent "<IRS990PF" = true.
Proof.
  unfold processXmlFile, try_catch, processXmlFile_body, bind.
  intros env filePath year r H.
  destruct (readFileSync env filePath) as [xml | e]; [ | discriminate H ].
  exists xml; split; [ reflexivity | ].
  destruct (includes xml "<IRS990PF"); [ reflexivity | discriminate H ].
Qed.

Lemma parseXML990File_content : forall env filePath year o,
  parseXML990File env filePath year = Ok (Some o) ->
  exists xmlContent,
    readFileSync env filePath = Ok xmlContent /\
    includes xmlContent "<IRS990" = true /\
    includes xmlContent "<IRS990PF" = false.
Proof.
  unfold parseXML990File, try_catch, parseXML990File_body, bind.
  intros env filePath year o H.
  destruct (readFileSync env filePath) as [xml | e]; [ | discriminate H ].
  exists xml; split; [ reflexivity | ].
  destruct (includes xml "<IRS990"); destruct (includes xml "<IRS990PF");
    try discriminate H; split; reflexivity.
Qed.

(** X17. The task run for one file never throws.  It yields a grant-maker result
    only with at least one grant, and then the same file read as a Form 990
    gives null; it yields an organization result only for a document that
    holds the text <IRS990 and not the text <IRS990PF, so no file is counted
    both as a foundation and as an organization. *)
Theorem parseOneFile_outcome : forall env xmlPath year,
  (exists r, parseOneFile env xmlPath year = Ok r) /\
  (forall d,
     parseOneFile env xmlPath year = Ok (Some (PF d)) ->
     processXmlFile env xmlPath year = Ok (Some d) /\
     pf_grants d <> [] /\
     parseXML990File env xmlPath year = Ok None) /\
  (forall o,
     parseOneFile env xmlPath year = Ok (Some (ORG o)) ->
     processXmlFile env xmlPath year = Ok None /\
     parseXML990File env xmlPath year = Ok (Some o) /\
     exists xmlContent,
       readFileSync env xmlPath = Ok xmlContent /\
       includes xmlContent "<IRS990" = true /\
       includes xmlContent "<IRS990PF" = false).
Proof.
  intros env xmlPath year.
  assert (T1 : exists r, processXmlFile env xmlPath year = Ok r)
    by (unfold processXmlFile, try_catch;
        destruct (processXmlFile_body env xmlPath year); eauto).
  assert (T2 : exists r, parseXML990File env xmlPath year = Ok r)
    by (unfold parseXML990File, try_catch;
        destruct (parseXML990File_body env xmlPath year); eauto).
  destruct T1 as [r1 E1], T2 as [r2 E2].
  unfold parseOneFile, PROCESS_990. rewrite E1; cbn [bind].
  destruct r1 as [d1 | ].
  - destruct (pf_grants d1) as [ | g gs ] eqn:Eg; cbn [List.length Nat.ltb Nat.leb].
    + split; [ eauto | split; intros x H; discriminate H ].
    + split; [ eauto | split; intros x H; [ | discriminate H ] ].
      injection H as <-. split; [ reflexivity | split; [ rewrite Eg; discriminate | ] ].
      destruct r2 as [o2 | ]; [ | exact E2 ].
      destruct (processXmlFile_content _ _ _ _ E1) as [xml [R1 I1]].
      destruct (parseXML990File_content _ _ _ _ E2) as [xml' [R2 [_ I2]]].
      rewrite R1 in R2; injection R2 as <-. rewrite I1 in I2; discriminate I2.
  - rewrite E2; cbn [bind]. destruct r2 as [o2 | ].
    + split; [ eauto | split; intros x H; [ discriminate H | ] ].
      injection H as <-. split; [ reflexivity | split; [ reflexivity | ] ].
      exact (parseXML990File_content _ _ _ _ E2).
    + split; [ eauto | split; intros x H; discriminate H ].
Qed.

Lemma batchLoop_partition : forall (A : Type) (batchSize : nat) (allXmlFiles : list A),
  0 < batchSize ->
  forall fuel batchStart,
    List.length allXmlFiles - batchStart <= fuel ->
    List.concat (batchLoop fuel batchSize allXmlFiles batchStart)
      = skipn batchStart allXmlFiles /\
    Forall (fun b => b <> [] /\ List.length b <= batchSize)
           (batchLoop fuel batchSize allXmlFiles batchStart).
Proof.
  intros A bs l Hbs; induction fuel as [ | f IH ]; intros start Hf; cbn [batchLoop].
  - split; [ | constructor ]. cbn [List.concat].
    symmetry; apply skipn_all2; lia.
  - destruct (Nat.ltb_spec start (List.length l)) as [Hlt | Hge].
    + destruct (IH (start + bs)) as [I1 I2]; [ lia | ].
      cbv zeta. cbn [List.concat]. rewrite I1. unfold slice.
      assert (Hlen : List.length (skipn start l) = List.length l - start)
        by apply length_skipn.
      split.
      * destruct (Nat.le_gt_cases (start + bs) (List.length l)) as [Hle | Hgt].
        -- rewrite Nat.min_l by exact Hle.
           replace (start + bs - start) with bs by lia.
           rewrite (Nat.add_comm start bs), <- skipn_skipn.
           apply firstn_skipn.
        -- rewrite Nat.min_r by lia.
           rewrite <- Hlen, firstn_all.
           rewrite (skipn_all2 l (n := start + bs)) by lia.
           apply app_nil_r.
      * constructor; [ | exact I2 ]. split.
        -- intros E. apply (f_equal (@List.length A)) in E.
           rewrite length_firstn, Hlen in E. cbn [List.length] in E. lia.
        -- rewrite length_firstn. lia.
    + split; [ | constructor ]. cbn [List.concat].
      symmetry; apply skipn_all2; lia.
Qed.

(** X18. The batches of a month hold every file once, in order; no batch is
    empty and none has more than BATCH_SIZE files. *)
Theorem batches_partition : forall (A : Type) (allXmlFiles : list A),
  List.concat (batches allXmlFiles) = allXmlFiles /\
  Forall (fun b => b <> [] /\ List.length b <= BATCH_SIZE) (batches allXmlFiles).
Proof.
  intros A l. unfold batches.
  destruct (batchLoop_partition A BATCH_SIZE l) with (fuel := List.length l)
                                                      (batchStart := 0) as [H1 H2].
  - unfold BATCH_SIZE; lia.
  - lia.
  - split; [ exact H1 | exact H2 ].
Qed.

(* --------------------------------------------------------------------- *)
(** ** The search for the directory of the documents *)
(* --------------------------------------------------------------------- *)

Lemma filter_nil_forall : forall (A : Type) (p : A -> bool) l,
  (0 <? List.length (filter p l))%nat = false <-> forall x, In x l -> p x = false.
Proof.
  intros A p; induction l as [ | y r IH ]; cbn [filter].
  - split; [ intros _ x [] | reflexivity ].
  - destruct (p y) eqn:E; cbn [List.length].
    + split; [ intros H; discriminate H | ].
      intros H. rewrite (H y (or_introl eq_refl)) in E; discriminate E.
    + rewrite IH. split.
      * intros H x [<- | Hx]; [ exact E | apply H; exact Hx ].
      * intros H x Hx; apply H; right; exact Hx.
Qed.

Lemma filter_some_exists : forall (A : Type) (p : A -> bool) l,
  (0 <? List.length (filter p l))%nat = true -> exists x, In x l /\ p x = true.
Proof.
  intros A p l H. destruct (filter p l) as [ | x r ] eqn:E; [ discriminate H | ].
  assert (I : In x (filter p l)) by (rewrite E; left; reflexivity).
  apply filter_In in I. exists x; exact I.
Qed.

(** The first element of a filtered list that passes a test, seen in the
    list itself. *)
Lemma find_filter_split : forall (A : Type) (f g : A -> bool) (l : list A) (x : A),
  find f (filter g l) = Some x ->
  exists before after,
    l = before ++ x :: after /\ g x = true /\ f x = true /\
    forall c, In c before -> g c = true -> f c = false.
Proof.
  intros A f g; induction l as [ | a r IH ]; cbn [filter find]; intros x H;
    [ discriminate H | ].
  destruct (g a) eqn:Eg; cbn [find] in H.
  - destruct (f a) eqn:Ef.
    + injection H as <-. exists [], r. repeat split; auto. intros c [].
    + destruct (IH x H) as [b [t [-> [Hg [Hf Hb]]]]].
      exists (a :: b), t. repeat split; auto.
      intros c [<- | Hc] Hgc; [ exact Ef | apply Hb; assumption ].
  - destruct (IH x H) as [b [t [-> [Hg [Hf Hb]]]]].
    exists (a :: b), t. repeat split; auto.
    intros c [<- | Hc] Hgc; [ congruence | apply Hb; assumption ].
Qed.

(** X19. The directory search returns the nested directory whenever it exists.
    Otherwise it returns the extraction directory when that lists a file
    whose name ends in .xml; failing that, the first entry of the extraction
    directory, in listing order, that is a directory and lists such a file
    (every directory listed before it lists none).  It throws exactly when
    the extraction directory is missing or neither it nor any of its
    sub-directories lists such a file. *)
Theorem locateXmlDir_finds_documents : forall disk extractedSubdir zipFileName,
  let nestedDir := path_join extractedSubdir zipFileName in
  let holdsXml := fun dir => existsb isXml (readdirSync disk dir) in
  let isSubdir := fun f => isDirectory disk (path_join extractedSubdir f) in
  match locateXmlDir disk extractedSubdir zipFileName with
  | Ok xmlDir =>
      (existsSync disk nestedDir = true /\ xmlDir = nestedDir) \/
      (existsSync disk nestedDir = false /\
       existsSync disk extractedSubdir = true /\
       ((holdsXml extractedSubdir = true /\ xmlDir = extractedSubdir) \/
        (holdsXml extractedSubdir = false /\
         exists before subdir after,
           readdirSync disk extractedSubdir = before ++ subdir :: after /\
           isSubdir subdir = true /\
           holdsXml (path_join extractedSubdir subdir) = true /\
           (forall f, In f before -> isSubdir f = true ->
                      holdsXml (path_join extractedSubdir f) = false) /\
           xmlDir = path_join extractedSubdir subdir)))
  | Throw _ =>
      existsSync disk nestedDir = false /\
      (existsSync disk extractedSubdir = false \/
       holdsXml extractedSubdir = false /\
       forall subdir,
         In subdir (readdirSync disk extractedSubdir) ->
         isSubdir subdir = true ->
         holdsXml (path_join extractedSubdir subdir) = false)
  end.
Proof.
  intros disk sub zip nestedDir holdsXml isSubdir.
  unfold locateXmlDir; cbv zeta. fold nestedDir.
  assert (X : forall l, existsb isXml l = (0 <? List.length (filter isXml l))%nat).
  { induction l as [ | f r IH ]; [ reflexivity | ].
    cbn [existsb filter]. destruct (isXml f); [ reflexivity | exact IH ]. }
  destruct (existsSync disk nestedDir); [ left; split; reflexivity | ].
  destruct (existsSync disk sub); [ | split; [ reflexivity | left; reflexivity ] ].
  destruct (0 <? List.length (filter isXml (readdirSync disk sub)))%nat eqn:E1.
  { right. split; [ reflexivity | split; [ reflexivity | ] ].
    left; split; [ unfold holdsXml; rewrite X; exact E1 | reflexivity ]. }
  assert (H0 : holdsXml sub = false) by (unfold holdsXml; rewrite X; exact E1).
  destruct (0 <? List.length
                   (filter (fun f => isDirectory disk (path_join sub f))
                           (readdirSync disk sub)))%nat eqn:E2.
  - destruct (find _ _) as [found | ] eqn:Ef.
    + apply find_filter_split in Ef.
      destruct Ef as [before [after [Hl [Hd [Hx Hb]]]]].
      right. split; [ reflexivity | split; [ reflexivity | ] ].
      right. split; [ exact H0 | ].
      exists before, found, after. repeat split; assumption.
    + split; [ reflexivity | right; split; [ exact H0 | ] ].
      intros subdir Hin Hd.
      apply (find_none _ _ Ef subdir). apply filter_In; split; assumption.
  - split; [ reflexivity | right; split; [ exact H0 | ] ].
    intros subdir Hin Hd.
    rewrite filter_nil_forall in E2. unfold isSubdir in Hd.
    rewrite (E2 subdir Hin) in Hd; discriminate Hd.
Qed.

(** The archive of the sample disk unpacked into the sub-directory inner,
    which is where the documents are found. *)
Example locateXmlDir_sample :
  locateXmlDir sampleDisk "x/2024_01A" "2024_01A" = Ok "x/2024_01A/inner".
Proof. reflexivity. Qed.

(* --------------------------------------------------------------------- *)
(** ** The grants read from the curated workbook *)
(* --------------------------------------------------------------------- *)

Lemma filterM_In : forall (A : Type) (p : A -> result bool) l kept,
  filterM p l = Ok kept ->
  forall x, In x kept -> In x l /\ p x = Ok true.
Proof.
  intros A p; induction l as [ | y r IH ]; cbn [filterM]; intros kept H x Hx.
  - injection H as <-; destruct Hx.
  - destruct (p y) as [keep | e] eqn:Ey; cbn [bind] in H; [ | discriminate H ].
    destruct (filterM p r) as [rest | e]; cbn [bind] in H; [ | discriminate H ].
    injection H as <-. specialize (IH rest eq_refl x).
    destruct keep.
    + destruct Hx as [<- | Hx]; [ split; [ left; reflexivity | exact Ey ] | ].
      destruct (IH Hx); split; [ right | ]; assumption.
    + destruct (IH Hx); split; [ right | ]; assumption.
Qed.

(** What a row that passed the filter holds. *)
Lemma rowFilter_kept : forall year row,
  rowFilter year row = Ok true ->
  exists name,
    dget row "Organization" = Some (CStr name) /\
    name <> EmptyString /\
    name <> "Discretionary Grants" /\
    name <> "Mini grants for Storytelling" /\
    cell_truthy (row_amount year row) = true /\
    (isSingleName name = true ->
     num_leb (parsedAmount (row_amount year row)) (num 10000) = false).
Proof.
  intros year row H; unfold rowFilter in H; cbv zeta in H.
  destruct (dget row "Organization") as [[name | n] | ] eqn:Eo;
    cbn [cell_or] in H.
  - destruct name as [ | c r ]; [ discriminate H | ].
    cbn [cell_truthy negb orb cell_is] in H.
    destruct (cell_truthy (row_amount year row)); [ | discriminate H ].
    cbn [negb] in H.
    destruct (String.eqb (String c r) "Discretionary Grants") eqn:E1;
      [ discriminate H | ].
    destruct (String.eqb (String c r) "Mini grants for Storytelling") eqn:E2;
      [ discriminate H | ].
    cbn [orb] in H. apply String.eqb_neq in E1, E2.
    exists (String c r). repeat split; try assumption; try discriminate.
    intros Hs. rewrite Hs in H. cbn [andb] in H.
    destruct (num_leb _ _); [ discriminate H | reflexivity ].
  - cbn [cell_truthy] in H.
    destruct (num_truthy n) eqn:En; destruct (cell_truthy (row_amount year row));
      cbn [cell_truthy negb orb cell_is] in H; try rewrite En in H;
      cbn [cell_truthy negb orb cell_is] in H; discriminate H.
  - discriminate H.
Qed.

Lemma parsedAmount_not_NaN : forall amount, parsedAmount amount <> NaN.
Proof.
  intros amount; unfold parsedAmount, num_or_zero; cbv zeta.
  destruct (parseFloat _) as [ | neg | q ]; cbn [num_truthy]; try discriminate.
  destruct (negb _); discriminate.
Qed.

(** Where the grants of the curated list come from. *)
Lemma loadHLFGrantsFromExcel_rows : forall workbook grants g,
  loadHLFGrantsFromExcel workbook = Ok grants ->
  In g grants ->
  exists sheetName year data row,
    In (sheetName, year) sheetYearMap /\
    dget workbook sheetName = Some data /\
    In row data /\
    rowFilter year row = Ok true /\
    g = rowToGrant year row.
Proof.
  intros workbook grants g H Hg. unfold loadHLFGrantsFromExcel in H.
  revert g Hg.
  eapply (foldM_inv _ _
           (fun all : list CuratedGrant => forall g, In g all ->
              exists sheetName year data row,
                In (sheetName, year) sheetYearMap /\
                dget workbook sheetName = Some data /\
                In row data /\
                rowFilter year row = Ok true /\
                g = rowToGrant year row)); [ | | exact H ]; [ | intros g [] ].
  intros all [sheetName year] all' Hin Hall Hs.
  destruct (dget workbook sheetName) as [data | ] eqn:Ed.
  - destruct (filterM (rowFilter year) data) as [kept | e] eqn:Ek; cbn [bind] in Hs;
      [ | discriminate Hs ].
    injection Hs as <-. intros g Hg. apply in_app_or in Hg.
    destruct Hg as [Hg | Hg]; [ apply Hall; exact Hg | ].
    apply in_map_iff in Hg. destruct Hg as [row [<- Hrow]].
    destruct (filterM_In _ _ _ _ Ek row Hrow) as [Hd Hf].
    exists sheetName, year, data, row. auto.
  - injection Hs as <-. exact Hall.
Qed.

(** X20. Every grant that loadHLFGrantsFromExcel returns names an organization:
    the name is not empty and is not one of the two section headings; its
    amount is a number (never NaN), above 10,000 dollars when the name is a
    single word; and its year is one of 2020 to 2025. *)
Theorem loadHLFGrantsFromExcel_grants : forall workbook grants g,
  loadHLFGrantsFromExcel workbook = Ok grants ->
  In g grants ->
  organization g <> EmptyString /\
  organization g <> "Discretionary Grants" /\
  organization g <> "Mini grants for Storytelling" /\
  c_amount g <> NaN /\
  (isSingleName (organization g) = true -> num_leb (c_amount g) (num 10000) = false) /\
  In (c_year g) (map num [2020; 2021; 2022; 2023; 2024; 2025]%Z).
Proof.
  intros workbook grants g H Hg.
  destruct (loadHLFGrantsFromExcel_rows _ _ _ H Hg)
    as [sheetName [year [data [row [Hy [_ [_ [Hf ->]]]]]]]].
  destruct (rowFilter_kept _ _ Hf) as [name [Ho [N1 [N2 [N3 [_ Hs]]]]]].
  unfold rowToGrant; cbn [organization c_amount c_year]. rewrite Ho.
  repeat split; try assumption.
  - apply parsedAmount_not_NaN.
  - apply (in_map num). apply (in_map snd) in Hy. exact Hy.
Qed.

Lemma loadHLFGrantsFromExcel_grants_witness :
  "Shelter Fund" <> EmptyString /\
  "Shelter Fund" <> "Discretionary Grants" /\
  "Shelter Fund" <> "Mini grants for Storytelling" /\
  num 25000 <> NaN /\
  (isSingleName "Shelter Fund" = true -> num_leb (num 25000) (num 10000) = false) /\
  In (num 2024) (map num [2020; 2021; 2022; 2023; 2024; 2025]%Z).
Proof.
  apply (loadHLFGrantsFromExcel_grants sampleWorkbook
           [mkCuratedGrant "Shelter Fund" (num 25000) (num 2024)]
           (mkCuratedGrant "Shelter Fund" (num 25000) (num 2024))).
  - vm_compute; reflexivity.
  - left; reflexivity.
Defined.

(* --------------------------------------------------------------------- *)
(** ** Names and years in the results of the parsers *)
(* --------------------------------------------------------------------- *)

Lemma or_else_truthy : forall a b, truthy b = true -> truthy (or_else a b) = true.
Proof.
  intros a b Hb; unfold or_else. destruct (truthy a) eqn:E; [ exact E | exact Hb ].
Qed.

Lemma parseRecipient_year : forall taxYear recipient g,
  parseRecipient taxYear recipient = Some g -> pg_year g = taxYear.
Proof.
  unfold parseRecipient; intros taxYear recipient g H.
  split_match_in H; [ | discriminate H ].
  injection H as <-; reflexivity.
Qed.

(** X23. Where the name of a parser result comes from.  A grant-maker result
    carries the filer's EIN and, as its name, the filer's
    BusinessName/BusinessNameLine1Txt when that is truthy and otherwise the
    text Foundation followed by the EIN; a Form 990 result carries
    BusinessNameLine1Txt, else BusinessNameLine1, else the text Organization
    followed by the EIN.  Either way the name is truthy.  All the grants of
    one grant-maker result carry the same year: the TaxYr of the return
    header, or the fallback year when the header has none. *)
Theorem parsed_results_are_named : forall env filePath year,
  (forall r,
     processXmlFile env filePath year = Ok (Some r) ->
     exists xmlContent data ret,
       readFileSync env filePath = Ok xmlContent /\
       parseStringPromise env xmlContent = Ok data /\
       data_Return data = Ok ret /\
       let header := child ret "ReturnHeader" in
       let filer := child header "Filer" in
       let businessName := child (child filer "BusinessName") "BusinessNameLine1Txt" in
       pf_funderEIN r = child filer "EIN" /\
       pf_funderName r
       = (if truthy businessName then businessName
          else str ("Foundation " ++ ToString (child filer "EIN"))) /\
       truthy (pf_funderName r) = true /\
       Forall (fun g =>
                 pg_year g
                 = parseInt (ToString (if truthy (child header "TaxYr")
                                       then child header "TaxYr"
                                       else str (string_of_Z year))))
              (pf_grants r)) /\
  (forall o,
     parseXML990File env filePath year = Ok (Some o) ->
     exists xmlContent data ret,
       readFileSync env filePath = Ok xmlContent /\
       parseStringPromise env xmlContent = Ok data /\
       data_Return data = Ok ret /\
       let filer := child (child ret "ReturnHeader") "Filer" in
       let line1Txt := child (child filer "BusinessName") "BusinessNameLine1Txt" in
       let line1 := child (child filer "BusinessName") "BusinessNameLine1" in
       or_ein o = child filer "EIN" /\
       or_name o
       = (if truthy line1Txt then line1Txt
          else if truthy line1 then line1
          else str ("Organization " ++ ToString (child filer "EIN"))) /\
       truthy (or_name o) = true).
Proof.
  intros env filePath year; split.
  - unfold processXmlFile, try_catch, processXmlFile_body, bind.
    intros r H.
    repeat (split_match_in H; try discriminate H).
    inversion H; cbn [pf_funderEIN pf_funderName pf_grants].
    do 3 eexists.
    split; [ reflexivity | split; [ eassumption | split; [ eassumption | ] ] ].
    cbv zeta. split; [ reflexivity | split; [ reflexivity | split ] ].
    + apply or_else_truthy. reflexivity.
    + apply Forall_forall. intros g Hg.
      apply parseGrantSections_In in Hg. destruct Hg as [recipient [_ Hp]].
      apply (parseRecipient_year _ _ _ Hp).
  - unfold parseXML990File, try_catch, parseXML990File_body, bind.
    intros o H.
    repeat (split_match_in H; try discriminate H).
    inversion H; cbn [or_ein or_name].
    do 3 eexists.
    split; [ reflexivity | split; [ eassumption | split; [ eassumption | ] ] ].
    cbv zeta. split; [ reflexivity | split; [ reflexivity | ] ].
    apply or_else_truthy, or_else_truthy. reflexivity.
Qed.
